(** * SerialTxRx: framing of OSP and NMEA messages over a serial line

    A shallow embedding of [SerialTxRx.cpp] (Linux build, LP64: [int] and
    [unsigned int] are 32 bits wide, [ssize_t] and [unsigned long] 64 bits)
    and the properties of its message framing layer.

    Bytes are integers in [0, 256).  The serial line is an explicit queue of
    what the successive [read] calls will meet; a message buffer is the
    function from an offset (relative to the start of the array) to the byte
    kept there. *)

From Stdlib Require Import String Ascii ZArith List Bool Lia.
From Stdlib Require Import Permutation.
Import ListNotations.
Open Scope Z_scope.

(** ** Constants of [SerialTxRx.h] *)

Definition MAXBUFFERSIZE : Z := 2052.
Definition START1 : Z := 160.
Definition START2 : Z := 162.
Definition END1 : Z := 176.
Definition END2 : Z := 179.
Definition LF : Z := 10.
Definition CR : Z := 13.
Definition DOLAR : Z := 36.
Definition CHK : Z := 42.

Definition is_byte (b : Z) : Prop := 0 <= b < 256.

(** [unsigned int] arithmetic wraps modulo 2^32. *)
Definition u32 (z : Z) : Z := z mod 2 ^ 32.

(** ** The serial line, seen from [read]

    The collaborator is the POSIX call [read(fd, buf, count)]: it returns the
    number of bytes it stored (between 1 and [count]), 0 when nothing came
    before the line timed out, or -1 on error.  The line is the sequence of
    things the reader will meet: a byte, a pause that ends the current call,
    or an error.  When the queue is used up the line repeats [idle] for ever,
    which describes a closed line (pauses), a broken one (errors) and a
    device stuck on one byte. *)
Module Line.

Inductive event : Type :=
| Rx (b : Z)   (* one byte arrives *)
| Gap          (* the call in progress returns with what it already has *)
| Err.         (* the call fails *)

Record port : Type := mkPort { queue : list event; idle : event }.

Definition next (p : port) : event * port :=
  match queue p with
  | e :: q => (e, mkPort q (idle p))
  | [] => (idle p, p)
  end.

(** Bytes gathered by one call after its first byte, at most [n] of them.
    A pause ends the call and is used up by it; an error is left for the
    next call to report. *)
Fixpoint more (n : nat) (p : port) : list Z * port :=
  match n with
  | O => ([], p)
  | S n' =>
      match next p with
      | (Rx b, p') => let '(bs, p'') := more n' p' in (b :: bs, p'')
      | (Gap, p') => ([], p')
      | (Err, _) => ([], p)
      end
  end.

(** [read p count]: the value returned, the bytes stored at the start of
    the destination, and the line afterwards. *)
Definition read (p : port) (count : Z) : Z * list Z * port :=
  if count <=? 0 then (0, [], p)
  else
    match next p with
    | (Rx b, p') =>
        let '(bs, p'') := more (Z.to_nat count - 1) p' in
        (1 + Z.of_nat (length bs), b :: bs, p'')
    | (Gap, p') => (0, [], p')
    | (Err, p') => (-1, [], p')
    end.

(** A line that delivers exactly the bytes [bs], back to back, and is
    [after] from then on. *)
Definition feed (bs : list Z) (after : event) : port :=
  mkPort (map Rx bs) after.

Definition quiet (e : event) : bool :=
  match e with Rx _ => false | _ => true end.

End Line.
Import Line.

(** ** Message buffers *)

Definition buffer : Type := Z -> Z.

(** What [read] leaves in memory: [bs] copied to [buf + off]; with nothing
    to copy the buffer is as it was. *)
Definition store (buf : buffer) (off : Z) (bs : list Z) : buffer :=
  match bs with
  | [] => buf
  | _ =>
      fun i =>
        if (off <=? i) && (i <? off + Z.of_nat (length bs))
        then nth (Z.to_nat (i - off)) bs 0
        else buf i
  end.

(** The bytes at offsets [0 .. n-1]. *)
Definition contents (buf : buffer) (n : Z) : list Z :=
  map (fun i => buf (Z.of_nat i)) (seq 0 (Z.to_nat n)).

Definition blank : buffer := fun _ => 0.

(** The data members of a [SerialTxRx] object that the framing layer uses. *)
Record SerialTxRx : Type := mkSerial {
  hSerial : port;        (* the open line behind the descriptor *)
  paylenBuff : buffer;   (* unsigned char paylenBuff[2] *)
  payBuff : buffer;      (* unsigned char payBuff[MAXBUFFERSIZE] *)
  payloadLen : Z         (* unsigned int payloadLen *)
}.

(** ** Synchronisation: [synchOSPmsg] and [synchNMEAmsg]

    The two functions have the same text up to the pair of marker bytes
    (START1, START2 for OSP; LF, DOLAR for NMEA), so the loop is written once
    over the markers [m1], [m2].  States are the integers of the source:
    1 waits for the first marker, 2 for the second, 3 is synchronised. *)

(** The body of the [while]: the outcome of [read(hSerial, &inData, 1)] and
    the nested [switch]. *)
Definition synch_body (m1 m2 : Z) (nBytesRead : Z) (data : list Z)
    (state patience : Z) : Z * Z :=
  if nBytesRead =? 1 then
    let inData := hd 0 data in
    if state =? 1 then
      if inData =? m1 then (2, patience)
      else if inData =? m2 then (state, patience)
      else (state, patience - 1)
    else if state =? 2 then
      if inData =? m1 then (state, patience)
      else if inData =? m2 then (3, patience)
      else (1, patience - 1)
    else (state, patience)
  else (state, patience - 1).

(** [while (state != 3 && patience > 0)].  [fuel] bounds the number of
    iterations; [None] means the loop was still running when it ran out. *)
Fixpoint synch_loop (m1 m2 : Z) (fuel : nat) (state patience : Z) (p : port)
    : option (Z * Z * port) :=
  if negb (state =? 3) && (0 <? patience) then
    match fuel with
    | O => None
    | S fuel' =>
        let '(nBytesRead, data, p') := read p 1 in
        let '(state', patience') :=
          synch_body m1 m2 nBytesRead data state patience in
        synch_loop m1 m2 fuel' state' patience' p'
    end
  else Some (state, patience, p).

(** [return state == 3], with the line as the function leaves it. *)
Definition synch_result (r : option (Z * Z * port)) : option (bool * port) :=
  match r with
  | Some (state, _, p) => Some (state =? 3, p)
  | None => None
  end.

Definition synchOSPmsg (fuel : nat) (patience : Z) (p : port)
    : option (bool * port) :=
  synch_result (synch_loop START1 START2 fuel 1 patience p).

Definition synchNMEAmsg (fuel : nat) (patience : Z) (p : port)
    : option (bool * port) :=
  synch_result (synch_loop LF DOLAR fuel 1 patience p).

(** ** The OSP checksum

    The source computes it in line, once in [readOSPmsg] over
    [payBuff[0 .. payloadLen)] and once in [writeOSPcmd] over
    [payBuff[4 .. bufferIndex)]:
    [computedCheck = payBuff[first];
     for (i = first+1; i < last; i++)
       { computedCheck += payBuff[i]; computedCheck &= 0x7FFF; }] *)
Fixpoint sum15_loop (n : nat) (buf : buffer) (i : Z) (computedCheck : Z) : Z :=
  match n with
  | O => computedCheck
  | S n' =>
      sum15_loop n' buf (i + 1) (Z.land (u32 (computedCheck + buf i)) 0x7FFF)
  end.

Definition ospChecksum (buf : buffer) (first last : Z) : Z :=
  sum15_loop (Z.to_nat (last - (first + 1))) buf (first + 1) (buf first).

(** ** [readOSPmsg] *)

(** The [do ... while] that gathers the payload and its two checksum bytes.
    [nBytesStored] is an [ssize_t] and the comparison with the
    [unsigned int] [payloadLen+2] is made on 64-bit signed values.  The count
    moves by at most [payloadLen + 2] per read, so it stays an exact integer
    for any run of fewer than 2^63 reads; overflow of a signed integer is
    undefined and is not given a meaning here. *)
Fixpoint payload_loop (fuel : nat) (payloadLen nBytesStored : Z)
    (buf : buffer) (p : port) : option (Z * buffer * port) :=
  match fuel with
  | O => None
  | S fuel' =>
      let '(nBytesRead, data, p') :=
        read p (payloadLen + 2 - nBytesStored) in
      let buf' := store buf nBytesStored data in
      let nBytesStored' := nBytesStored + nBytesRead in
      if negb (nBytesRead =? 0) && (nBytesStored' <? payloadLen + 2)
      then payload_loop fuel' payloadLen nBytesStored' buf' p'
      else Some (nBytesStored', buf', p')
  end.

(** Everything after the two length bytes have been read and accepted. *)
Definition readOSPpayload (fuel : nat) (len : Z) (lenBuff : buffer)
    (o : SerialTxRx) (p : port) : option (Z * SerialTxRx) :=
  match payload_loop fuel len 0 (payBuff o) p with
  | None => None
  | Some (nBytesStored, buf, p') =>
      let o' := mkSerial p' lenBuff buf len in
      if nBytesStored <? len + 2 then Some (2, o')
      else
        let computedCheck := ospChecksum buf 0 len in
        let messageCheck :=
          Z.lor (Z.shiftl (buf len) 8) (buf (len + 1)) in
        if negb (computedCheck =? messageCheck) then Some (1, o')
        else Some (0, o')
  end.

(** The status returned and the object as the call leaves it. *)
Definition readOSPmsg (fuel : nat) (patience : Z) (o : SerialTxRx)
    : option (Z * SerialTxRx) :=
  match synchOSPmsg fuel patience (hSerial o) with
  | None => None
  | Some (false, p1) =>
      Some (6, mkSerial p1 (paylenBuff o) (payBuff o) (payloadLen o))
  | Some (true, p1) =>
      let '(nBytesRead, data, p2) := read p1 2 in
      let lenBuff := store (paylenBuff o) 0 data in
      if negb (nBytesRead =? 2)
      then Some (4, mkSerial p2 lenBuff (payBuff o) (payloadLen o))
      else
        let len := Z.lor (Z.shiftl (lenBuff 0) 8) (lenBuff 1) in
        if negb ((0 <? len) && (len <? MAXBUFFERSIZE - 1 - 2))
        then Some (3, mkSerial p2 lenBuff (payBuff o) len)
        else readOSPpayload fuel len lenBuff o p2
  end.

(** ** Text: characters, tokens and numbers

    A [std::string] or C string is the list of its bytes. *)

Definition bytes_of (s : string) : list Z :=
  map (fun a => Z.of_N (N_of_ascii a)) (list_ascii_of_string s).

(** [isspace] in the "C" locale: space, \t, \n, \v, \f, \r. *)
Definition isspace (c : Z) : bool :=
  (c =? 32) || ((9 <=? c) && (c <=? 13)).

(** [std::string::c_str] read as a C string: the bytes before the first
    NUL. *)
Fixpoint c_str (s : list Z) : list Z :=
  match s with
  | [] => []
  | c :: s' => if c =? 0 then [] else c :: c_str s'
  end.

(** [while (ss >> strBuf) tokens.push_back(strBuf)]: the maximal runs of
    characters that are not white space, in order.  [cur] is the token being
    read, last character first. *)
Fixpoint split_ws (cur : list Z) (s : list Z) : list (list Z) :=
  match s with
  | [] => match cur with [] => [] | _ => [rev cur] end
  | c :: s' =>
      if isspace c then
        match cur with
        | [] => split_ws [] s'
        | _ => rev cur :: split_ws [] s'
        end
      else split_ws (c :: cur) s'
  end.

Definition tokenize (cmdArgs : list Z) : list (list Z) := split_ws [] cmdArgs.

(** The value of a character as a digit, letters standing for 10 .. 35. *)
Definition digit_value (c : Z) : option Z :=
  if (48 <=? c) && (c <=? 57) then Some (c - 48)
  else if (97 <=? c) && (c <=? 122) then Some (c - 97 + 10)
  else if (65 <=? c) && (c <=? 90) then Some (c - 65 + 10)
  else None.

Definition digit_in (base c : Z) : option Z :=
  match digit_value c with
  | Some d => if d <? base then Some d else None
  | None => None
  end.

(** The longest run of digits of [base] at the start of [s]: its value and
    how many digits it has. *)
Fixpoint digits (base : Z) (s : list Z) (acc : Z) (n : nat) : Z * nat :=
  match s with
  | [] => (acc, n)
  | c :: s' =>
      match digit_in base c with
      | Some d => digits base s' (acc * base + d) (S n)
      | None => (acc, n)
      end
  end.

Fixpoint skip_space (s : list Z) : list Z :=
  match s with
  | c :: s' => if isspace c then skip_space s' else s
  | [] => []
  end.

(** An optional sign: whether it is a minus, and the rest. *)
Definition take_sign (s : list Z) : bool * list Z :=
  match s with
  | 45 :: s' => (true, s')
  | 43 :: s' => (false, s')
  | _ => (false, s)
  end.

Definition starts_0x (s : list Z) : bool :=
  match s with
  | 48 :: x :: _ => (x =? 120) || (x =? 88)
  | _ => false
  end.

Definition is_hex_digit (c : Z) : bool :=
  match digit_in 16 c with Some _ => true | None => false end.

(** ** [std::stoul(token, nullptr, base)]

    [strtoul] as the C library of the time of the source has it (no binary
    prefix), then the tests that [std::stoul] makes on its outcome.  A base
    that [strtoul] refuses leaves the end pointer that [stoul] tests
    unset. *)
Inductive stoul_result : Type :=
| Value (ul : Z)
| invalid_argument
| out_of_range
| base_refused.

Definition ULONG_MAX : Z := 2 ^ 64 - 1.

Definition stoul (str : list Z) (base : Z) : stoul_result :=
  if (base <? 0) || (base =? 1) || (36 <? base) then base_refused
  else
    let '(negative, s) := take_sign (skip_space (c_str str)) in
    let prefixed :=
      ((base =? 0) || (base =? 16)) && starts_0x s
      && is_hex_digit (nth 2 s 0) in
    let base' :=
      if negb (base =? 0) then base
      else if starts_0x s then 16
      else if hd 0 s =? 48 then 8 else 10 in
    let '(v, n) := digits base' (if prefixed then skipn 2 s else s) 0 0%nat in
    match n with
    | O => invalid_argument
    | S _ =>
        if ULONG_MAX <? v then out_of_range
        else Value (if negative then (- v) mod 2 ^ 64 else v)
    end.

(** The [for] over the tokens, which converts each one with [stoul] and
    stores [(unsigned char) (ul & 0xFF)] at [payBuff[bufferIndex++]]: the
    bytes it puts in the buffer from [bufferIndex] on.  The first token that [stoul]
    refuses ends the call; a byte that would go past the end of [payBuff] is
    an overrun. *)
Inductive filled : Type :=
| Filled (args : list Z)
| Raised (e : stoul_result)
| Overrun.

Fixpoint fill_args (tokens : list (list Z)) (base : Z) (bufferIndex : Z)
    : filled :=
  match tokens with
  | [] => Filled []
  | t :: ts =>
      match stoul t base with
      | Value ul =>
          if MAXBUFFERSIZE <=? bufferIndex then Overrun
          else
            match fill_args ts base (bufferIndex + 1) with
            | Filled args => Filled (Z.land ul 0xFF mod 256 :: args)
            | r => r
            end
      | e => Raised e
      end
  end.

(** ** The serial line, seen from [write] and [tcdrain] *)
Record outlet : Type := mkOutlet {
  write_ret : list Z -> Z;   (* what [write] returns when given these bytes *)
  tcdrain_ret : Z            (* what [tcdrain] returns *)
}.

(** A line that takes everything. *)
Definition sound_outlet : outlet :=
  mkOutlet (fun bs => Z.of_nat (length bs)) 0.

(** How a command writer ends: normally, the bytes of the buffer that were
    handed to [write]; or with the exception thrown.  [Unspecified] is an
    execution the language leaves undefined (a write past the end of
    [payBuff], an unset pointer). *)
Inductive failure : Type :=
| CommandTooLong (len : Z)   (* "Error OSP cmd too long = <len>" *)
| BadArgument                (* std::invalid_argument from stoul *)
| ArgumentRange              (* std::out_of_range from stoul *)
| DrainError                 (* "Error draining ..." *)
| SendError.                 (* "Error sending ..." *)

Inductive outcome : Type :=
| Sent (wire : list Z)
| Thrown (e : failure)
| Unspecified.

(** ** [writeOSPcmd] *)

(** [payBuff[0 .. bufferIndex)] when the frame is complete: the five bytes
    of the head, the argument bytes, the checksum of [payBuff[4 ..]] and the
    end sequence. *)
Definition osp_frame (buf0 : buffer) (mid : Z) (args : list Z) (len : Z)
    : list Z :=
  let head :=
    [START1; START2; Z.shiftr len 8 mod 256; Z.land len 0xFF mod 256;
     mid mod 256] in
  let buf := store buf0 0 (head ++ args) in
  let bufferIndex := Z.of_nat (length (head ++ args)) in
  let computedCheck := ospChecksum buf 4 bufferIndex in
  head ++ args
    ++ [Z.shiftr computedCheck 8 mod 256; Z.land computedCheck 0xFF mod 256;
        END1; END2].

(** [write], [tcdrain] and the two tests that follow them. *)
Definition transmit (tx : outlet) (frame : list Z) : outcome :=
  let nBytesWritten := write_ret tx frame in
  if tcdrain_ret tx =? -1 then Thrown DrainError
  else if negb (Z.of_nat (length frame) =? nBytesWritten)
       then Thrown SendError
       else Sent frame.

Definition writeOSPcmd (tx : outlet) (o : SerialTxRx)
    (mid : Z) (cmdArgs : list Z) (base : Z) : outcome :=
  let tokens := tokenize cmdArgs in
  let len := u32 (1 + Z.of_nat (length tokens)) in
  if MAXBUFFERSIZE <? u32 (2 + 2 + 1 + len + 2 + 2)
  then Thrown (CommandTooLong len)
  else
    match fill_args tokens base 5 with
    | Raised invalid_argument => Thrown BadArgument
    | Raised out_of_range => Thrown ArgumentRange
    | Raised _ => Unspecified
    | Overrun => Unspecified
    | Filled args =>
        let frame := osp_frame (payBuff o) mid args len in
        if negb (Z.of_nat (length frame) <=? MAXBUFFERSIZE) then Unspecified
        else transmit tx frame
    end.

(** ** The NMEA checksum

    In line in the source as well:
    [computedCheck = payBuff[first];
     for (i = first+1; i < last; i++) computedCheck ^= payBuff[i];] *)
Fixpoint xor_loop (n : nat) (buf : buffer) (i : Z) (computedCheck : Z) : Z :=
  match n with
  | O => computedCheck
  | S n' => xor_loop n' buf (i + 1) (Z.lxor computedCheck (buf i))
  end.

Definition nmeaChecksum (buf : buffer) (first last : Z) : Z :=
  xor_loop (Z.to_nat (last - (first + 1))) buf (first + 1) (buf first).

(** ** [readNMEAmsg] *)

(** [sscanf(field, "%x", &messageCheck)] on a C string: white space is
    skipped, a sign and a [0x] prefix are accepted, then hexadecimal digits
    are taken as far as they go.  [None] when nothing is converted, and the
    variable keeps its value. *)
Definition scan_hex (field : list Z) : option Z :=
  let '(negative, s) := take_sign (skip_space field) in
  let '(v, n) := digits 16 (if starts_0x s then 48 :: skipn 2 s else s) 0 0%nat in
  match n with
  | O => None
  | S _ => Some (u32 (if negative then - v else v))
  end.

(** The [while] that reads the line up to its Carriage Return.  It yields
    [returnValue], [payloadLen], the buffer and the line. *)
Fixpoint nmea_loop (fuel : nat) (payloadLen : Z) (buf : buffer) (p : port)
    : option (Z * Z * buffer * port) :=
  match fuel with
  | O => None
  | S fuel' =>
      let '(nBytesRead, data, p') := read p 1 in
      let buf1 := store buf payloadLen data in
      if nBytesRead =? 1 then
        if buf1 payloadLen =? CR then
          let buf2 := store buf1 payloadLen [0] in
          if payloadLen <? 5 then Some (2, payloadLen, buf2, p')
          else
            let payloadLen' := payloadLen - 3 in
            Some (0, payloadLen', store buf2 payloadLen' [0], p')
        else if payloadLen <? MAXBUFFERSIZE - 1
             then nmea_loop fuel' (payloadLen + 1) buf1 p'
             else Some (3, payloadLen, buf1, p')
      else Some (3, payloadLen, buf1, p')
  end.

Definition readNMEAmsg (fuel : nat) (patience : Z) (o : SerialTxRx)
    : option (Z * SerialTxRx) :=
  match synchNMEAmsg fuel patience (hSerial o) with
  | None => None
  | Some (false, p1) => Some (4, mkSerial p1 (paylenBuff o) (payBuff o) 0)
  | Some (true, p1) =>
      match nmea_loop fuel 0 (payBuff o) p1 with
      | None => None
      | Some (returnValue, len, buf, p2) =>
          let o' := mkSerial p2 (paylenBuff o) buf len in
          if returnValue =? 0 then
            let computedCheck := nmeaChecksum buf 0 len in
            (* the terminator written over the CR is at [len + 3] *)
            let field := c_str [buf (len + 1); buf (len + 2)] in
            let messageCheck :=
              match scan_hex field with Some v => v | None => 0 end in
            if negb (computedCheck =? messageCheck) then Some (1, o')
            else Some (returnValue, o')
          else Some (returnValue, o')
      end
  end.

(** ** [writeNMEAcmd] *)

(** The decimal digits of a number that is not negative. *)
Fixpoint dec_loop (fuel : nat) (n : Z) (acc : list Z) : list Z :=
  match fuel with
  | O => acc
  | S fuel' =>
      let acc' := (48 + n mod 10) :: acc in
      if n / 10 =? 0 then acc' else dec_loop fuel' (n / 10) acc'
  end.

(** [printf("%<width>d", v)] for an [int]: sign, digits, and spaces on the
    left up to the width. *)
Definition fmt_d (width : nat) (v : Z) : list Z :=
  let text := if v <? 0 then 45 :: dec_loop 10 (- v) [] else dec_loop 10 v [] in
  repeat 32 (width - length text) ++ text.

Definition hex_char (d : Z) : Z := if d <? 10 then 48 + d else 55 + d.

Fixpoint hex_loop (fuel : nat) (n : Z) (acc : list Z) : list Z :=
  match fuel with
  | O => acc
  | S fuel' =>
      let acc' := hex_char (n mod 16) :: acc in
      if n / 16 =? 0 then acc' else hex_loop fuel' (n / 16) acc'
  end.

(** [printf("%0<width>X", v)] for an [unsigned int]: capital hexadecimal
    digits, and zeros on the left up to the width. *)
Definition fmt_0X (width : nat) (v : Z) : list Z :=
  let text := hex_loop 8 v [] in
  repeat 48 (width - length text) ++ text.

(** [strncat(dest, src, n)]: at most [n] characters of the C string [src]
    after those of [dest]. *)
Definition strncat (dest src : list Z) (n : Z) : list Z :=
  dest ++ firstn (Z.to_nat n) (c_str src).

(** A string and its terminator must fit in [payBuff]. *)
Definition fits (s : list Z) : bool :=
  Z.of_nat (length s) + 1 <=? MAXBUFFERSIZE.

Definition writeNMEAcmd (tx : outlet) (o : SerialTxRx)
    (mid : Z) (cmdArgs : list Z) : outcome :=
  let header := bytes_of "$PSRF" ++ fmt_d 3 mid ++ bytes_of "," in
  let text := strncat header cmdArgs MAXBUFFERSIZE in
  if negb (fits text) then Unspecified
  else
    let buf := store (payBuff o) 0 text in
    let plLen := Z.of_nat (length text) in
    let computedCheck := nmeaChecksum buf 1 plLen in
    let checksumBuff :=
      bytes_of "*" ++ fmt_0X 2 computedCheck ++ [CR; LF] in
    let line := strncat text checksumBuff MAXBUFFERSIZE in
    if negb (fits line) then Unspecified
    else transmit tx line.

(** ** The specification's vocabulary

    The definitions of this section follow the words of the specification,
    not the source; the theorems compare the two. *)

(** Specification, data model: the states of the OSP synchronisation. *)
Inductive sync_state : Type := SeekStart | SeekSecondMarker | Synced.

Definition code (s : sync_state) : Z :=
  match s with SeekStart => 1 | SeekSecondMarker => 2 | Synced => 3 end.

(** Specification 4.2, step 1: the transition on one transport read, which
    gave the byte [Some b] or failed ([None]).  The specification gives no
    transition from [Synced]. *)
Definition osp_sync_spec (s : sync_state) (r : option Z) (patience : Z)
    : sync_state * Z :=
  match r, s with
  | None, _ => (s, patience - 1)
  | Some b, SeekStart =>
      if b =? START1 then (SeekSecondMarker, patience)
      else if b =? START2 then (SeekStart, patience)
      else (SeekStart, patience - 1)
  | Some b, SeekSecondMarker =>
      if b =? START2 then (Synced, patience)
      else if b =? START1 then (SeekSecondMarker, patience)
      else (SeekStart, patience - 1)
  | Some _, Synced => (Synced, patience)
  end.

Definition byte_of_event (e : event) : option Z :=
  match e with Rx b => Some b | _ => None end.

(** Specification 4.1: the running sum seeded with [payload[0]], masked to
    15 bits after each addition. *)
Definition checksum15 (payload : list Z) : Z :=
  match payload with
  | [] => 0
  | b :: rest => fold_left (fun acc x => Z.land (acc + x) 0x7FFF) rest b
  end.

(** Specification 4.1: the XOR of all the bytes, seeded with the first. *)
Definition xor_all (body : list Z) : Z :=
  match body with
  | [] => 0
  | b :: rest => fold_left Z.lxor rest b
  end.

(** Specification 6, OSP wire format: start bytes, big-endian length, the
    payload, big-endian checksum, end bytes. *)
Definition osp_wire (payload : list Z) (checksum : Z) : list Z :=
  let len := Z.of_nat (length payload) in
  [START1; START2; len / 256; len mod 256]
    ++ payload ++ [checksum / 256; checksum mod 256; END1; END2].

(** A byte stream holds a start sequence when START1 is immediately followed
    by START2 somewhere in it. *)
Fixpoint has_start (bs : list Z) : bool :=
  match bs with
  | a :: rest =>
      match rest with
      | b :: _ => ((a =? START1) && (b =? START2)) || has_start rest
      | [] => false
      end
  | [] => false
  end.

(** Argument bytes as command text: two capital hexadecimal digits each,
    followed by a blank. *)
Definition hex_args (bs : list Z) : list Z :=
  flat_map (fun b => fmt_0X 2 b ++ [32]) bs.

(** Specification 6, NMEA command format: a message id as a 3-character
    field, padded on the left with [pad]. *)
Definition field3 (pad : Z) (mid : Z) : list Z :=
  if mid <? 10 then [pad; pad; 48 + mid]
  else if mid <? 100 then [pad; 48 + mid / 10; 48 + mid mod 10]
  else [48 + mid / 100; 48 + mid / 10 mod 10; 48 + mid mod 10].

Definition hex2 (v : Z) : list Z := [hex_char (v / 16); hex_char (v mod 16)].

(** [$PSRF<ddd>,<args>*<HH>\r\n], the checksum over everything after [$]. *)
Definition nmea_command (pad : Z) (mid : Z) (args : list Z) : list Z :=
  let covered := bytes_of "PSRF" ++ field3 pad mid ++ bytes_of "," ++ args in
  bytes_of "$" ++ covered ++ bytes_of "*" ++ hex2 (xor_all covered) ++ [CR; LF].

(** The object [o] attached to the line [p]. *)
Definition on_line (o : SerialTxRx) (p : port) : SerialTxRx :=
  mkSerial p (paylenBuff o) (payBuff o) (payloadLen o).

(** An object whose buffers hold nothing yet, attached to the line [p]. *)
Definition fresh (p : port) : SerialTxRx := mkSerial p blank blank 0.

(** A line on which the device repeats the byte [b] without end. *)
Definition stuck_on (b : Z) : port := mkPort [] (Rx b).

(** A line of MAXBUFFERSIZE characters for examples: 2049 times [A], a NUL,
    and the two digits [41]. *)
Definition long_line : list Z := repeat 65 2049 ++ [0; 52; 49].

(** The plain sum of a list of bytes. *)
Definition sumZ (l : list Z) : Z := fold_right Z.add 0 l.

(** Decidable tests used to settle facts about all 256 bytes by
    evaluation. *)
Definition list_eqb (a b : list Z) : bool :=
  if list_eq_dec Z.eq_dec a b then true else false.

Definition no_space (t : list Z) : bool :=
  forallb (fun c => negb (isspace c)) t.

Definition stoul_gives (t : list Z) (base v : Z) : bool :=
  match stoul t base with Value ul => ul =? v | _ => false end.

Definition scan_hex_gives (field : list Z) (v : Z) : bool :=
  match scan_hex (c_str field) with Some w => w =? v | None => false end.

(** ** Baud rates: [CBRrate], [addCBRrate], [getCBRrate], [getBaudRate]

    The list [CBRrateLst] pairs each baud rate with the identifier that
    [termios.h] gives it (the macros B50 .. B230400).  The macros belong to
    the system, so the identifier of a rate is a parameter [B] here. *)
Record CBRrate : Type := mkCBRrate { baudR : Z; DCBbaud : Z }.

(** [CBRrateLst.emplace_front(CBRrate(rate, CBRrt))] *)
Definition addCBRrate (CBRrateLst : list CBRrate) (rate CBRrt : Z)
    : list CBRrate :=
  mkCBRrate rate CBRrt :: CBRrateLst.

(** The rates that the constructor adds, in the order of its calls. *)
Definition constructor_rates : list Z :=
  [50; 75; 110; 134; 150; 200; 300; 600; 1200; 1800; 2400; 4800; 9600;
   19200; 38400; 57600; 115200; 230400].

(** [CBRrateLst] as the constructor leaves it. *)
Definition constructed (B : Z -> Z) : list CBRrate :=
  fold_left (fun lst rate => addCBRrate lst rate (B rate)) constructor_rates [].

(** A call that returns a value or throws a message. *)
Inductive result (A : Type) : Type :=
| Returns (a : A)
| Throws (msg : string).
Arguments Returns {A} a.
Arguments Throws {A} msg.

Definition MSG_UnkBaudR : string := "Unknown baud rate".

(** The [for] over the list: the first element with the rate asked for. *)
Fixpoint getCBRrate (CBRrateLst : list CBRrate) (rate : Z) : result Z :=
  match CBRrateLst with
  | [] => Throws MSG_UnkBaudR
  | it :: rest =>
      if baudR it =? rate then Returns (DCBbaud it) else getCBRrate rest rate
  end.

Fixpoint getBaudRate (CBRrateLst : list CBRrate) (r : Z) : result Z :=
  match CBRrateLst with
  | [] => Throws MSG_UnkBaudR
  | it :: rest =>
      if DCBbaud it =? r then Returns (baudR it) else getBaudRate rest r
  end.

(** The identifiers of the rates in Linux's [termbits.h], for examples. *)
Definition linux_B (rate : Z) : Z :=
  match rate with
  | 50 => 1 | 75 => 2 | 110 => 3 | 134 => 4 | 150 => 5 | 200 => 6
  | 300 => 7 | 600 => 8 | 1200 => 9 | 1800 => 10 | 2400 => 11
  | 4800 => 12 | 9600 => 13 | 19200 => 14 | 38400 => 15
  | 57600 => 4097 | 115200 => 4098 | 230400 => 4099
  | _ => 0
  end.

(** ** Vocabulary of the further properties *)

(** An event that costs [synchOSPmsg] no patience: one of the two marker
    bytes. *)
Definition marker (e : event) : bool :=
  match e with
  | Rx b => (b =? START1) || (b =? START2)
  | _ => false
  end.

(** The bytes that a run of events delivers, pauses and failed reads left
    out. *)
Definition bytes_on (q : list event) : list Z :=
  flat_map (fun e => match e with Rx b => [b] | _ => [] end) q.

(** The number of events that are not marker bytes. *)
Definition costly (q : list event) : Z :=
  Z.of_nat (length (filter (fun e => negb (marker e)) q)).

(** What state 2 remembers: a START1 has just been read. *)
Definition pending (state : Z) : list Z :=
  if state =? 2 then [START1] else [].

(** [m1] immediately followed by [m2] somewhere in the bytes. *)
Fixpoint has_pair (m1 m2 : Z) (bs : list Z) : bool :=
  match bs with
  | a :: rest =>
      match rest with
      | b :: _ => ((a =? m1) && (b =? m2)) || has_pair m1 m2 rest
      | [] => false
      end
  | [] => false
  end.

(** The number of bytes that are neither of the two markers. *)
Definition junk (m1 m2 : Z) (bs : list Z) : Z :=
  Z.of_nat (length (filter (fun b => negb ((b =? m1) || (b =? m2))) bs)).

(** Bytes that arrive in several pieces: a pause stands between two pieces,
    so that no read returns bytes of more than one piece. *)
Fixpoint pieces (chunks : list (list Z)) : list event :=
  match chunks with
  | [] => []
  | c :: rest =>
      match rest with
      | [] => map Rx c
      | _ => map Rx c ++ Gap :: pieces rest
      end
  end.

(** A line on which no read ever fails. *)
Definition not_err (e : event) : bool :=
  match e with Err => false | _ => true end.

Definition no_err (p : port) : bool :=
  forallb not_err (queue p) && not_err (idle p).

(** The XOR of a list of bytes. *)
Definition xorZ (l : list Z) : Z := fold_right Z.lxor 0 l.

(** What [readNMEAmsg] takes as the checksum announced by the two characters
    that precede the Carriage Return. *)
Definition announced (h1 h2 : Z) : Z :=
  match scan_hex (c_str [h1; h2]) with Some v => v | None => 0 end.

(** Two outcomes of a loop that differ only in how the patience left is
    written. *)
Ltac same_patience :=
  match goal with
  | |- Some (_, ?a, _) = Some (_, ?b, _) => replace a with b by lia; reflexivity
  end.

(** * Properties *)

(** ** Reading from the line *)

Lemma read_one (p : port) :
  read p 1 =
    match next p with
    | (Rx b, p') => (1, [b], p')
    | (Gap, p') => (0, [], p')
    | (Err, p') => (-1, [], p')
    end.
Proof.
  unfold read; simpl. destruct (next p) as [[b| |] p']; reflexivity.
Qed.

Lemma next_feed_cons (b : Z) (q : list event) (i : event) :
  next (mkPort (Rx b :: q) i) = (Rx b, mkPort q i).
Proof. reflexivity. Qed.

Lemma next_idle (i : event) : next (mkPort [] i) = (i, mkPort [] i).
Proof. reflexivity. Qed.

(** ** The synchronisation loop *)

Section Synchronisation.

(** The facts that hold for any pair of markers. *)
Variables m1 m2 : Z.

Lemma synch_loop_exit (fuel : nat) (state patience : Z) (p : port) :
  state = 3 \/ patience <= 0 ->
  synch_loop m1 m2 fuel state patience p = Some (state, patience, p).
Proof.
  intros H.
  assert (E : negb (state =? 3) && (0 <? patience) = false).
  { destruct H as [-> | H]; [reflexivity |].
    apply andb_false_iff; right. apply Z.ltb_ge; exact H. }
  destruct fuel; simpl; rewrite E; reflexivity.
Qed.

Lemma synch_loop_step (fuel : nat) (state patience : Z) (p : port) :
  state <> 3 -> 0 < patience ->
  synch_loop m1 m2 (S fuel) state patience p =
    let '(nBytesRead, data, p') := read p 1 in
    let '(state', patience') :=
      synch_body m1 m2 nBytesRead data state patience in
    synch_loop m1 m2 fuel state' patience' p'.
Proof.
  intros Hs Hp. simpl.
  apply Z.eqb_neq in Hs. apply Z.ltb_lt in Hp. rewrite Hs, Hp. reflexivity.
Qed.

Lemma synch_loop_final (fuel : nat) :
  forall state patience p st pat p',
    synch_loop m1 m2 fuel state patience p = Some (st, pat, p') ->
    (st = 3 \/ pat <= 0) /\ (0 <= patience -> 0 <= pat).
Proof.
  induction fuel as [| fuel IH]; intros state patience p st pat p' H.
  - simpl in H.
    destruct (negb (state =? 3) && (0 <? patience)) eqn:E; [discriminate |].
    injection H as <- <- <-. split; [| auto].
    apply andb_false_iff in E. destruct E as [E | E].
    + left. apply negb_false_iff, Z.eqb_eq in E. exact E.
    + right. apply Z.ltb_ge. exact E.
  - simpl in H.
    destruct (negb (state =? 3) && (0 <? patience)) eqn:E.
    + apply andb_true_iff in E. destruct E as [_ E]. apply Z.ltb_lt in E.
      destruct (read p 1) as [[n data] q].
      destruct (synch_body m1 m2 n data state patience) as [s1 pat1] eqn:B.
      apply IH in H. destruct H as [H1 H2]. split; [exact H1 |].
      intros _. apply H2.
      unfold synch_body in B.
      repeat match type of B with
             | (if ?c then _ else _) = _ => destruct c
             end; injection B as <- <-; lia.
    + injection H as <- <- <-. split; [| auto].
      apply andb_false_iff in E. destruct E as [E | E].
      * left. apply negb_false_iff, Z.eqb_eq in E. exact E.
      * right. apply Z.ltb_ge. exact E.
Qed.

(** On a line that has gone quiet every read costs one unit, so the loop
    ends after as many reads as there is patience. *)
Lemma synch_quiet (i : event) (state : Z) :
  quiet i = true -> state <> 3 ->
  forall (fuel : nat) (patience : Z),
    0 <= patience -> (Z.to_nat patience <= fuel)%nat ->
    synch_loop m1 m2 fuel state patience (mkPort [] i)
      = Some (state, 0, mkPort [] i).
Proof.
  intros Hq Hs. induction fuel as [| fuel IH]; intros patience H0 Hf.
  - assert (patience = 0) by lia. subst. apply synch_loop_exit. right; lia.
  - destruct (Z.eq_dec patience 0) as [-> | Hne].
    + apply synch_loop_exit. right; lia.
    + rewrite synch_loop_step by lia. rewrite read_one, next_idle.
      destruct i as [b | |]; try discriminate;
        unfold synch_body; simpl; apply IH; lia.
Qed.

End Synchronisation.

(** C3.  The synchronisation loop of [synchOSPmsg] is the automaton of the
    specification.  In [Synced], or with no patience left, the loop ends
    without reading.  Otherwise it makes one transport read and goes on from
    the state and patience that the specified transition gives: START1 moves
    [SeekStart] to [SeekSecondMarker], START2 moves [SeekSecondMarker] to
    [Synced], a marker in the wrong place keeps the state, and none of these
    costs patience; any other byte leads to [SeekStart] and costs one unit;
    a failed or empty read keeps the state and costs one unit.  A loop that
    ends has reached state 3 or has no patience left, and a budget that was
    not negative ends at exactly 0 when the loop ends unsynchronised. *)
Theorem C3_osp_sync_automaton :
  forall (s : sync_state) (patience : Z) (p : port) (fuel : nat),
    (s = Synced \/ patience <= 0 ->
     synch_loop START1 START2 fuel (code s) patience p
       = Some (code s, patience, p))
    /\ (s <> Synced -> 0 < patience ->
        synch_loop START1 START2 0 (code s) patience p = None
        /\ synch_loop START1 START2 (S fuel) (code s) patience p =
             let '(e, p') := next p in
             let '(s', patience') :=
               osp_sync_spec s (byte_of_event e) patience in
             synch_loop START1 START2 fuel (code s') patience' p')
    /\ (forall st pat p',
          synch_loop START1 START2 fuel (code s) patience p
            = Some (st, pat, p') ->
          (st = code Synced \/ pat <= 0)
          /\ (0 <= patience -> st <> code Synced -> pat = 0)).
Proof.
  intros s patience p fuel. split; [| split].
  - intros H. apply synch_loop_exit.
    destruct H as [-> | H]; [left; reflexivity | right; exact H].
  - intros Hs Hp. split.
    + simpl. apply Z.ltb_lt in Hp. rewrite Hp.
      destruct s; try reflexivity. contradiction.
    + rewrite synch_loop_step; [| destruct s; simpl; congruence | exact Hp].
      rewrite read_one.
      destruct (next p) as [[b | |] p']; simpl byte_of_event;
        destruct s; try contradiction; unfold synch_body, osp_sync_spec;
        simpl; try reflexivity.
      * destruct (b =? START1) eqn:E1; [reflexivity |].
        destruct (b =? START2); reflexivity.
      * destruct (b =? START2) eqn:E2.
        -- apply Z.eqb_eq in E2. subst b. reflexivity.
        -- destruct (b =? START1); reflexivity.
  - intros st pat p' H. apply synch_loop_final in H. destruct H as [H1 H2].
    split; [exact H1 |]. intros H0 Hst.
    destruct H1 as [H1 | H1]; [contradiction |]. specialize (H2 H0). lia.
Qed.

Lemma C3_osp_sync_automaton_witness :
  synch_loop START1 START2 0 (code Synced) 5 (feed [7] Gap)
    = Some (code Synced, 5, feed [7] Gap)
  /\ synch_loop START1 START2 1 (code SeekStart) 5 (feed [START1] Gap)
     = synch_loop START1 START2 0 (code SeekSecondMarker) 5 (feed [] Gap)
  /\ (3 = code Synced \/ 5 <= 0).
Proof.
  split; [| split].
  - destruct (C3_osp_sync_automaton Synced 5 (feed [7] Gap) 0) as [H _].
    apply H. left. reflexivity.
  - destruct (C3_osp_sync_automaton SeekStart 5 (feed [START1] Gap) 0)
      as [_ [H _]].
    destruct H as [_ H]; [discriminate | lia |]. exact H.
  - destruct (C3_osp_sync_automaton SeekStart 5
                (feed [START1; START2] Gap) 2) as [_ [_ H]].
    destruct (H 3 5 (feed [] Gap)) as [H1 _]; [reflexivity | exact H1].
Defined.

(** Bytes without a start sequence never lead to state 3; when they are
    used up the quiet line spends what is left of the patience. *)
Lemma synch_no_start (i : event) :
  quiet i = true ->
  forall (bs : list Z) (fuel : nat) (state patience : Z),
    state = 1 \/ (state = 2 /\ hd 0 bs <> START2) ->
    has_start bs = false ->
    0 <= patience -> (length bs + Z.to_nat patience <= fuel)%nat ->
    exists st p',
      synch_loop START1 START2 fuel state patience (feed bs i)
        = Some (st, 0, p') /\ st <> 3.
Proof.
  intros Hq. induction bs as [| b bs IH]; intros fuel state patience Hst Hns H0 Hf.
  - exists state, (mkPort [] i). split.
    + apply synch_quiet; try assumption; simpl in Hf; lia.
    + destruct Hst as [-> | [-> _]]; discriminate.
  - destruct (Z.eq_dec patience 0) as [-> | Hne].
    { exists state, (feed (b :: bs) i). split.
      - apply synch_loop_exit. right; lia.
      - destruct Hst as [-> | [-> _]]; discriminate. }
    destruct fuel as [| fuel]; [simpl in Hf; lia |].
    assert (Hns' : has_start bs = false).
    { simpl in Hns. destruct bs; [reflexivity |].
      apply orb_false_iff in Hns. apply Hns. }
    assert (Hnext : b = START1 -> hd 0 bs <> START2).
    { intros -> E. simpl in Hns. destruct bs as [| c bs]; [discriminate |].
      simpl in E. subst c. discriminate. }
    rewrite synch_loop_step;
      [| destruct Hst as [-> | [-> _]]; discriminate | lia].
    rewrite read_one. unfold feed. simpl map. rewrite next_feed_cons.
    unfold synch_body. simpl hd. simpl in Hf.
    destruct Hst as [-> | [-> Hhd]]; simpl.
    + destruct (b =? START1) eqn:E1.
      * apply Z.eqb_eq in E1. apply (IH fuel 2 patience); auto; lia.
      * destruct (b =? START2) eqn:E2.
        -- apply (IH fuel 1 patience); auto; lia.
        -- apply (IH fuel 1 (patience - 1)); auto; lia.
    + destruct (b =? START1) eqn:E1.
      * apply Z.eqb_eq in E1. apply (IH fuel 2 patience); auto; lia.
      * destruct (b =? START2) eqn:E2.
        -- apply Z.eqb_eq in E2. simpl in Hhd. contradiction.
        -- apply (IH fuel 1 (patience - 1)); auto; lia.
Qed.

(** A device that repeats one marker byte spends no patience at all. *)
Lemma synch_stuck_on_marker (b : Z) :
  b = START1 \/ b = START2 ->
  forall (fuel : nat) (state patience : Z),
    state = 1 \/ (state = 2 /\ b = START1) -> 0 < patience ->
    synch_loop START1 START2 fuel state patience (stuck_on b) = None.
Proof.
  intros Hb. induction fuel as [| fuel IH]; intros state patience Hst Hp.
  - simpl. apply Z.ltb_lt in Hp. rewrite Hp.
    destruct Hst as [-> | [-> _]]; reflexivity.
  - rewrite synch_loop_step;
      [| destruct Hst as [-> | [-> _]]; discriminate | exact Hp].
    rewrite read_one. unfold stuck_on. rewrite next_idle.
    fold (stuck_on b). unfold synch_body.
    destruct Hst as [-> | [-> ->]]; [destruct Hb as [-> | ->] |]; simpl;
      apply IH; auto.
Qed.

(** C2.  The claim asks that [readOSPmsg] with a patience of 10, on any
    stream without a start sequence, streams of only START2 bytes or only
    START1 bytes included, returns status 6 after at most 10 units and never
    blocks; the comment of [synchOSPmsg] says the same of its parameter,
    the maximum number of bytes to skip before returning false.  The code
    does not do this: a START2 read in state 1 and a START1 read in either
    state cost no patience, so on a line where the device repeats START2
    without end the call never returns, whatever the number of reads it is
    given, and the same holds for START1. *)
Theorem C2_unending_markers_never_time_out :
  ~ (exists fuel r, readOSPmsg fuel 10 (fresh (stuck_on START2)) = Some r)
  /\ ~ (exists fuel r, readOSPmsg fuel 10 (fresh (stuck_on START1)) = Some r).
Proof.
  split; intros (fuel & r & H); unfold readOSPmsg, synchOSPmsg in H;
    simpl hSerial in H.
  - rewrite (synch_stuck_on_marker START2) in H; auto; try lia. discriminate.
  - rewrite (synch_stuck_on_marker START1) in H; auto; try lia. discriminate.
Qed.

(** ** Bytes and 16-bit big-endian fields *)

Lemma land_shiftl8_byte (hi lo : Z) :
  0 <= lo < 256 -> Z.land (Z.shiftl hi 8) lo = 0.
Proof.
  intros Hlo. apply Z.bits_inj'. intros n Hn.
  rewrite Z.land_spec, Z.bits_0.
  destruct (Z.lt_ge_cases n 8) as [Hlt | Hge].
  - rewrite Z.shiftl_spec_low by lia. reflexivity.
  - replace lo with (lo mod 2 ^ 8) by (apply Z.mod_small; simpl; lia).
    rewrite Z.mod_pow2_bits_high by lia. apply andb_false_r.
Qed.

(** [(hi << 8) | lo] is the big-endian value of the two bytes. *)
Lemma be16_value (hi lo : Z) :
  0 <= lo < 256 -> Z.lor (Z.shiftl hi 8) lo = 256 * hi + lo.
Proof.
  intros Hlo.
  pose proof (Z.add_lor_land (Z.shiftl hi 8) lo) as H.
  rewrite land_shiftl8_byte in H by exact Hlo.
  assert (E : Z.shiftl hi 8 = hi * 256)
    by (rewrite Z.shiftl_mul_pow2 by lia; reflexivity).
  rewrite E in H |- *. lia.
Qed.

Lemma hi_byte (v : Z) : 0 <= v < 65536 -> Z.shiftr v 8 mod 256 = v / 256.
Proof.
  intros H. rewrite Z.shiftr_div_pow2 by lia. change (2 ^ 8) with 256.
  apply Z.mod_small. split.
  - apply Z.div_pos; lia.
  - apply Z.div_lt_upper_bound; lia.
Qed.

Lemma lo_byte (v : Z) : Z.land v 0xFF mod 256 = v mod 256.
Proof.
  change 0xFF with (Z.ones 8). rewrite Z.land_ones by lia.
  change (2 ^ 8) with 256. apply Z.mod_mod. lia.
Qed.

Lemma be16_round_trip (v : Z) :
  0 <= v < 65536 -> Z.lor (Z.shiftl (v / 256) 8) (v mod 256) = v.
Proof.
  intros H. rewrite be16_value by (apply Z.mod_pos_bound; lia).
  symmetry. apply Z.div_mod. lia.
Qed.

(** ** Reading a run of bytes *)

Lemma more_feed (bs : list Z) (q : list event) (i : event) :
  more (length bs) (mkPort (map Rx bs ++ q) i) = (bs, mkPort q i).
Proof.
  induction bs as [| b bs IH]; [reflexivity |].
  simpl. unfold next. simpl. rewrite IH. reflexivity.
Qed.

(** A read of exactly as many bytes as stand at the head of the queue takes
    them all in one call. *)
Lemma read_feed (b : Z) (bs : list Z) (q : list event) (i : event) :
  read (mkPort (map Rx (b :: bs) ++ q) i) (Z.of_nat (length (b :: bs)))
    = (Z.of_nat (length (b :: bs)), b :: bs, mkPort q i).
Proof.
  unfold read.
  replace (Z.of_nat (length (b :: bs)) <=? 0) with false
    by (symmetry; apply Z.leb_gt; simpl length; lia).
  simpl map. simpl app. rewrite next_feed_cons.
  replace (Z.to_nat (Z.of_nat (length (b :: bs))) - 1)%nat with (length bs)
    by (rewrite Nat2Z.id; simpl; lia).
  rewrite more_feed. f_equal. f_equal. simpl length. lia.
Qed.

(** ** Buffers *)

Lemma store_cons (buf : buffer) (off : Z) (bs : list Z) (i : Z) :
  bs <> [] ->
  store buf off bs i =
    if (off <=? i) && (i <? off + Z.of_nat (length bs))
    then nth (Z.to_nat (i - off)) bs 0
    else buf i.
Proof. destruct bs; [congruence | reflexivity]. Qed.

Lemma store_inside (buf : buffer) (off : Z) (bs : list Z) (k : nat) :
  (k < length bs)%nat -> store buf off bs (off + Z.of_nat k) = nth k bs 0.
Proof.
  intros Hk. rewrite store_cons by (destruct bs; [simpl in Hk; lia | congruence]).
  replace (off <=? off + Z.of_nat k) with true by (symmetry; apply Z.leb_le; lia).
  replace (off + Z.of_nat k <? off + Z.of_nat (length bs)) with true
    by (symmetry; apply Z.ltb_lt; lia).
  simpl. f_equal. lia.
Qed.

Lemma store_outside (buf : buffer) (off : Z) (bs : list Z) (i : Z) :
  i < off \/ off + Z.of_nat (length bs) <= i -> store buf off bs i = buf i.
Proof.
  intros H. destruct bs as [| b bs]; [reflexivity |].
  rewrite store_cons by congruence.
  destruct (off <=? i) eqn:E1; [| reflexivity].
  destruct (i <? off + Z.of_nat (length (b :: bs))) eqn:E2; [| reflexivity].
  apply Z.leb_le in E1. apply Z.ltb_lt in E2. lia.
Qed.

Lemma store_nil (buf : buffer) (off : Z) : store buf off [] = buf.
Proof. reflexivity. Qed.

Lemma store_at_0 (buf : buffer) (bs : list Z) (k : nat) :
  (k < length bs)%nat -> store buf 0 bs (Z.of_nat k) = nth k bs 0.
Proof. intros Hk. apply (store_inside buf 0 bs k Hk). Qed.

Lemma map_nth_seq (l : list Z) :
  map (fun i => nth i l 0) (seq 0 (length l)) = l.
Proof.
  induction l as [| x l IH]; [reflexivity |].
  simpl. f_equal. rewrite <- seq_shift, map_map. exact IH.
Qed.

Lemma contents_prefix (buf : buffer) (l rest : list Z) :
  contents (store buf 0 (l ++ rest)) (Z.of_nat (length l)) = l.
Proof.
  unfold contents. rewrite Nat2Z.id.
  transitivity (map (fun i => nth i l 0) (seq 0 (length l)));
    [| apply map_nth_seq].
  apply map_ext_in. intros i Hi. apply in_seq in Hi.
  rewrite store_at_0 by (rewrite length_app; lia).
  apply app_nth1. lia.
Qed.

(** ** [readOSPmsg]: the length gate and the payload loop *)

Lemma readOSPpayload_status (fuel : nat) (len : Z) (lenBuff : buffer)
    (o : SerialTxRx) (p : port) (s : Z) (o' : SerialTxRx) :
  readOSPpayload fuel len lenBuff o p = Some (s, o') ->
  s = 0 \/ s = 1 \/ s = 2.
Proof.
  unfold readOSPpayload.
  destruct (payload_loop fuel len 0 (payBuff o) p) as [[[n buf] p'] |];
    [| discriminate].
  destruct (n <? len + 2); [intros H; injection H as <- _; auto |].
  destruct (negb _); intros H; injection H as <- _; auto.
Qed.

Lemma readOSPmsg_status (fuel : nat) (patience : Z) (o : SerialTxRx)
    (s : Z) (o' : SerialTxRx) :
  readOSPmsg fuel patience o = Some (s, o') ->
  s = 0 \/ s = 1 \/ s = 2 \/ s = 3 \/ s = 4 \/ s = 6.
Proof.
  unfold readOSPmsg.
  destruct (synchOSPmsg fuel patience (hSerial o)) as [[[|] p1] |];
    [| intros H; injection H as <- _; auto 10 | discriminate].
  destruct (read p1 2) as [[n data] p2].
  destruct (negb (n =? 2)); [intros H; injection H as <- _; auto 10 |].
  destruct (negb _); [intros H; injection H as <- _; auto 10 |].
  intros H. apply readOSPpayload_status in H. intuition.
Qed.

(** What [readOSPmsg] does once synchronised and given two length bytes. *)
Lemma readOSPmsg_after_length (fuel : nat) (patience : Z) (o : SerialTxRx)
    (p1 p2 : port) (hi lo : Z) :
  synchOSPmsg fuel patience (hSerial o) = Some (true, p1) ->
  read p1 2 = (2, [hi; lo], p2) ->
  is_byte lo ->
  readOSPmsg fuel patience o =
    let len := 256 * hi + lo in
    let lenBuff := store (paylenBuff o) 0 [hi; lo] in
    if (0 <? len) && (len <? MAXBUFFERSIZE - 3)
    then readOSPpayload fuel len lenBuff o p2
    else Some (3, mkSerial p2 lenBuff (payBuff o) len).
Proof.
  intros Hs Hr Hlo. unfold readOSPmsg. rewrite Hs, Hr.
  change (negb (2 =? 2)) with false. cbv iota.
  change (store (paylenBuff o) 0 [hi; lo] 0) with hi.
  change (store (paylenBuff o) 0 [hi; lo] 1) with lo.
  rewrite be16_value by exact Hlo.
  change (MAXBUFFERSIZE - 1 - 2) with (MAXBUFFERSIZE - 3). cbv zeta.
  destruct ((0 <? 256 * hi + lo) && (256 * hi + lo <? MAXBUFFERSIZE - 3));
    reflexivity.
Qed.

(** C5.  Once synchronised and given its two length bytes, [readOSPmsg]
    returns status 3 exactly when the big-endian length they declare is 0 or
    at least MAXBUFFERSIZE - 3, and then the line is left as the length read
    left it and [payBuff] is untouched: no payload read is attempted.  A
    declared length strictly between 0 and MAXBUFFERSIZE - 3 goes on to the
    payload read, whose status is never 3. *)
Theorem C5_declared_length_gate :
  forall (fuel : nat) (patience : Z) (o : SerialTxRx) (p1 p2 : port)
         (hi lo : Z),
    synchOSPmsg fuel patience (hSerial o) = Some (true, p1) ->
    read p1 2 = (2, [hi; lo], p2) ->
    is_byte hi -> is_byte lo ->
    let len := 256 * hi + lo in
    let lenBuff := store (paylenBuff o) 0 [hi; lo] in
    (len = 0 \/ MAXBUFFERSIZE - 3 <= len ->
     readOSPmsg fuel patience o
       = Some (3, mkSerial p2 lenBuff (payBuff o) len))
    /\ (0 < len < MAXBUFFERSIZE - 3 ->
        readOSPmsg fuel patience o = readOSPpayload fuel len lenBuff o p2
        /\ forall s o', readOSPmsg fuel patience o = Some (s, o') -> s <> 3).
Proof.
  intros fuel patience o p1 p2 hi lo Hs Hr Hhi Hlo len lenBuff.
  pose proof (readOSPmsg_after_length fuel patience o p1 p2 hi lo Hs Hr Hlo)
    as E.
  cbv zeta in E. fold len in E. fold lenBuff in E. split.
  - intros H. rewrite E.
    replace ((0 <? len) && (len <? MAXBUFFERSIZE - 3)) with false;
      [reflexivity |].
    symmetry. apply andb_false_iff.
    destruct H as [H | H]; [left; apply Z.ltb_ge; lia | right; apply Z.ltb_ge; lia].
  - intros [H1 H2].
    assert (E' : readOSPmsg fuel patience o
                 = readOSPpayload fuel len lenBuff o p2).
    { rewrite E.
      replace ((0 <? len) && (len <? MAXBUFFERSIZE - 3)) with true;
        [reflexivity |].
      symmetry. apply andb_true_iff. split; apply Z.ltb_lt; assumption. }
    split; [exact E' |].
    intros s o' H. rewrite E' in H. apply readOSPpayload_status in H. lia.
Qed.

Lemma C5_declared_length_gate_witness :
  readOSPmsg 2 1 (fresh (feed [START1; START2; 8; 4; 7] Gap))
    = Some (3, mkSerial (feed [7] Gap) (store blank 0 [8; 4]) blank
                 MAXBUFFERSIZE)
  /\ readOSPmsg 2 1 (fresh (feed [START1; START2; 0; 1; 7] Gap))
     = readOSPpayload 2 1 (store blank 0 [0; 1])
         (fresh (feed [START1; START2; 0; 1; 7] Gap)) (feed [7] Gap).
Proof.
  split.
  - apply (C5_declared_length_gate 2 1
             (fresh (feed [START1; START2; 8; 4; 7] Gap))
             (feed [8; 4; 7] Gap) (feed [7] Gap) 8 4).
    + reflexivity.
    + reflexivity.
    + unfold is_byte; lia.
    + unfold is_byte; lia.
    + right. unfold MAXBUFFERSIZE. lia.
  - apply (C5_declared_length_gate 2 1
             (fresh (feed [START1; START2; 0; 1; 7] Gap))
             (feed [0; 1; 7] Gap) (feed [7] Gap) 0 1).
    + reflexivity.
    + reflexivity.
    + unfold is_byte; lia.
    + unfold is_byte; lia.
    + unfold MAXBUFFERSIZE. lia.
Defined.

Lemma payload_loop_step (fuel : nat) (len stored : Z) (buf : buffer)
    (p p' : port) (n : Z) (data : list Z) :
  read p (len + 2 - stored) = (n, data, p') ->
  payload_loop (S fuel) len stored buf p =
    if (n =? 0) || (len + 2 <=? stored + n)
    then Some (stored + n, store buf stored data, p')
    else payload_loop fuel len (stored + n) (store buf stored data) p'.
Proof.
  intros Hr. simpl. rewrite Hr.
  rewrite Z.leb_antisym.
  destruct (n =? 0); simpl; [reflexivity |].
  destruct (stored + n <? len + 2); reflexivity.
Qed.

Lemma read_broken (count : Z) :
  0 < count -> read (mkPort [] Err) count = (-1, [], mkPort [] Err).
Proof.
  intros H. unfold read. apply Z.leb_gt in H. rewrite H. reflexivity.
Qed.

(** On a line where every read fails the count of stored bytes only goes
    down, and the loop is still running whatever the number of iterations
    allowed. *)
Lemma payload_loop_broken (len : Z) (buf : buffer) :
  0 <= len ->
  forall (fuel : nat) (stored : Z),
    stored <= 0 -> payload_loop fuel len stored buf (mkPort [] Err) = None.
Proof.
  intros Hlen. induction fuel as [| fuel IH]; intros stored Hs; [reflexivity |].
  rewrite (payload_loop_step fuel len stored buf _ _ _ _
             (read_broken (len + 2 - stored) ltac:(lia))).
  change (-1 =? 0) with false. rewrite store_nil.
  replace (len + 2 <=? stored + -1) with false by (symmetry; apply Z.leb_gt; lia).
  simpl. apply IH. lia.
Qed.

(** [k] failed reads and then an empty one: the loop ends with the count at
    [-k], below [payloadLen + 2], which [readOSPmsg] reports as status 2. *)
Lemma payload_loop_errors_then_empty (len : Z) (buf : buffer) (i : event) :
  0 <= len ->
  forall (k : nat) (stored : Z),
    stored <= 0 ->
    payload_loop (S k) len stored buf (mkPort (repeat Err k ++ [Gap]) i)
      = Some (stored - Z.of_nat k, buf, mkPort [] i).
Proof.
  intros Hlen. induction k as [| k IH]; intros stored Hs.
  - assert (Hr : read (mkPort [Gap] i) (len + 2 - stored)
                 = (0, [], mkPort [] i)).
    { unfold read.
      replace (len + 2 - stored <=? 0) with false
        by (symmetry; apply Z.leb_gt; lia).
      reflexivity. }
    simpl repeat. simpl app.
    rewrite (payload_loop_step 0 len stored buf _ _ _ _ Hr).
    simpl. replace (stored + 0) with stored by lia.
    replace (stored - 0) with stored by lia. reflexivity.
  - assert (Hr : read (mkPort (repeat Err (S k) ++ [Gap]) i)
                   (len + 2 - stored)
                 = (-1, [], mkPort (repeat Err k ++ [Gap]) i)).
    { unfold read.
      replace (len + 2 - stored <=? 0) with false
        by (symmetry; apply Z.leb_gt; lia).
      reflexivity. }
    rewrite (payload_loop_step (S k) len stored buf _ _ _ _ Hr).
    change (-1 =? 0) with false. rewrite store_nil.
    replace (len + 2 <=? stored + -1) with false
      by (symmetry; apply Z.leb_gt; lia).
    simpl orb. cbv iota. rewrite IH by lia.
    replace (stored - Z.of_nat (S k)) with (stored + -1 - Z.of_nat k) by lia.
    reflexivity.
Qed.

(** C10.  The payload loop of [readOSPmsg].  (1) An iteration leaves the
    loop only when its read returned 0 or when the count of stored bytes has
    reached [payloadLen + 2].  (2) A read that returns -1 while bytes are
    still missing does not leave the loop: it lowers the count by one and
    stores nothing.  (3) When, after the start sequence and a valid length,
    every read fails, [readOSPmsg] has not returned after any number of
    iterations.  (4) No execution returns status 5. *)
Theorem C10_payload_loop_ignores_read_errors :
  (forall (fuel : nat) (len stored : Z) (buf : buffer) (p p' : port)
          (n : Z) (data : list Z),
     read p (len + 2 - stored) = (n, data, p') ->
     payload_loop (S fuel) len stored buf p =
       if (n =? 0) || (len + 2 <=? stored + n)
       then Some (stored + n, store buf stored data, p')
       else payload_loop fuel len (stored + n) (store buf stored data) p')
  /\ (forall (fuel : nat) (len stored : Z) (buf : buffer) (p p' : port),
        stored < len + 2 ->
        read p (len + 2 - stored) = (-1, [], p') ->
        payload_loop (S fuel) len stored buf p
          = payload_loop fuel len (stored - 1) buf p')
  /\ (forall (fuel : nat) (patience : Z) (o : SerialTxRx) (hi lo : Z),
        0 < patience -> is_byte hi -> is_byte lo ->
        0 < 256 * hi + lo < MAXBUFFERSIZE - 3 ->
        readOSPmsg fuel patience
          (on_line o (feed [START1; START2; hi; lo] Err)) = None)
  /\ (forall (fuel : nat) (patience : Z) (o : SerialTxRx) (s : Z)
             (o' : SerialTxRx),
        readOSPmsg fuel patience o = Some (s, o') -> s <> 5).
Proof.
  split; [| split; [| split]].
  - intros. apply payload_loop_step. assumption.
  - intros fuel len stored buf p p' Hs Hr.
    rewrite (payload_loop_step fuel len stored buf p p' (-1) [] Hr).
    change (-1 =? 0) with false. rewrite store_nil.
    replace (len + 2 <=? stored + -1) with false
      by (symmetry; apply Z.leb_gt; lia).
    reflexivity.
  - intros fuel patience o hi lo Hp Hhi Hlo Hlen.
    destruct fuel as [| [| fuel]].
    + unfold readOSPmsg, synchOSPmsg. simpl.
      apply Z.ltb_lt in Hp. rewrite Hp. reflexivity.
    + unfold readOSPmsg, synchOSPmsg. simpl hSerial.
      rewrite synch_loop_step by (try discriminate; exact Hp).
      rewrite read_one. unfold feed. simpl map. rewrite next_feed_cons.
      unfold synch_body. simpl.
      apply Z.ltb_lt in Hp. rewrite Hp. reflexivity.
    + assert (Hs : synchOSPmsg (S (S fuel)) patience
                     (hSerial (on_line o (feed [START1; START2; hi; lo] Err)))
                   = Some (true, feed [hi; lo] Err)).
      { unfold synchOSPmsg. simpl hSerial.
        rewrite synch_loop_step by (try discriminate; exact Hp).
        rewrite read_one. unfold feed. simpl map. rewrite next_feed_cons.
        unfold synch_body. simpl.
        apply Z.ltb_lt in Hp. rewrite Hp. simpl.
        destruct fuel; reflexivity. }
      rewrite (readOSPmsg_after_length _ _ _ _ (mkPort [] Err) hi lo Hs);
        [| reflexivity | exact Hlo].
      cbv zeta.
      replace ((0 <? 256 * hi + lo) && (256 * hi + lo <? MAXBUFFERSIZE - 3))
        with true
        by (symmetry; apply andb_true_iff; split; apply Z.ltb_lt; lia).
      unfold readOSPpayload. rewrite payload_loop_broken by lia. reflexivity.
  - intros fuel patience o s o' H. apply readOSPmsg_status in H. lia.
Qed.

Lemma C10_payload_loop_ignores_read_errors_witness :
  payload_loop 1 1 0 blank (feed [] Err)
    = payload_loop 0 1 (0 - 1) blank (feed [] Err)
  /\ readOSPmsg 1000 1 (on_line (fresh (feed [] Gap))
                          (feed [START1; START2; 0; 1] Err)) = None
  /\ 6 <> 5.
Proof.
  destruct C10_payload_loop_ignores_read_errors as (_ & H2 & H3 & H4).
  split; [| split].
  - apply H2; [lia | reflexivity].
  - apply H3; unfold is_byte, MAXBUFFERSIZE; lia.
  - apply (H4 1%nat 0 (fresh (feed [] Gap)) 6 (fresh (feed [] Gap))).
    reflexivity.
Defined.

(** ** The 15-bit checksum *)

Lemma sumZ_app (l1 l2 : list Z) : sumZ (l1 ++ l2) = sumZ l1 + sumZ l2.
Proof. induction l1 as [| x l1 IH]; simpl; [reflexivity | rewrite IH; lia]. Qed.

Lemma mask15_mod (z : Z) : Z.land z 0x7FFF = z mod 2 ^ 15.
Proof. change 0x7FFF with (Z.ones 15). apply Z.land_ones. lia. Qed.

(** The wrap of [unsigned int] is invisible behind the 15-bit mask. *)
Lemma mask15_u32 (z : Z) : Z.land (u32 z) 0x7FFF = Z.land z 0x7FFF.
Proof.
  rewrite !mask15_mod. unfold u32.
  apply Z.mod_mod_divide. exists (2 ^ 17). reflexivity.
Qed.

Lemma sum15_loop_list (buf : buffer) (l : list Z) :
  forall (i acc : Z),
    (forall k, (k < length l)%nat -> buf (i + Z.of_nat k) = nth k l 0) ->
    sum15_loop (length l) buf i acc
      = fold_left (fun a x => Z.land (a + x) 0x7FFF) l acc.
Proof.
  induction l as [| x l IH]; intros i acc H; [reflexivity |].
  simpl. rewrite mask15_u32.
  replace (buf i) with x
    by (symmetry; rewrite <- (Z.add_0_r i); apply (H 0%nat); simpl; lia).
  apply IH. intros k Hk.
  replace (i + 1 + Z.of_nat k) with (i + Z.of_nat (S k)) by lia.
  apply (H (S k)). simpl. lia.
Qed.

(** The loop of the source computes the checksum of the specification. *)
Lemma ospChecksum_list (buf : buffer) (first : Z) (payload : list Z) :
  payload <> [] ->
  (forall k, (k < length payload)%nat ->
             buf (first + Z.of_nat k) = nth k payload 0) ->
  ospChecksum buf first (first + Z.of_nat (length payload))
    = checksum15 payload.
Proof.
  intros Hne H. destruct payload as [| b rest]; [congruence |].
  unfold ospChecksum, checksum15.
  replace (Z.to_nat (first + Z.of_nat (length (b :: rest)) - (first + 1)))
    with (length rest) by (simpl length; lia).
  replace (buf first) with b
    by (symmetry; rewrite <- (Z.add_0_r first); apply (H 0%nat); simpl; lia).
  apply sum15_loop_list. intros k Hk.
  replace (first + 1 + Z.of_nat k) with (first + Z.of_nat (S k)) by lia.
  apply (H (S k)). simpl. lia.
Qed.

Lemma fold15_mod (l : list Z) :
  forall acc,
    fold_left (fun a x => Z.land (a + x) 0x7FFF) l acc mod 2 ^ 15
      = (acc + sumZ l) mod 2 ^ 15.
Proof.
  induction l as [| x l IH]; intros acc; simpl.
  - f_equal. lia.
  - rewrite IH, mask15_mod, Zplus_mod_idemp_l. f_equal. lia.
Qed.

Lemma fold15_range (l : list Z) :
  forall acc,
    0 <= acc < 2 ^ 15 ->
    0 <= fold_left (fun a x => Z.land (a + x) 0x7FFF) l acc < 2 ^ 15.
Proof.
  induction l as [| x l IH]; intros acc H; simpl; [exact H |].
  apply IH. rewrite mask15_mod. apply Z.mod_pos_bound. lia.
Qed.

Lemma checksum15_range (payload : list Z) :
  Forall is_byte payload -> 0 <= checksum15 payload < 2 ^ 15.
Proof.
  intros H. destruct payload as [| b rest]; simpl; [lia |].
  apply fold15_range. inversion H; subst. unfold is_byte in *. lia.
Qed.

(** For byte payloads the checksum is the sum of the bytes modulo 2^15. *)
Lemma checksum15_sum (payload : list Z) :
  Forall is_byte payload -> checksum15 payload = sumZ payload mod 2 ^ 15.
Proof.
  intros H. rewrite <- (Z.mod_small (checksum15 payload) (2 ^ 15))
    by (apply checksum15_range; exact H).
  destruct payload as [| b rest]; [reflexivity |].
  unfold checksum15. rewrite fold15_mod. reflexivity.
Qed.

(** Changing one byte changes the sum by less than the modulus. *)
Lemma checksum15_one_byte (l1 l2 : list Z) (b b' : Z) :
  Forall is_byte (l1 ++ b :: l2) -> is_byte b' -> b <> b' ->
  checksum15 (l1 ++ b' :: l2) <> checksum15 (l1 ++ b :: l2).
Proof.
  intros Hp Hb' Hne E.
  assert (Hp' : Forall is_byte (l1 ++ b' :: l2)).
  { apply Forall_app in Hp. destruct Hp as [H1 H2]. apply Forall_app.
    split; [exact H1 |]. inversion H2; subst. constructor; assumption. }
  assert (Hb : is_byte b).
  { apply Forall_app in Hp. destruct Hp as [_ H2]. inversion H2; assumption. }
  rewrite !checksum15_sum in E by assumption.
  rewrite !sumZ_app in E.
  change (sumZ (b' :: l2)) with (b' + sumZ l2) in E.
  change (sumZ (b :: l2)) with (b + sumZ l2) in E.
  unfold is_byte in Hb, Hb'.
  assert (D : (b' - b) mod 2 ^ 15 = 0).
  { replace (b' - b)
      with ((sumZ l1 + (b' + sumZ l2)) - (sumZ l1 + (b + sumZ l2))) by lia.
    rewrite Zminus_mod, E, Z.sub_diag. reflexivity. }
  apply Z.mod_divide in D; [| lia]. destruct D as [k D].
  change (2 ^ 15) with 32768 in D. lia.
Qed.

(** ** [readOSPmsg] on a well-formed frame *)

Lemma synchOSPmsg_on_start (fuel : nat) (patience : Z) (rest : list Z)
    (after : event) :
  0 < patience -> (2 <= fuel)%nat ->
  synchOSPmsg fuel patience (feed (START1 :: START2 :: rest) after)
    = Some (true, feed rest after).
Proof.
  intros Hp Hf. destruct fuel as [| [| fuel]]; try lia.
  unfold synchOSPmsg.
  rewrite synch_loop_step by (try discriminate; exact Hp).
  rewrite read_one. unfold feed. simpl map. rewrite next_feed_cons.
  unfold synch_body. simpl.
  apply Z.ltb_lt in Hp. rewrite Hp. simpl.
  destruct fuel; reflexivity.
Qed.

Lemma read_payload_run (q : list Z) (c1 c2 : Z) (tail : list Z)
    (after : event) :
  q <> [] ->
  read (feed (q ++ c1 :: c2 :: tail) after) (Z.of_nat (length q) + 2 - 0)
    = (Z.of_nat (length q) + 2, q ++ [c1; c2], feed tail after).
Proof.
  intros Hq. destruct q as [| b q]; [congruence |].
  replace (feed ((b :: q) ++ c1 :: c2 :: tail) after)
    with (mkPort (map Rx (b :: q ++ [c1; c2]) ++ map Rx tail) after).
  - replace (Z.of_nat (length (b :: q)) + 2 - 0)
      with (Z.of_nat (length (b :: q ++ [c1; c2])))
      by (simpl length; rewrite length_app; simpl length; lia).
    rewrite read_feed. f_equal. f_equal.
    simpl length. rewrite length_app. simpl length. lia.
  - unfold feed. f_equal. rewrite <- map_app. f_equal.
    simpl. f_equal. rewrite <- app_assoc. reflexivity.
Qed.

(** A frame in the wire format, arriving whole, is read in one pass: the
    status tells whether the checksum it carries is that of its payload, and
    the payload is left at the start of [payBuff]. *)
Lemma readOSPmsg_on_wire (fuel : nat) (patience : Z) (o : SerialTxRx)
    (q : list Z) (chk : Z) (after : event) :
  0 < patience -> (2 <= fuel)%nat ->
  0 < Z.of_nat (length q) < MAXBUFFERSIZE - 3 ->
  0 <= chk < 65536 ->
  exists o',
    readOSPmsg fuel patience (on_line o (feed (osp_wire q chk) after))
      = Some (if checksum15 q =? chk then 0 else 1, o')
    /\ payloadLen o' = Z.of_nat (length q)
    /\ contents (payBuff o') (payloadLen o') = q
    /\ payBuff o' 0 = hd 0 q
    /\ hSerial o' = feed [END1; END2] after.
Proof.
  intros Hp Hf Hlen Hchk.
  set (len := Z.of_nat (length q)) in *.
  assert (Hq : q <> []) by (intros ->; simpl in len; lia).
  set (buf := store (payBuff o) 0 (q ++ [chk / 256; chk mod 256])).
  set (lenBuff := store (paylenBuff o) 0 [len / 256; len mod 256]).
  exists (mkSerial (feed [END1; END2] after) lenBuff buf len).
  split; [| split; [reflexivity | split; [| split; [| reflexivity]]]].
  - pose proof (synchOSPmsg_on_start fuel patience
                  (len / 256 :: len mod 256
                     :: q ++ [chk / 256; chk mod 256; END1; END2])
                  after Hp Hf) as Hs.
    rewrite (readOSPmsg_after_length fuel patience
               (on_line o (feed (osp_wire q chk) after)) _
               (feed (q ++ [chk / 256; chk mod 256; END1; END2]) after)
               (len / 256) (len mod 256) Hs);
      [| reflexivity | apply Z.mod_pos_bound; lia].
    cbv zeta. rewrite <- Z.div_mod by lia.
    replace ((0 <? len) && (len <? MAXBUFFERSIZE - 3)) with true
      by (symmetry; apply andb_true_iff; split; apply Z.ltb_lt; lia).
    unfold readOSPpayload. destruct fuel as [| fuel]; [lia |].
    rewrite (payload_loop_step fuel len 0 _ _ _ _ _
               (read_payload_run q _ _ [END1; END2] after Hq)).
    fold len.
    replace (len + 2 <=? 0 + (len + 2)) with true
      by (symmetry; apply Z.leb_le; lia).
    rewrite orb_true_r. cbv iota beta.
    replace (0 + (len + 2) <? len + 2) with false
      by (symmetry; apply Z.ltb_ge; lia).
    simpl payBuff. fold buf. fold lenBuff.
    assert (Hcs : ospChecksum buf 0 len = checksum15 q).
    { apply (ospChecksum_list buf 0 q Hq). intros k Hk.
      unfold buf. rewrite Z.add_0_l.
      rewrite store_at_0 by (rewrite length_app; lia).
      apply app_nth1. exact Hk. }
    assert (H1 : buf len = chk / 256).
    { unfold buf, len. rewrite store_at_0 by (rewrite length_app; simpl; lia).
      rewrite app_nth2 by lia. rewrite Nat.sub_diag. reflexivity. }
    assert (H2 : buf (len + 1) = chk mod 256).
    { unfold buf, len.
      replace (Z.of_nat (length q) + 1) with (Z.of_nat (S (length q))) by lia.
      rewrite store_at_0 by (rewrite length_app; simpl; lia).
      rewrite app_nth2 by lia.
      replace (S (length q) - length q)%nat with 1%nat by lia. reflexivity. }
    rewrite Hcs, H1, H2, be16_round_trip by exact Hchk.
    destruct (checksum15 q =? chk); reflexivity.
  - simpl payBuff. simpl payloadLen. unfold buf, len. apply contents_prefix.
  - simpl payBuff. unfold buf.
    destruct q as [| b q']; [congruence |]. reflexivity.
Qed.

(** C4.  A payload of bytes in which exactly one byte has been changed has a
    different 15-bit checksum, so a frame that carries the changed payload
    with the checksum of the original is refused by [readOSPmsg] with
    status 1. *)
Theorem C4_single_byte_corruption_detected :
  forall (l1 l2 : list Z) (b b' : Z) (o : SerialTxRx) (after : event)
         (fuel : nat) (patience : Z),
    Forall is_byte (l1 ++ b :: l2) -> is_byte b' -> b <> b' ->
    0 < Z.of_nat (length (l1 ++ b :: l2)) < MAXBUFFERSIZE - 3 ->
    0 < patience -> (2 <= fuel)%nat ->
    checksum15 (l1 ++ b' :: l2) <> checksum15 (l1 ++ b :: l2)
    /\ exists o',
         readOSPmsg fuel patience
           (on_line o (feed (osp_wire (l1 ++ b' :: l2)
                                      (checksum15 (l1 ++ b :: l2))) after))
           = Some (1, o').
Proof.
  intros l1 l2 b b' o after fuel patience Hp Hb' Hne Hlen Hpat Hf.
  pose proof (checksum15_one_byte l1 l2 b b' Hp Hb' Hne) as Hd.
  split; [exact Hd |].
  destruct (readOSPmsg_on_wire fuel patience o (l1 ++ b' :: l2)
              (checksum15 (l1 ++ b :: l2)) after Hpat Hf) as (o' & H & _).
  - rewrite length_app in *. simpl length in *. exact Hlen.
  - pose proof (checksum15_range _ Hp) as R.
    change (2 ^ 15) with 32768 in R. lia.
  - exists o'. rewrite H. apply Z.eqb_neq in Hd. rewrite Hd. reflexivity.
Qed.

Lemma C4_single_byte_corruption_detected_witness :
  checksum15 [0x81; 0x02; 0x03] = 0x86
  /\ checksum15 [0x81; 0x03; 0x03] <> 0x86
  /\ exists o',
       readOSPmsg 2 1
         (on_line (fresh (feed [] Gap))
                  (feed (osp_wire [0x81; 0x03; 0x03] 0x86) Gap))
         = Some (1, o').
Proof.
  split; [reflexivity |].
  apply (C4_single_byte_corruption_detected [0x81] [0x03] 0x02 0x03
           (fresh (feed [] Gap)) Gap 2 1).
  - repeat constructor; unfold is_byte; lia.
  - unfold is_byte; lia.
  - discriminate.
  - unfold MAXBUFFERSIZE; simpl; lia.
  - lia.
  - lia.
Defined.

(** ** Command text *)

Lemma byte_cases (P : Z -> bool) :
  forallb (fun n => P (Z.of_nat n)) (seq 0 256) = true ->
  forall b, is_byte b -> P b = true.
Proof.
  intros H b Hb. unfold is_byte in Hb. rewrite forallb_forall in H.
  specialize (H (Z.to_nat b)). rewrite Z2Nat.id in H by lia.
  apply H. apply in_seq. lia.
Qed.

Lemma list_eqb_eq (a b : list Z) : list_eqb a b = true -> a = b.
Proof.
  unfold list_eqb. destruct (list_eq_dec Z.eq_dec a b); [auto | discriminate].
Qed.

(** [%02X] of a byte is its two hexadecimal digits. *)
Lemma fmt_0X_byte (b : Z) : is_byte b -> fmt_0X 2 b = hex2 b.
Proof.
  intros Hb. apply list_eqb_eq.
  apply (byte_cases (fun b => list_eqb (fmt_0X 2 b) (hex2 b))); [| exact Hb].
  vm_compute. reflexivity.
Qed.

Lemma hex2_no_space (b : Z) : is_byte b -> no_space (hex2 b) = true.
Proof.
  apply (byte_cases (fun b => no_space (hex2 b))). vm_compute. reflexivity.
Qed.

(** [stoul] in base 16 reads the two digits of a byte back. *)
Lemma stoul_hex2 (b : Z) : is_byte b -> stoul (hex2 b) 16 = Value b.
Proof.
  intros Hb.
  pose proof (byte_cases (fun b => stoul_gives (hex2 b) 16 b)
                ltac:(vm_compute; reflexivity) b Hb) as H.
  unfold stoul_gives in H.
  destruct (stoul (hex2 b) 16); try discriminate.
  apply Z.eqb_eq in H. congruence.
Qed.

(** A token that is followed by a blank is split off whole. *)
Lemma split_ws_token (rest : list Z) :
  forall (t cur : list Z),
    no_space t = true -> cur ++ t <> [] ->
    split_ws cur (t ++ 32 :: rest) = (rev cur ++ t) :: split_ws [] rest.
Proof.
  induction t as [| c t IH]; intros cur Hns Hne.
  - rewrite app_nil_r in *. simpl.
    destruct cur as [| x cur]; [congruence | reflexivity].
  - simpl in Hns. apply andb_true_iff in Hns. destruct Hns as [Hc Hns].
    apply negb_true_iff in Hc. simpl. rewrite Hc.
    rewrite IH; [| exact Hns | discriminate].
    simpl. rewrite <- app_assoc. reflexivity.
Qed.

Lemma tokenize_hex_args (bs : list Z) :
  Forall is_byte bs -> tokenize (hex_args bs) = map hex2 bs.
Proof.
  unfold tokenize, hex_args. induction 1 as [| b bs Hb _ IH]; [reflexivity |].
  simpl flat_map. rewrite fmt_0X_byte by exact Hb.
  rewrite <- app_assoc. simpl app.
  replace (hex_char (b / 16) :: hex_char (b mod 16)
             :: 32 :: flat_map (fun b0 => fmt_0X 2 b0 ++ [32]) bs)
    with (hex2 b ++ 32 :: flat_map (fun b0 => fmt_0X 2 b0 ++ [32]) bs)
    by reflexivity.
  rewrite split_ws_token; [| apply hex2_no_space; exact Hb | discriminate].
  simpl. rewrite IH. reflexivity.
Qed.

Lemma byte_kept (b : Z) : is_byte b -> Z.land b 0xFF mod 256 = b.
Proof. intros Hb. rewrite lo_byte. apply Z.mod_small. exact Hb. Qed.

Lemma fill_args_hex2 (bs : list Z) :
  Forall is_byte bs ->
  forall bufferIndex,
    bufferIndex + Z.of_nat (length bs) <= MAXBUFFERSIZE ->
    fill_args (map hex2 bs) 16 bufferIndex = Filled bs.
Proof.
  induction 1 as [| b bs Hb _ IH]; intros bufferIndex Hfit; [reflexivity |].
  simpl map. simpl fill_args. rewrite stoul_hex2 by exact Hb.
  simpl length in Hfit.
  replace (MAXBUFFERSIZE <=? bufferIndex) with false
    by (symmetry; apply Z.leb_gt; lia).
  rewrite IH by lia. rewrite byte_kept by exact Hb. reflexivity.
Qed.

(** ** [writeOSPcmd] builds the wire format *)

Lemma osp_frame_wire (buf0 : buffer) (mid : Z) (args : list Z) :
  is_byte mid -> Forall is_byte args ->
  Z.of_nat (length (mid :: args)) < 65536 ->
  osp_frame buf0 mid args (Z.of_nat (length (mid :: args)))
    = osp_wire (mid :: args) (checksum15 (mid :: args)).
Proof.
  intros Hmid Hargs Hlen.
  set (p := mid :: args) in *. set (len := Z.of_nat (length p)) in *.
  assert (Hp : Forall is_byte p) by (constructor; assumption).
  unfold osp_frame.
  rewrite hi_byte by lia. rewrite lo_byte.
  rewrite (Z.mod_small mid) by exact Hmid.
  set (head := [START1; START2; len / 256; len mod 256; mid]).
  assert (Hcs : ospChecksum (store buf0 0 (head ++ args)) 4
                  (Z.of_nat (length (head ++ args))) = checksum15 p).
  { replace (Z.of_nat (length (head ++ args)))
      with (4 + Z.of_nat (length p))
      by (unfold head, p; simpl length; lia).
    apply ospChecksum_list; [discriminate |].
    intros k Hk.
    replace (4 + Z.of_nat k) with (Z.of_nat (4 + k)) by lia.
    rewrite store_at_0 by (unfold head, p in *; simpl length in *; lia).
    reflexivity. }
  rewrite Hcs.
  pose proof (checksum15_range p Hp) as R. change (2 ^ 15) with 32768 in R.
  rewrite hi_byte by lia. rewrite lo_byte.
  unfold osp_wire. fold len. reflexivity.
Qed.

Lemma transmit_sound (frame : list Z) : transmit sound_outlet frame = Sent frame.
Proof.
  unfold transmit, sound_outlet. simpl. rewrite Z.eqb_refl. reflexivity.
Qed.

(** A payload of at most MAXBUFFERSIZE - 9 bytes, given as a message id and
    hexadecimal argument text, is sent as the wire format of the payload. *)
Lemma writeOSPcmd_payload (ow : SerialTxRx) (p : list Z) :
  Forall is_byte p ->
  0 < Z.of_nat (length p) < MAXBUFFERSIZE - 8 ->
  writeOSPcmd sound_outlet ow (hd 0 p) (hex_args (tl p)) 16
    = Sent (osp_wire p (checksum15 p)).
Proof.
  intros Hp Hlen. destruct p as [| mid args]; [simpl in Hlen; lia |].
  inversion Hp as [| ? ? Hmid Hargs]; subst. simpl hd. simpl tl.
  unfold writeOSPcmd. rewrite tokenize_hex_args by exact Hargs.
  rewrite length_map.
  replace (1 + Z.of_nat (length args)) with (Z.of_nat (length (mid :: args)))
    by (simpl length; lia).
  set (len := Z.of_nat (length (mid :: args))) in *.
  unfold MAXBUFFERSIZE in Hlen.
  assert (Hu : u32 len = len) by (unfold u32; apply Z.mod_small; lia).
  rewrite Hu.
  replace (u32 (2 + 2 + 1 + len + 2 + 2)) with (len + 9)
    by (unfold u32; rewrite Z.mod_small; lia).
  replace (MAXBUFFERSIZE <? len + 9) with false
    by (symmetry; apply Z.ltb_ge; unfold MAXBUFFERSIZE; lia).
  rewrite fill_args_hex2;
    [| exact Hargs
     | unfold MAXBUFFERSIZE; unfold len in Hlen; simpl length in Hlen; lia].
  unfold len. rewrite osp_frame_wire by (try assumption; fold len; lia).
  fold len.
  replace (Z.of_nat (length (osp_wire (mid :: args)
                               (checksum15 (mid :: args)))) <=? MAXBUFFERSIZE)
    with true.
  - apply transmit_sound.
  - symmetry. apply Z.leb_le. unfold osp_wire.
    rewrite length_app, length_app. simpl length. fold len.
    unfold MAXBUFFERSIZE. unfold len in *. simpl length in *. lia.
Qed.

(** From MAXBUFFERSIZE - 8 bytes on, the size test of [writeOSPcmd] ends the
    call before anything is built. *)
Lemma writeOSPcmd_refuses (tx : outlet) (ow : SerialTxRx) (p : list Z) :
  Forall is_byte p ->
  MAXBUFFERSIZE - 8 <= Z.of_nat (length p) < 2 ^ 32 - 9 ->
  writeOSPcmd tx ow (hd 0 p) (hex_args (tl p)) 16
    = Thrown (CommandTooLong (Z.of_nat (length p))).
Proof.
  intros Hp Hlen.
  destruct p as [| mid args]; [unfold MAXBUFFERSIZE in Hlen; simpl in Hlen; lia |].
  inversion Hp as [| ? ? Hmid Hargs]; subst. simpl hd. simpl tl.
  unfold writeOSPcmd. rewrite tokenize_hex_args by exact Hargs.
  rewrite length_map.
  replace (1 + Z.of_nat (length args)) with (Z.of_nat (length (mid :: args)))
    by (simpl length; lia).
  set (len := Z.of_nat (length (mid :: args))) in *.
  unfold MAXBUFFERSIZE in Hlen.
  assert (Hu : u32 len = len) by (unfold u32; apply Z.mod_small; lia).
  rewrite Hu.
  replace (u32 (2 + 2 + 1 + len + 2 + 2)) with (len + 9)
    by (unfold u32; rewrite Z.mod_small; lia).
  replace (MAXBUFFERSIZE <? len + 9) with true
    by (symmetry; apply Z.ltb_lt; unfold MAXBUFFERSIZE; lia).
  reflexivity.
Qed.

Lemma length_osp_wire (p : list Z) (chk : Z) :
  Z.of_nat (length (osp_wire p chk)) = Z.of_nat (length p) + 8.
Proof.
  unfold osp_wire. rewrite length_app, length_app. simpl length. lia.
Qed.

(** C1, as the code has it by design.  The payloads of the claim have a
    length above 0 and below MAXBUFFERSIZE - 3.  For every one of them
    shorter than MAXBUFFERSIZE - 8 bytes, the frame that [writeOSPcmd]
    builds for it (message id [p[0]], the other bytes as hexadecimal
    arguments, base 16) is read back by [readOSPmsg] from exactly the bytes
    emitted with status 0, the payload [p] at the start of [payBuff],
    [payloadLen] equal to the length of [p], and the message id in
    [payBuff[0]].  For every one longer than MAXBUFFERSIZE - 8 bytes the
    frame, 8 bytes more than the payload, does not fit in the MAXBUFFERSIZE
    bytes of [payBuff] and [writeOSPcmd] ends with its length exception,
    whatever the port.  The payload of exactly MAXBUFFERSIZE - 8 bytes is
    not part of this statement. *)
Theorem C1_osp_round_trip :
  forall (p : list Z) (ow o : SerialTxRx) (after : event) (fuel : nat)
         (patience : Z),
    Forall is_byte p ->
    0 < Z.of_nat (length p) < MAXBUFFERSIZE - 3 ->
    0 < patience -> (2 <= fuel)%nat ->
    (Z.of_nat (length p) < MAXBUFFERSIZE - 8 ->
     exists wire o',
       writeOSPcmd sound_outlet ow (hd 0 p) (hex_args (tl p)) 16 = Sent wire
       /\ readOSPmsg fuel patience (on_line o (feed wire after))
            = Some (0, o')
       /\ payloadLen o' = Z.of_nat (length p)
       /\ contents (payBuff o') (payloadLen o') = p
       /\ payBuff o' 0 = hd 0 p)
    /\ (MAXBUFFERSIZE - 8 < Z.of_nat (length p) ->
        MAXBUFFERSIZE < Z.of_nat (length (osp_wire p (checksum15 p)))
        /\ forall tx : outlet,
             writeOSPcmd tx ow (hd 0 p) (hex_args (tl p)) 16
               = Thrown (CommandTooLong (Z.of_nat (length p)))).
Proof.
  intros p ow o after fuel patience Hp Hlen Hpat Hf. split.
  - intros Hfit.
    pose proof (checksum15_range p Hp) as R. change (2 ^ 15) with 32768 in R.
    assert (Hchk : 0 <= checksum15 p < 65536) by lia.
    destruct (readOSPmsg_on_wire fuel patience o p (checksum15 p) after
                Hpat Hf Hlen Hchk) as (o' & Hr & H1 & H2 & H3 & _).
    exists (osp_wire p (checksum15 p)), o'.
    rewrite Z.eqb_refl in Hr.
    split; [apply writeOSPcmd_payload; [exact Hp | lia] |].
    split; [exact Hr |]. split; [exact H1 |]. split; [exact H2 | exact H3].
  - intros Hbig. split; [rewrite length_osp_wire; lia |].
    intros tx. apply writeOSPcmd_refuses; [exact Hp |].
    unfold MAXBUFFERSIZE in *. lia.
Qed.

Lemma C1_osp_round_trip_witness :
  (exists wire o',
     writeOSPcmd sound_outlet (fresh (feed [] Gap)) 0x81
       (hex_args [0x02; 0x03]) 16 = Sent wire
     /\ readOSPmsg 2 1 (on_line (fresh (feed [] Gap)) (feed wire Gap))
          = Some (0, o')
     /\ payloadLen o' = 3
     /\ contents (payBuff o') (payloadLen o') = [0x81; 0x02; 0x03]
     /\ payBuff o' 0 = 0x81)
  /\ (MAXBUFFERSIZE < Z.of_nat (length (osp_wire (repeat 7 2045)
                                          (checksum15 (repeat 7 2045))))
      /\ forall tx : outlet,
           writeOSPcmd tx (fresh (feed [] Gap)) (hd 0 (repeat 7 2045))
             (hex_args (tl (repeat 7 2045))) 16
             = Thrown (CommandTooLong (Z.of_nat (length (repeat 7 2045))))).
Proof.
  split.
  - apply (C1_osp_round_trip [0x81; 0x02; 0x03] (fresh (feed [] Gap))
             (fresh (feed [] Gap)) Gap 2 1).
    + repeat constructor; unfold is_byte; lia.
    + unfold MAXBUFFERSIZE; simpl; lia.
    + lia.
    + lia.
    + unfold MAXBUFFERSIZE; simpl; lia.
  - apply (C1_osp_round_trip (repeat 7 2045) (fresh (feed [] Gap))
             (fresh (feed [] Gap)) Gap 2 1).
    + apply Forall_forall. intros x Hx. apply repeat_spec in Hx. subst x.
      unfold is_byte. lia.
    + rewrite repeat_length. unfold MAXBUFFERSIZE. lia.
    + lia.
    + lia.
    + rewrite repeat_length. unfold MAXBUFFERSIZE. lia.
Defined.

(** C1 as stated fails: a payload of 2048 bytes is within the stated range
    (its length is below MAXBUFFERSIZE - 3), but its frame would have 2056
    bytes and not fit in [payBuff]: [writeOSPcmd] refuses to build it, so
    nothing is emitted to read back. *)
Lemma C1_payload_of_2048_bytes_is_not_sent :
  0 < Z.of_nat (length (repeat 0 2048)) < MAXBUFFERSIZE - 3
  /\ Forall is_byte (repeat 0 2048)
  /\ writeOSPcmd sound_outlet (fresh (feed [] Gap)) (hd 0 (repeat 0 2048))
       (hex_args (tl (repeat 0 2048))) 16
     = Thrown (CommandTooLong 2048).
Proof.
  split; [| split].
  - vm_compute. split; reflexivity.
  - apply Forall_forall. intros x Hx. apply repeat_spec in Hx. subst x.
    unfold is_byte. lia.
  - vm_compute. reflexivity.
Qed.

(** ** The length test of [writeOSPcmd] *)

(** With [n] tokens the test compares [n + 10] with MAXBUFFERSIZE: the
    message id is counted twice, in the constant 1 and in [payloadLen]. *)
Lemma writeOSPcmd_length_test (tx : outlet) (o : SerialTxRx)
    (mid : Z) (cmdArgs : list Z) (base : Z) :
  let n := Z.of_nat (length (tokenize cmdArgs)) in
  n + 10 < 2 ^ 32 ->
  ((exists len, writeOSPcmd tx o mid cmdArgs base = Thrown (CommandTooLong len))
   <-> MAXBUFFERSIZE < n + 10).
Proof.
  intros n Hn. unfold writeOSPcmd. fold n.
  assert (Hu : u32 (1 + n) = 1 + n) by (unfold u32; apply Z.mod_small; lia).
  rewrite Hu.
  replace (u32 (2 + 2 + 1 + (1 + n) + 2 + 2)) with (n + 10)
    by (unfold u32; rewrite Z.mod_small; lia).
  destruct (MAXBUFFERSIZE <? n + 10) eqn:E.
  - apply Z.ltb_lt in E. split; [intros _; exact E | intros _; eauto].
  - apply Z.ltb_ge in E. split; [| lia]. intros [len H]. exfalso.
    destruct (fill_args (tokenize cmdArgs) base 5) as [args | [] |];
      try discriminate.
    destruct (negb _); [discriminate |].
    unfold transmit in H.
    destruct (tcdrain_ret tx =? -1); [discriminate |].
    destruct (negb _); discriminate.
Qed.

(** C6.  [writeOSPcmd] should end with "cmd too long" exactly when the frame,
    2 + 2 + 1 + tokenCount + 2 + 2 bytes, exceeds MAXBUFFERSIZE.  The code
    misses this by one: with 2043 tokens the frame would have 2052 bytes,
    which does not exceed MAXBUFFERSIZE, yet the call ends with "cmd too
    long", because its size test counts the message id twice. *)
Theorem C6_frame_of_2052_bytes_is_refused :
  Z.of_nat (length (tokenize (hex_args (repeat 0 2043)))) = 2043
  /\ 2 + 2 + 1 + 2043 + 2 + 2 <= MAXBUFFERSIZE
  /\ writeOSPcmd sound_outlet (fresh (feed [] Gap)) 0
       (hex_args (repeat 0 2043)) 16
     = Thrown (CommandTooLong 2044).
Proof.
  split; [| split].
  - vm_compute. reflexivity.
  - vm_compute. discriminate.
  - vm_compute. reflexivity.
Qed.

(** ** The XOR checksum *)

Lemma below_cases (N : nat) (P : Z -> bool) :
  forallb (fun n => P (Z.of_nat n)) (seq 0 N) = true ->
  forall z, 0 <= z < Z.of_nat N -> P z = true.
Proof.
  intros H z Hz. rewrite forallb_forall in H.
  specialize (H (Z.to_nat z)). rewrite Z2Nat.id in H by lia.
  apply H. apply in_seq. lia.
Qed.

Lemma lxor_byte (a b : Z) : is_byte a -> is_byte b -> is_byte (Z.lxor a b).
Proof.
  unfold is_byte. intros Ha Hb.
  assert (H0 : 0 <= Z.lxor a b) by (apply Z.lxor_nonneg; lia).
  split; [exact H0 |].
  destruct (Z.eq_dec (Z.lxor a b) 0) as [-> | Hne]; [lia |].
  change 256 with (2 ^ 8). apply Z.log2_lt_pow2; [lia |].
  pose proof (Z.log2_lxor a b ltac:(lia) ltac:(lia)) as Hl.
  assert (La : Z.log2 a < 8).
  { destruct (Z.eq_dec a 0) as [-> | ?]; [simpl; lia |].
    apply Z.log2_lt_pow2; simpl; lia. }
  assert (Lb : Z.log2 b < 8).
  { destruct (Z.eq_dec b 0) as [-> | ?]; [simpl; lia |].
    apply Z.log2_lt_pow2; simpl; lia. }
  lia.
Qed.

Lemma fold_lxor_byte (l : list Z) :
  Forall is_byte l -> forall acc, is_byte acc -> is_byte (fold_left Z.lxor l acc).
Proof.
  induction 1 as [| x l Hx _ IH]; intros acc Hacc; simpl; [exact Hacc |].
  apply IH. apply lxor_byte; assumption.
Qed.

Lemma xor_all_byte (l : list Z) : Forall is_byte l -> is_byte (xor_all l).
Proof.
  intros H. destruct l as [| b rest]; [unfold is_byte; simpl; lia |].
  inversion H; subst. simpl. apply fold_lxor_byte; assumption.
Qed.

Lemma xor_loop_list (buf : buffer) (l : list Z) :
  forall (i acc : Z),
    (forall k, (k < length l)%nat -> buf (i + Z.of_nat k) = nth k l 0) ->
    xor_loop (length l) buf i acc = fold_left Z.lxor l acc.
Proof.
  induction l as [| x l IH]; intros i acc H; [reflexivity |].
  simpl.
  replace (buf i) with x
    by (symmetry; rewrite <- (Z.add_0_r i); apply (H 0%nat); simpl; lia).
  apply IH. intros k Hk.
  replace (i + 1 + Z.of_nat k) with (i + Z.of_nat (S k)) by lia.
  apply (H (S k)). simpl. lia.
Qed.

(** The loop of the source computes the XOR of the specification. *)
Lemma nmeaChecksum_list (buf : buffer) (first : Z) (body : list Z) :
  body <> [] ->
  (forall k, (k < length body)%nat ->
             buf (first + Z.of_nat k) = nth k body 0) ->
  nmeaChecksum buf first (first + Z.of_nat (length body)) = xor_all body.
Proof.
  intros Hne H. destruct body as [| b rest]; [congruence |].
  unfold nmeaChecksum, xor_all.
  replace (Z.to_nat (first + Z.of_nat (length (b :: rest)) - (first + 1)))
    with (length rest) by (simpl length; lia).
  replace (buf first) with b
    by (symmetry; rewrite <- (Z.add_0_r first); apply (H 0%nat); simpl; lia).
  apply xor_loop_list. intros k Hk.
  replace (first + 1 + Z.of_nat k) with (first + Z.of_nat (S k)) by lia.
  apply (H (S k)). simpl. lia.
Qed.

(** ** [writeNMEAcmd] *)

(** [%3d] pads with spaces. *)
Lemma fmt_d_3 (mid : Z) : 0 <= mid <= 999 -> fmt_d 3 mid = field3 32 mid.
Proof.
  intros H. apply list_eqb_eq.
  apply (below_cases 1000 (fun m => list_eqb (fmt_d 3 m) (field3 32 m)));
    [vm_compute; reflexivity | lia].
Qed.

Lemma field3_byte (pad mid : Z) :
  is_byte pad -> 0 <= mid <= 999 -> Forall is_byte (field3 pad mid).
Proof.
  intros Hp H. unfold field3, is_byte in *.
  destruct (mid <? 10) eqn:E1; [apply Z.ltb_lt in E1; repeat constructor; lia |].
  apply Z.ltb_ge in E1.
  assert (0 <= mid mod 10 < 10) by (apply Z.mod_pos_bound; lia).
  destruct (mid <? 100) eqn:E2.
  - apply Z.ltb_lt in E2.
    assert (0 <= mid / 10 < 10)
      by (split; [apply Z.div_pos; lia | apply Z.div_lt_upper_bound; lia]).
    repeat constructor; lia.
  - assert (0 <= mid / 100 < 10)
      by (split; [apply Z.div_pos; lia | apply Z.div_lt_upper_bound; lia]).
    assert (0 <= mid / 10 mod 10 < 10) by (apply Z.mod_pos_bound; lia).
    repeat constructor; lia.
Qed.

Lemma c_str_no_nul (s : list Z) : ~ In 0 s -> c_str s = s.
Proof.
  induction s as [| c s IH]; intros H; [reflexivity |].
  simpl. destruct (c =? 0) eqn:E.
  - apply Z.eqb_eq in E. subst. exfalso. apply H. left. reflexivity.
  - rewrite IH; [reflexivity |]. intros Hin. apply H. right. exact Hin.
Qed.

Lemma strncat_whole (dest src : list Z) (n : Z) :
  ~ In 0 src -> Z.of_nat (length src) <= n ->
  strncat dest src n = dest ++ src.
Proof.
  intros H Hn. unfold strncat. rewrite c_str_no_nul by exact H.
  rewrite firstn_all2 by lia. reflexivity.
Qed.

Lemma hex_char_not_nul (d : Z) : 0 <= d -> hex_char d <> 0.
Proof. intros H. unfold hex_char. destruct (d <? 10); lia. Qed.

Lemma hex2_not_nul (v : Z) : 0 <= v -> ~ In 0 (hex2 v).
Proof.
  intros Hv [H | [H | []]]; revert H; apply hex_char_not_nul.
  - apply Z.div_pos; lia.
  - apply Z.mod_pos_bound. lia.
Qed.

Lemma field3_length (pad mid : Z) : length (field3 pad mid) = 3%nat.
Proof.
  unfold field3. destruct (mid <? 10); [reflexivity |].
  destruct (mid <? 100); reflexivity.
Qed.

Lemma field3_three_digits (pad pad' mid : Z) :
  100 <= mid -> field3 pad mid = field3 pad' mid.
Proof.
  intros H. unfold field3.
  replace (mid <? 10) with false by (symmetry; apply Z.ltb_ge; lia).
  replace (mid <? 100) with false by (symmetry; apply Z.ltb_ge; lia).
  reflexivity.
Qed.

Lemma writeNMEAcmd_line (o : SerialTxRx) (mid : Z) (args : list Z) :
  0 <= mid <= 999 -> Forall is_byte args -> ~ In 0 args ->
  Z.of_nat (length args) + 15 <= MAXBUFFERSIZE ->
  writeNMEAcmd sound_outlet o mid args = Sent (nmea_command 32 mid args).
Proof.
  intros Hmid Hargs Hnul Hlen. unfold writeNMEAcmd, nmea_command.
  rewrite fmt_d_3 by exact Hmid.
  change (bytes_of "$PSRF") with (36 :: [80; 83; 82; 70]).
  change (bytes_of "PSRF") with [80; 83; 82; 70].
  change (bytes_of ",") with [44]. change (bytes_of "$") with [36].
  change (bytes_of "*") with [42].
  unfold MAXBUFFERSIZE in Hlen.
  rewrite strncat_whole by (try exact Hnul; unfold MAXBUFFERSIZE; lia).
  replace (([36; 80; 83; 82; 70] ++ field3 32 mid ++ [44]) ++ args)
    with (36 :: [80; 83; 82; 70] ++ field3 32 mid ++ [44] ++ args)
    by (simpl; rewrite <- !app_assoc; reflexivity).
  assert (Lc : Z.of_nat (length ([80; 83; 82; 70] ++ field3 32 mid ++ [44] ++ args))
               = Z.of_nat (length args) + 8).
  { rewrite !length_app, field3_length. simpl length. lia. }
  assert (Hbytes : Forall is_byte
                     ([80; 83; 82; 70] ++ field3 32 mid ++ [44] ++ args)).
  { apply Forall_app. split.
    - repeat constructor; unfold is_byte; lia.
    - apply Forall_app. split; [apply field3_byte; unfold is_byte; lia |].
      apply Forall_app. split; [| exact Hargs].
      repeat constructor; unfold is_byte; lia. }
  assert (Hne : [80; 83; 82; 70] ++ field3 32 mid ++ [44] ++ args <> [])
    by discriminate.
  set (covered := [80; 83; 82; 70] ++ field3 32 mid ++ [44] ++ args) in *.
  clearbody covered.
  assert (Lt : Z.of_nat (length (36 :: covered)) = Z.of_nat (length args) + 9).
  { change (length (36 :: covered)) with (S (length covered)). lia. }
  assert (Hfit : fits (36 :: covered) = true).
  { unfold fits. apply Z.leb_le. rewrite Lt. unfold MAXBUFFERSIZE. lia. }
  rewrite Hfit. cbv iota beta delta [negb].
  assert (Hx : nmeaChecksum (store (payBuff o) 0 (36 :: covered)) 1
                 (Z.of_nat (length (36 :: covered))) = xor_all covered).
  { replace (Z.of_nat (length (36 :: covered)))
      with (1 + Z.of_nat (length covered)) by lia.
    apply nmeaChecksum_list; [exact Hne |].
    intros k Hk. replace (1 + Z.of_nat k) with (Z.of_nat (S k)) by lia.
    rewrite store_at_0
      by (change (length (36 :: covered)) with (S (length covered)); lia).
    reflexivity. }
  rewrite Hx.
  pose proof (xor_all_byte covered Hbytes) as Hv.
  rewrite fmt_0X_byte by exact Hv.
  set (trailer := [42] ++ hex2 (xor_all covered) ++ [CR; LF]).
  assert (Hn : ~ In 0 trailer).
  { unfold trailer. intros Hin. apply in_app_or in Hin.
    destruct Hin as [Hin | Hin].
    - simpl in Hin. destruct Hin as [Hin | []]. discriminate.
    - apply in_app_or in Hin. destruct Hin as [Hin | Hin].
      + revert Hin. apply hex2_not_nul. unfold is_byte in Hv. lia.
      + simpl in Hin. destruct Hin as [Hin | [Hin | []]]; discriminate. }
  assert (Ltr : length trailer = 5%nat) by reflexivity.
  rewrite strncat_whole by (try exact Hn; rewrite Ltr; unfold MAXBUFFERSIZE; lia).
  assert (Hfit2 : fits ((36 :: covered) ++ trailer) = true).
  { unfold fits. apply Z.leb_le. rewrite length_app, Ltr, Nat2Z.inj_add, Lt.
    unfold MAXBUFFERSIZE. lia. }
  rewrite Hfit2. cbv iota beta delta [negb].
  rewrite transmit_sound. reflexivity.
Qed.

(** C7, as the code has it.  For a message id between 0 and 999 and an
    argument text of bytes without NUL that leaves the line room in
    [payBuff], [writeNMEAcmd] emits [$PSRF], the id in a field of three
    characters padded on the left with spaces (as [%3d] does), a comma, the
    argument text unchanged, [*], the XOR of everything after [$] as two
    capital hexadecimal digits, CR and LF.  From id 100 on the field is the
    three decimal digits, which is also the zero-padded form. *)
Theorem C7_nmea_command_format :
  forall (o : SerialTxRx) (mid : Z) (args : list Z),
    0 <= mid <= 999 -> Forall is_byte args -> ~ In 0 args ->
    Z.of_nat (length args) + 15 <= MAXBUFFERSIZE ->
    writeNMEAcmd sound_outlet o mid args = Sent (nmea_command 32 mid args)
    /\ (100 <= mid ->
        writeNMEAcmd sound_outlet o mid args
          = Sent (nmea_command 48 mid args)).
Proof.
  intros o mid args Hmid Hargs Hnul Hlen.
  pose proof (writeNMEAcmd_line o mid args Hmid Hargs Hnul Hlen) as H.
  split; [exact H |]. intros H100. rewrite H.
  unfold nmea_command. rewrite (field3_three_digits 32 48 mid H100).
  reflexivity.
Qed.

Lemma C7_nmea_command_format_witness :
  writeNMEAcmd sound_outlet (fresh (feed [] Gap)) 100
    (bytes_of "0,9600,8,1,0")
  = Sent (bytes_of "$PSRF100,0,9600,8,1,0*0C" ++ [CR; LF]).
Proof.
  destruct (C7_nmea_command_format (fresh (feed [] Gap)) 100
              (bytes_of "0,9600,8,1,0")) as [_ H].
  - lia.
  - repeat constructor; unfold is_byte; simpl; lia.
  - simpl. intuition discriminate.
  - unfold MAXBUFFERSIZE. simpl. lia.
  - apply H. lia.
Defined.

(** C7 as stated fails for ids below 100: id 5 is sent as [$PSRF  5,], not
    as [$PSRF005,]. *)
Lemma C7_id_5_is_padded_with_spaces :
  exists wire,
    writeNMEAcmd sound_outlet (fresh (feed [] Gap)) 5 (bytes_of "1,2")
      = Sent wire
    /\ firstn 9 wire = bytes_of "$PSRF  5,"
    /\ firstn 9 wire <> bytes_of "$PSRF005,".
Proof.
  eexists. split; [vm_compute; reflexivity |].
  split; [reflexivity | discriminate].
Qed.

(** ** [readNMEAmsg] *)

Lemma synchNMEAmsg_on_start (fuel : nat) (patience : Z) (rest : list Z)
    (after : event) :
  0 < patience -> (2 <= fuel)%nat ->
  synchNMEAmsg fuel patience (feed (LF :: DOLAR :: rest) after)
    = Some (true, feed rest after).
Proof.
  intros Hp Hf. destruct fuel as [| [| fuel]]; try lia.
  unfold synchNMEAmsg.
  rewrite synch_loop_step by (try discriminate; exact Hp).
  rewrite read_one. unfold feed. simpl map. rewrite next_feed_cons.
  unfold synch_body. simpl.
  apply Z.ltb_lt in Hp. rewrite Hp. simpl.
  destruct fuel; reflexivity.
Qed.

(** Bytes stored one after the other make the same buffer as the run stored
    at once. *)
Lemma store_one_more (buf : buffer) (k : Z) (c : Z) (cs : list Z) (i : Z) :
  store (store buf k [c]) (k + 1) cs i = store buf k (c :: cs) i.
Proof.
  rewrite (store_cons buf k (c :: cs)) by discriminate.
  destruct cs as [| c' cs'].
  - rewrite store_nil. rewrite store_cons by discriminate. reflexivity.
  - rewrite (store_cons _ (k + 1)) by discriminate.
    rewrite (store_cons buf k [c]) by discriminate.
    cbn [length]. rewrite !Nat2Z.inj_succ.
    destruct (Z.leb_spec (k + 1) i) as [H1 | H1];
      destruct (Z.leb_spec k i) as [H2 | H2];
      destruct (Z.ltb_spec i (k + 1 + Z.succ (Z.of_nat (length cs')))) as [H3 | H3];
      destruct (Z.ltb_spec i (k + Z.succ (Z.succ (Z.of_nat (length cs'))))) as [H4 | H4];
      destruct (Z.ltb_spec i (k + Z.succ (Z.of_nat 0))) as [H5 | H5];
      cbn [andb]; try lia; try reflexivity.
    + replace (Z.to_nat (i - k)) with (S (Z.to_nat (i - (k + 1)))) by lia.
      reflexivity.
    + replace (Z.to_nat (i - k)) with 0%nat by lia. reflexivity.
Qed.

(** The [while] of [readNMEAmsg] over the characters that come before the
    Carriage Return: they are stored from [k] on and the loop stands before
    the Carriage Return. *)
Lemma nmea_loop_chars (q : list event) (after : event) :
  forall (chars : list Z) (fuel : nat) (k : Z) (buf : buffer),
    ~ In CR chars ->
    0 <= k -> k + Z.of_nat (length chars) <= MAXBUFFERSIZE - 1 ->
    exists buf',
      nmea_loop (length chars + fuel) k buf (mkPort (map Rx chars ++ q) after)
        = nmea_loop fuel (k + Z.of_nat (length chars)) buf' (mkPort q after)
      /\ forall i, buf' i = store buf k chars i.
Proof.
  induction chars as [| c cs IH]; intros fuel k buf Hcr Hk Hfit.
  - exists buf. simpl. rewrite Z.add_0_r. split; reflexivity.
  - assert (Hc : c <> CR) by (intros ->; apply Hcr; left; reflexivity).
    assert (Hcs : ~ In CR cs) by (intros H; apply Hcr; right; exact H).
    simpl length in *.
    destruct (IH fuel (k + 1) (store buf k [c]) Hcs ltac:(lia) ltac:(lia))
      as (buf' & Hrun & Hbuf).
    exists buf'. split.
    + change (S (length cs) + fuel)%nat with (S (length cs + fuel)).
      cbn [nmea_loop]. rewrite read_one.
      simpl map. simpl app. rewrite next_feed_cons.
      change (1 =? 1) with true. cbv iota.
      replace (store buf k [c] k) with c
        by (symmetry; rewrite <- (Z.add_0_r k) at 2;
            apply (store_inside buf k [c] 0); simpl; lia).
      apply Z.eqb_neq in Hc. rewrite Hc.
      replace (k <? MAXBUFFERSIZE - 1) with true
        by (symmetry; apply Z.ltb_lt; lia).
      rewrite Hrun. f_equal. lia.
    + intros i. rewrite Hbuf. apply store_one_more.
Qed.

(** At the Carriage Return the line is given status 2 when it has fewer than
    5 characters, and otherwise status 0 with its last three characters
    taken off. *)
Lemma nmea_loop_at_CR (fuel : nat) (n : Z) (buf : buffer) (q : list event)
    (after : event) :
  nmea_loop (S fuel) n buf (mkPort (Rx CR :: q) after) =
    let buf2 := store (store buf n [CR]) n [0] in
    if n <? 5 then Some (2, n, buf2, mkPort q after)
    else Some (0, n - 3, store buf2 (n - 3) [0], mkPort q after).
Proof.
  cbn [nmea_loop]. rewrite read_one. rewrite next_feed_cons.
  change (1 =? 1) with true. cbv iota.
  replace (store buf n [CR] n) with CR
    by (symmetry; rewrite <- (Z.add_0_r n) at 2;
        apply (store_inside buf n [CR] 0); simpl; lia).
  rewrite Z.eqb_refl. reflexivity.
Qed.

(** The loop over a whole line that ends with a Carriage Return. *)
Lemma nmea_loop_line (fuel : nat) (buf : buffer) (chars : list Z)
    (q : list event) (after : event) :
  ~ In CR chars ->
  Z.of_nat (length chars) <= MAXBUFFERSIZE - 1 ->
  (length chars < fuel)%nat ->
  exists buf',
    (forall i, buf' i = store buf 0 chars i)
    /\ nmea_loop fuel 0 buf (mkPort (map Rx (chars ++ [CR]) ++ q) after) =
         let n := Z.of_nat (length chars) in
         let buf2 := store (store buf' n [CR]) n [0] in
         if n <? 5 then Some (2, n, buf2, mkPort q after)
         else Some (0, n - 3, store buf2 (n - 3) [0], mkPort q after).
Proof.
  intros Hcr Hfit Hf.
  destruct (nmea_loop_chars (Rx CR :: q) after chars
              (fuel - length chars) 0 buf Hcr ltac:(lia) ltac:(lia))
    as (buf' & Hrun & Hbuf).
  exists buf'. split; [exact Hbuf |].
  replace (mkPort (map Rx (chars ++ [CR]) ++ q) after)
    with (mkPort (map Rx chars ++ Rx CR :: q) after)
    by (rewrite map_app, <- app_assoc; reflexivity).
  replace fuel with (length chars + (fuel - length chars))%nat at 1 by lia.
  rewrite Hrun. rewrite Z.add_0_l.
  destruct (fuel - length chars)%nat as [| f] eqn:E; [lia |].
  apply nmea_loop_at_CR.
Qed.

Lemma store_byte_other (buf : buffer) (off c i : Z) :
  i <> off -> store buf off [c] i = buf i.
Proof. intros H. apply store_outside. simpl length. lia. Qed.

Lemma contents_pointwise (buf : buffer) (l : list Z) :
  (forall k, (k < length l)%nat -> buf (Z.of_nat k) = nth k l 0) ->
  contents buf (Z.of_nat (length l)) = l.
Proof.
  intros H. unfold contents. rewrite Nat2Z.id.
  transitivity (map (fun i => nth i l 0) (seq 0 (length l)));
    [| apply map_nth_seq].
  apply map_ext_in. intros i Hi. apply in_seq in Hi. apply H. lia.
Qed.

(** C8.  When, after the synchronisation on Line Feed and [$], fewer than 5
    characters precede the Carriage Return, [readNMEAmsg] returns status 2;
    [payloadLen] is the number of those characters and the line is left just
    after the Carriage Return. *)
Theorem C8_short_nmea_line :
  forall (fuel : nat) (patience : Z) (o : SerialTxRx) (chars : list Z)
         (q : list event) (after : event),
    synchNMEAmsg fuel patience (hSerial o)
      = Some (true, mkPort (map Rx (chars ++ [CR]) ++ q) after) ->
    ~ In CR chars -> Z.of_nat (length chars) < 5 -> (5 <= fuel)%nat ->
    exists o',
      readNMEAmsg fuel patience o = Some (2, o')
      /\ payloadLen o' = Z.of_nat (length chars)
      /\ hSerial o' = mkPort q after.
Proof.
  intros fuel patience o chars q after Hs Hcr Hlen Hf.
  destruct (nmea_loop_line fuel (payBuff o) chars q after Hcr)
    as (buf' & _ & Hrun); [unfold MAXBUFFERSIZE; lia | lia |].
  cbv zeta in Hrun. apply Z.ltb_lt in Hlen. rewrite Hlen in Hrun.
  unfold readNMEAmsg. rewrite Hs, Hrun.
  change (2 =? 0) with false. cbv iota.
  eexists. split; [reflexivity |]. split; reflexivity.
Qed.

Lemma C8_short_nmea_line_witness :
  exists o',
    readNMEAmsg 5 1 (fresh (feed (LF :: bytes_of "$ABC" ++ [CR]) Gap))
      = Some (2, o')
    /\ payloadLen o' = 3
    /\ hSerial o' = mkPort [] Gap.
Proof.
  apply (C8_short_nmea_line 5 1
           (fresh (feed (LF :: bytes_of "$ABC" ++ [CR]) Gap))
           (bytes_of "ABC") [] Gap).
  - reflexivity.
  - simpl. intuition discriminate.
  - simpl. lia.
  - lia.
Defined.

(** [%x] reads the two capital hexadecimal digits of a byte back. *)
Lemma scan_hex_hex2 (v : Z) :
  is_byte v -> scan_hex (c_str (hex2 v)) = Some v.
Proof.
  intros Hv.
  pose proof (byte_cases (fun v => scan_hex_gives (hex2 v) v)
                ltac:(vm_compute; reflexivity) v Hv) as H.
  unfold scan_hex_gives in H.
  destruct (scan_hex (c_str (hex2 v))); [| discriminate].
  apply Z.eqb_eq in H. congruence.
Qed.

Lemma hex_char_not_CR (d : Z) : 0 <= d -> hex_char d <> CR.
Proof. intros H. unfold hex_char, CR. destruct (d <? 10); lia. Qed.

Lemma hex2_not_CR (v : Z) : 0 <= v -> ~ In CR (hex2 v).
Proof.
  intros Hv [H | [H | []]]; revert H; apply hex_char_not_CR.
  - apply Z.div_pos; lia.
  - apply Z.mod_pos_bound. lia.
Qed.

(** C9, as the code has it.  [readNMEAmsg] does not look at the character
    that stands three places before the Carriage Return.  Whatever that
    character [x] is, a line of at most MAXBUFFERSIZE - 1 characters made of
    a body of at least two bytes, then [x], then the two capital hexadecimal
    digits of the XOR of the body (the characters before the last three, [x]
    not among them), is accepted with status 0; the body alone is kept, its
    length in [payloadLen], and [x] and the two digits are taken off. *)
Theorem C9_star_is_not_checked :
  forall (fuel : nat) (patience : Z) (o : SerialTxRx) (body : list Z)
         (x : Z) (q : list event) (after : event),
    synchNMEAmsg fuel patience (hSerial o)
      = Some (true,
              mkPort (map Rx ((body ++ x :: hex2 (xor_all body)) ++ [CR]) ++ q)
                     after) ->
    Forall is_byte body -> ~ In CR body -> x <> CR ->
    2 <= Z.of_nat (length body) ->
    Z.of_nat (length body) + 3 <= MAXBUFFERSIZE - 1 ->
    (length body + 4 <= fuel)%nat ->
    exists o',
      readNMEAmsg fuel patience o = Some (0, o')
      /\ payloadLen o' = Z.of_nat (length body)
      /\ contents (payBuff o') (payloadLen o') = body
      /\ hSerial o' = mkPort q after.
Proof.
  intros fuel patience o body x q after Hs Hb Hcr Hx Hlen Hfit Hf.
  pose proof (xor_all_byte body Hb) as Hv.
  set (v := xor_all body) in *.
  set (chars := body ++ x :: hex2 v) in *.
  assert (Lc : length chars = (length body + 3)%nat)
    by (unfold chars; rewrite length_app; simpl; lia).
  assert (Hcr' : ~ In CR chars).
  { unfold chars. intros Hin. apply in_app_or in Hin.
    destruct Hin as [Hin | [Hin | Hin]]; [contradiction | congruence |].
    revert Hin. apply hex2_not_CR. unfold is_byte in Hv. lia. }
  destruct (nmea_loop_line fuel (payBuff o) chars q after Hcr')
    as (buf' & Hbuf & Hrun); [lia | lia |].
  cbv zeta in Hrun. rewrite Lc in Hrun.
  replace (Z.of_nat (length body + 3) <? 5) with false in Hrun
    by (symmetry; apply Z.ltb_ge; lia).
  replace (Z.of_nat (length body + 3) - 3) with (Z.of_nat (length body))
    in Hrun by lia.
  set (n := Z.of_nat (length body + 3)) in *.
  set (len := Z.of_nat (length body)) in *.
  set (bufR := store (store (store buf' n [CR]) n [0]) len [0]) in *.
  assert (Hlow : forall i, 0 <= i < n -> i <> len ->
                           bufR i = nth (Z.to_nat i) chars 0).
  { intros i Hi Hne. unfold bufR.
    rewrite !store_byte_other by lia. rewrite Hbuf.
    replace i with (Z.of_nat (Z.to_nat i)) at 1 by lia.
    apply store_at_0. lia. }
  assert (Hbody : forall k, (k < length body)%nat ->
                            bufR (Z.of_nat k) = nth k body 0).
  { intros k Hk. rewrite Hlow by lia. rewrite Nat2Z.id.
    unfold chars. apply app_nth1. exact Hk. }
  assert (H1 : bufR (len + 1) = hex_char (v / 16)).
  { rewrite Hlow by lia. unfold chars, len.
    rewrite app_nth2 by lia.
    replace (Z.to_nat (Z.of_nat (length body) + 1) - length body)%nat
      with 1%nat by lia.
    reflexivity. }
  assert (H2 : bufR (len + 2) = hex_char (v mod 16)).
  { rewrite Hlow by lia. unfold chars, len.
    rewrite app_nth2 by lia.
    replace (Z.to_nat (Z.of_nat (length body) + 2) - length body)%nat
      with 2%nat by lia.
    reflexivity. }
  assert (Hck : nmeaChecksum bufR 0 len = v).
  { unfold v, len. rewrite <- (Z.add_0_l (Z.of_nat (length body))).
    apply nmeaChecksum_list.
    - intros E. unfold len in Hlen. rewrite E in Hlen. simpl in Hlen. lia.
    - intros k Hk. rewrite Z.add_0_l. apply Hbody. exact Hk. }
  exists (mkSerial (mkPort q after) (paylenBuff o) bufR len).
  split; [| split; [reflexivity | split; [| reflexivity]]].
  - unfold readNMEAmsg. rewrite Hs. fold chars. rewrite Hrun.
    change (0 =? 0) with true. cbv iota.
    rewrite Hck, H1, H2. fold (hex2 v).
    rewrite scan_hex_hex2 by exact Hv. rewrite Z.eqb_refl. reflexivity.
  - simpl payBuff. simpl payloadLen. unfold len.
    apply contents_pointwise. exact Hbody.
Qed.

Lemma C9_star_is_not_checked_witness :
  ~ In CHK (bytes_of "ABCD#04")
  /\ exists o',
       readNMEAmsg 8 1 (fresh (feed (LF :: bytes_of "$ABCD#04" ++ [CR]) Gap))
         = Some (0, o')
       /\ payloadLen o' = 4
       /\ contents (payBuff o') (payloadLen o') = bytes_of "ABCD"
       /\ hSerial o' = mkPort [] Gap.
Proof.
  split; [simpl; unfold CHK; intuition discriminate |].
  apply (C9_star_is_not_checked 8 1
           (fresh (feed (LF :: bytes_of "$ABCD#04" ++ [CR]) Gap))
           (bytes_of "ABCD") 35 [] Gap).
  - reflexivity.
  - repeat constructor; unfold is_byte; simpl; lia.
  - simpl. intuition discriminate.
  - discriminate.
  - simpl. lia.
  - unfold MAXBUFFERSIZE. simpl. lia.
  - simpl. lia.
Defined.

(** C9 as stated fails.  The line [ABCD#27] holds no [*], has 7 characters,
    and its last two are the capital hexadecimal digits of the XOR of all the
    characters before them, [#] included; [readNMEAmsg] returns 1, because
    the XOR it computes stops before [#].  And [long_line] holds no [*], ends
    with the digits of the XOR of all its other characters (which is also
    the XOR of those before the last three), and has MAXBUFFERSIZE
    characters: [readNMEAmsg] gives it up with status 3 before its Carriage
    Return is read. *)
Lemma C9_digits_of_the_whole_line_are_refused :
  (~ In CHK (bytes_of "ABCD#27")
   /\ hex2 (xor_all (bytes_of "ABCD#")) = bytes_of "27"
   /\ option_map fst
        (readNMEAmsg 10 1
           (fresh (feed (LF :: bytes_of "$ABCD#27" ++ [CR]) Gap)))
      = Some 1)
  /\ (~ In CHK long_line
      /\ Z.of_nat (length long_line) = MAXBUFFERSIZE
      /\ long_line = (repeat 65 2049 ++ [0]) ++ hex2 (xor_all (repeat 65 2049 ++ [0]))
      /\ xor_all (repeat 65 2049 ++ [0]) = xor_all (repeat 65 2049)
      /\ option_map fst
           (readNMEAmsg 2060 1
              (fresh (feed (LF :: DOLAR :: long_line ++ [CR]) Gap)))
         = Some 3).
Proof.
  split; [split; [| split] | split; [| split; [| split; [| split]]]].
  - simpl. unfold CHK. intuition discriminate.
  - vm_compute. reflexivity.
  - vm_compute. reflexivity.
  - unfold long_line, CHK. intros H. apply in_app_or in H.
    destruct H as [H | H].
    + apply repeat_spec in H. discriminate.
    + simpl in H. intuition discriminate.
  - vm_compute. reflexivity.
  - vm_compute. reflexivity.
  - vm_compute. reflexivity.
  - vm_compute. reflexivity.
Qed.

(** * Further properties *)

(** ** Synchronisation on a stream that holds a start sequence *)

Section FirstStartSequence.

Variables m1 m2 : Z.
Hypothesis markers_differ : m1 <> m2.

Lemma junk_cons (b : Z) (bs : list Z) :
  junk m1 m2 (b :: bs)
    = (if (b =? m1) || (b =? m2) then 0 else 1) + junk m1 m2 bs.
Proof.
  unfold junk. simpl filter.
  destruct ((b =? m1) || (b =? m2)); simpl negb; cbv iota; simpl length; lia.
Qed.

Lemma junk_nonneg (bs : list Z) : 0 <= junk m1 m2 bs.
Proof. unfold junk. lia. Qed.

Lemma has_pair_tail (b : Z) (bs : list Z) :
  has_pair m1 m2 (b :: bs) = false -> has_pair m1 m2 bs = false.
Proof.
  simpl. destruct bs as [| c bs]; [reflexivity |].
  intros H. apply orb_false_iff in H. apply H.
Qed.

Lemma has_pair_head (bs : list Z) :
  has_pair m1 m2 (m1 :: bs) = false -> hd m1 bs <> m2.
Proof.
  destruct bs as [| c bs]; [intros _; exact markers_differ |].
  simpl. rewrite Z.eqb_refl. intros H E. subst c.
  rewrite Z.eqb_refl in H. discriminate.
Qed.

(** The bytes before the first start sequence are skipped, each byte that is
    not a marker for one unit of patience, and the loop ends synchronised
    just after the sequence. *)
Lemma synch_reaches_start (q : list event) (after : event) :
  forall (pre : list Z) (fuel : nat) (state patience : Z),
    state = 1 \/ (state = 2 /\ hd m1 pre <> m2) ->
    has_pair m1 m2 pre = false ->
    junk m1 m2 pre < patience ->
    (length pre + 2 <= fuel)%nat ->
    synch_loop m1 m2 fuel state patience
      (mkPort (map Rx pre ++ Rx m1 :: Rx m2 :: q) after)
      = Some (3, patience - junk m1 m2 pre, mkPort q after).
Proof.
  assert (E12 : (m1 =? m2) = false) by (apply Z.eqb_neq; exact markers_differ).
  induction pre as [| b pre IH]; intros fuel state patience Hst Hnp Hj Hf.
  - change (junk m1 m2 []) with 0 in *. rewrite Z.sub_0_r.
    simpl length in Hf. simpl map. simpl app.
    destruct fuel as [| [| fuel]]; try lia.
    rewrite synch_loop_step;
      [| destruct Hst as [-> | [-> _]]; discriminate | lia].
    rewrite read_one, next_feed_cons. unfold synch_body. simpl hd.
    change (1 =? 1) with true. cbv iota. rewrite Z.eqb_refl.
    assert (S2 : (if state =? 1 then (2, patience)
                  else if state =? 2 then (state, patience)
                       else (state, patience)) = (2, patience))
      by (destruct Hst as [-> | [-> _]]; reflexivity).
    rewrite S2.
    rewrite synch_loop_step by (try discriminate; lia).
    rewrite read_one, next_feed_cons. unfold synch_body. simpl hd.
    change (1 =? 1) with true. change (2 =? 1) with false.
    change (2 =? 2) with true. cbv iota.
    replace (m2 =? m1) with false
      by (symmetry; apply Z.eqb_neq; congruence).
    rewrite Z.eqb_refl.
    apply synch_loop_exit. left. reflexivity.
  - pose proof (junk_nonneg pre) as Hj0.
    rewrite junk_cons in Hj. rewrite junk_cons.
    simpl length in Hf. destruct fuel as [| fuel]; [lia |].
    pose proof (has_pair_tail b pre Hnp) as Hnp'.
    simpl map. simpl app.
    rewrite synch_loop_step;
      [| destruct Hst as [-> | [-> _]]; discriminate
       | destruct ((b =? m1) || (b =? m2)); lia].
    rewrite read_one, next_feed_cons. unfold synch_body. simpl hd.
    change (1 =? 1) with true. cbv iota.
    destruct (b =? m1) eqn:E1.
    + apply Z.eqb_eq in E1. subst b. simpl orb in *. cbv iota in *.
      assert (S2 : (if state =? 1 then (2, patience)
                    else if state =? 2 then (state, patience)
                         else (state, patience)) = (2, patience))
        by (destruct Hst as [-> | [-> _]]; reflexivity).
      rewrite S2.
      rewrite (IH fuel 2 patience
                 (or_intror (conj eq_refl (has_pair_head pre Hnp))) Hnp'
                 ltac:(lia) ltac:(lia)).
      same_patience.
    + destruct (b =? m2) eqn:E2.
      * apply Z.eqb_eq in E2. subst b. simpl orb in *. cbv iota in *.
        destruct Hst as [-> | [-> Hhd]]; [| simpl in Hhd; congruence].
        change (1 =? 1) with true. cbv iota.
        rewrite (IH fuel 1 patience (or_introl eq_refl) Hnp'
                   ltac:(lia) ltac:(lia)).
        same_patience.
      * simpl orb in *. cbv iota in *.
        assert (S1 : (if state =? 1 then (state, patience - 1)
                      else if state =? 2 then (1, patience - 1)
                           else (state, patience)) = (1, patience - 1))
          by (destruct Hst as [-> | [-> _]]; reflexivity).
        rewrite S1.
        rewrite (IH fuel 1 (patience - 1) (or_introl eq_refl) Hnp'
                   ltac:(lia) ltac:(lia)).
        same_patience.
Qed.

(** When the bytes that are not markers use the patience up before a start
    sequence comes, the loop ends unsynchronised with no patience left. *)
Lemma synch_gives_up (q : list event) (after : event) :
  forall (pre : list Z) (fuel : nat) (state patience : Z),
    state = 1 \/ (state = 2 /\ hd m1 pre <> m2) ->
    has_pair m1 m2 pre = false ->
    0 <= patience <= junk m1 m2 pre ->
    (length pre <= fuel)%nat ->
    exists st p',
      synch_loop m1 m2 fuel state patience (mkPort (map Rx pre ++ q) after)
        = Some (st, 0, p')
      /\ st <> 3.
Proof.
  induction pre as [| b pre IH]; intros fuel state patience Hst Hnp Hj Hf.
  - change (junk m1 m2 []) with 0 in Hj. assert (patience = 0) by lia. subst.
    exists state, (mkPort (map Rx [] ++ q) after). split.
    + apply synch_loop_exit. right. lia.
    + destruct Hst as [-> | [-> _]]; discriminate.
  - destruct (Z.eq_dec patience 0) as [-> | Hne].
    { exists state, (mkPort (map Rx (b :: pre) ++ q) after). split.
      - apply synch_loop_exit. right. lia.
      - destruct Hst as [-> | [-> _]]; discriminate. }
    rewrite junk_cons in Hj.
    simpl length in Hf. destruct fuel as [| fuel]; [lia |].
    pose proof (has_pair_tail b pre Hnp) as Hnp'.
    simpl map. simpl app.
    rewrite synch_loop_step;
      [| destruct Hst as [-> | [-> _]]; discriminate | lia].
    rewrite read_one, next_feed_cons. unfold synch_body. simpl hd.
    change (1 =? 1) with true. cbv iota.
    destruct (b =? m1) eqn:E1.
    + apply Z.eqb_eq in E1. subst b. simpl orb in *. cbv iota in *.
      assert (S2 : (if state =? 1 then (2, patience)
                    else if state =? 2 then (state, patience)
                         else (state, patience)) = (2, patience))
        by (destruct Hst as [-> | [-> _]]; reflexivity).
      rewrite S2.
      apply (IH fuel 2 patience
               (or_intror (conj eq_refl (has_pair_head pre Hnp))) Hnp'
               ltac:(lia) ltac:(lia)).
    + destruct (b =? m2) eqn:E2.
      * apply Z.eqb_eq in E2. subst b. simpl orb in *. cbv iota in *.
        destruct Hst as [-> | [-> Hhd]]; [| simpl in Hhd; congruence].
        change (1 =? 1) with true. cbv iota.
        apply (IH fuel 1 patience (or_introl eq_refl) Hnp'
                 ltac:(lia) ltac:(lia)).
      * simpl orb in *. cbv iota in *.
        assert (S1 : (if state =? 1 then (state, patience - 1)
                      else if state =? 2 then (1, patience - 1)
                           else (state, patience)) = (1, patience - 1))
          by (destruct Hst as [-> | [-> _]]; reflexivity).
        rewrite S1.
        apply (IH fuel 1 (patience - 1) (or_introl eq_refl) Hnp'
                 ltac:(lia) ltac:(lia)).
Qed.

End FirstStartSequence.

(** X1.  [synchOSPmsg] on a stream whose first START1 START2 pair comes after
    the bytes [pre]: when fewer bytes of [pre] differ from both markers than
    there is patience, the call returns true and leaves the line just after
    the pair; otherwise (the patience not being negative) it returns false.
    Marker bytes in [pre] cost nothing. *)
Theorem osp_sync_finds_first_start_sequence :
  forall (pre : list Z) (q : list event) (after : event) (patience : Z)
         (fuel : nat),
    has_pair START1 START2 pre = false ->
    (length pre + 2 <= fuel)%nat ->
    (junk START1 START2 pre < patience ->
     synchOSPmsg fuel patience
       (mkPort (map Rx pre ++ Rx START1 :: Rx START2 :: q) after)
       = Some (true, mkPort q after))
    /\ (0 <= patience <= junk START1 START2 pre ->
        exists p',
          synchOSPmsg fuel patience
            (mkPort (map Rx pre ++ Rx START1 :: Rx START2 :: q) after)
            = Some (false, p')).
Proof.
  intros pre q after patience fuel Hnp Hf. split.
  - intros Hj. unfold synchOSPmsg.
    rewrite (synch_reaches_start START1 START2 ltac:(discriminate) q after
               pre fuel 1 patience (or_introl eq_refl) Hnp Hj Hf).
    reflexivity.
  - intros Hj. unfold synchOSPmsg.
    destruct (synch_gives_up START1 START2 ltac:(discriminate)
                (Rx START1 :: Rx START2 :: q) after pre fuel 1 patience
                (or_introl eq_refl) Hnp Hj ltac:(lia)) as (st & p' & H & Hst).
    exists p'. rewrite H. simpl. apply Z.eqb_neq in Hst. rewrite Hst.
    reflexivity.
Qed.

Lemma osp_sync_finds_first_start_sequence_witness :
  synchOSPmsg 5 2 (feed [7; START2; START1; START1; START2; 9] Gap)
    = Some (true, feed [9] Gap)
  /\ exists p',
       synchOSPmsg 5 1 (feed [7; START2; START1; START1; START2; 9] Gap)
         = Some (false, p').
Proof.
  destruct (osp_sync_finds_first_start_sequence
              [7; START2; START1] [Rx 9] Gap 2 5) as [H _];
    [reflexivity | simpl; lia |].
  destruct (osp_sync_finds_first_start_sequence
              [7; START2; START1] [Rx 9] Gap 1 5) as [_ H'];
    [reflexivity | simpl; lia |].
  split.
  - apply H. vm_compute. reflexivity.
  - apply H'. vm_compute. split; discriminate.
Defined.

(** X2.  [synchNMEAmsg] on a stream whose first Line Feed and [$] pair comes
    after the bytes [pre]: it returns true, with the line left just after
    the pair, when fewer bytes of [pre] differ from both markers than there
    is patience, and false otherwise. *)
Theorem nmea_sync_finds_first_start_sequence :
  forall (pre : list Z) (q : list event) (after : event) (patience : Z)
         (fuel : nat),
    has_pair LF DOLAR pre = false ->
    (length pre + 2 <= fuel)%nat ->
    (junk LF DOLAR pre < patience ->
     synchNMEAmsg fuel patience
       (mkPort (map Rx pre ++ Rx LF :: Rx DOLAR :: q) after)
       = Some (true, mkPort q after))
    /\ (0 <= patience <= junk LF DOLAR pre ->
        exists p',
          synchNMEAmsg fuel patience
            (mkPort (map Rx pre ++ Rx LF :: Rx DOLAR :: q) after)
            = Some (false, p')).
Proof.
  intros pre q after patience fuel Hnp Hf. split.
  - intros Hj. unfold synchNMEAmsg.
    rewrite (synch_reaches_start LF DOLAR ltac:(discriminate) q after
               pre fuel 1 patience (or_introl eq_refl) Hnp Hj Hf).
    reflexivity.
  - intros Hj. unfold synchNMEAmsg.
    destruct (synch_gives_up LF DOLAR ltac:(discriminate)
                (Rx LF :: Rx DOLAR :: q) after pre fuel 1 patience
                (or_introl eq_refl) Hnp Hj ltac:(lia)) as (st & p' & H & Hst).
    exists p'. rewrite H. simpl. apply Z.eqb_neq in Hst. rewrite Hst.
    reflexivity.
Qed.

Lemma nmea_sync_finds_first_start_sequence_witness :
  synchNMEAmsg 6 5 (feed (bytes_of "*4F" ++ [CR; LF; DOLAR; 71]) Gap)
    = Some (true, feed [71] Gap)
  /\ exists p',
       synchNMEAmsg 6 4 (feed (bytes_of "*4F" ++ [CR; LF; DOLAR; 71]) Gap)
         = Some (false, p').
Proof.
  destruct (nmea_sync_finds_first_start_sequence
              (bytes_of "*4F" ++ [CR]) [Rx 71] Gap 5 6) as [H _];
    [reflexivity | simpl; lia |].
  destruct (nmea_sync_finds_first_start_sequence
              (bytes_of "*4F" ++ [CR]) [Rx 71] Gap 4 6) as [_ H'];
    [reflexivity | simpl; lia |].
  split.
  - apply H. vm_compute. reflexivity.
  - apply H'. vm_compute. split; discriminate.
Defined.

(** ** [readOSPmsg] on a stream that holds a frame *)

(** When the payload loop has gathered the payload [q] and the two bytes of
    the checksum [chk], the call ends with the comparison of [chk] with the
    checksum of [q]. *)
Lemma readOSPpayload_checked (fuel : nat) (o : SerialTxRx) (lenBuff : buffer)
    (p p' : port) (q : list Z) (chk : Z) (buf' : buffer) :
  q <> [] -> 0 <= chk < 65536 ->
  payload_loop fuel (Z.of_nat (length q)) 0 (payBuff o) p
    = Some (Z.of_nat (length q) + 2, buf', p') ->
  (forall k, (k < length q + 2)%nat ->
             buf' (Z.of_nat k) = nth k (q ++ [chk / 256; chk mod 256]) 0) ->
  readOSPpayload fuel (Z.of_nat (length q)) lenBuff o p
    = Some (if checksum15 q =? chk then 0 else 1,
            mkSerial p' lenBuff buf' (Z.of_nat (length q)))
  /\ contents buf' (Z.of_nat (length q)) = q.
Proof.
  intros Hq Hchk Hloop Hbuf.
  assert (Hbody : forall k, (k < length q)%nat -> buf' (Z.of_nat k) = nth k q 0).
  { intros k Hk. rewrite Hbuf by lia. apply app_nth1. exact Hk. }
  split; [| apply contents_pointwise; exact Hbody].
  unfold readOSPpayload. rewrite Hloop.
  replace (Z.of_nat (length q) + 2 <? Z.of_nat (length q) + 2) with false
    by (symmetry; apply Z.ltb_ge; lia).
  assert (Hcs : ospChecksum buf' 0 (Z.of_nat (length q)) = checksum15 q).
  { rewrite <- (Z.add_0_l (Z.of_nat (length q))).
    apply ospChecksum_list; [exact Hq |].
    intros k Hk. rewrite Z.add_0_l. apply Hbody. exact Hk. }
  assert (H1 : buf' (Z.of_nat (length q)) = chk / 256).
  { rewrite Hbuf by lia. rewrite app_nth2 by lia.
    rewrite Nat.sub_diag. reflexivity. }
  assert (H2 : buf' (Z.of_nat (length q) + 1) = chk mod 256).
  { replace (Z.of_nat (length q) + 1) with (Z.of_nat (S (length q))) by lia.
    rewrite Hbuf by lia. rewrite app_nth2 by lia.
    replace (S (length q) - length q)%nat with 1%nat by lia. reflexivity. }
  rewrite Hcs, H1, H2, be16_round_trip by exact Hchk.
  destruct (checksum15 q =? chk); reflexivity.
Qed.

(** A frame that comes after bytes [pre] without a start sequence, and
    before anything at all. *)
Lemma readOSPmsg_framed (fuel : nat) (patience : Z) (o : SerialTxRx)
    (pre q : list Z) (chk : Z) (tail : list event) (after : event) :
  let len := Z.of_nat (length q) in
  hSerial o
    = mkPort (map Rx (pre ++ START1 :: START2 :: len / 256 :: len mod 256
                          :: q ++ [chk / 256; chk mod 256]) ++ tail) after ->
  has_pair START1 START2 pre = false ->
  junk START1 START2 pre < patience ->
  (length pre + 2 <= fuel)%nat ->
  0 < len < MAXBUFFERSIZE - 3 ->
  0 <= chk < 65536 ->
  exists o',
    readOSPmsg fuel patience o
      = Some (if checksum15 q =? chk then 0 else 1, o')
    /\ payloadLen o' = len
    /\ contents (payBuff o') len = q
    /\ hSerial o' = mkPort tail after.
Proof.
  intros len Hline Hnp Hj Hf Hlen Hchk.
  assert (Hq : q <> []) by (intros ->; unfold len in Hlen; simpl in Hlen; lia).
  set (data := q ++ [chk / 256; chk mod 256]) in *.
  assert (Hs : synchOSPmsg fuel patience (hSerial o)
               = Some (true,
                       mkPort (Rx (len / 256) :: Rx (len mod 256)
                                 :: map Rx data ++ tail) after)).
  { rewrite Hline. unfold synchOSPmsg.
    replace (map Rx (pre ++ START1 :: START2 :: len / 256 :: len mod 256
                         :: data) ++ tail)
      with (map Rx pre ++ Rx START1 :: Rx START2
              :: Rx (len / 256) :: Rx (len mod 256) :: map Rx data ++ tail)
      by (rewrite map_app, <- app_assoc; reflexivity).
    rewrite (synch_reaches_start START1 START2 ltac:(discriminate) _ after
               pre fuel 1 patience (or_introl eq_refl) Hnp Hj Hf).
    reflexivity. }
  rewrite (readOSPmsg_after_length fuel patience o _
             (mkPort (map Rx data ++ tail) after)
             (len / 256) (len mod 256) Hs);
    [| reflexivity | apply Z.mod_pos_bound; lia].
  cbv zeta. rewrite <- Z.div_mod by lia.
  replace ((0 <? len) && (len <? MAXBUFFERSIZE - 3)) with true
    by (symmetry; apply andb_true_iff; split; apply Z.ltb_lt; lia).
  destruct fuel as [| fuel]; [lia |].
  assert (Hr : read (mkPort (map Rx data ++ tail) after) (len + 2 - 0)
               = (len + 2, data, mkPort tail after)).
  { unfold data, len. destruct q as [| b q']; [congruence |].
    replace (Z.of_nat (length (b :: q')) + 2 - 0)
      with (Z.of_nat (length (b :: q' ++ [chk / 256; chk mod 256])))
      by (simpl length; rewrite length_app; simpl length; lia).
    change ((b :: q') ++ [chk / 256; chk mod 256])
      with (b :: q' ++ [chk / 256; chk mod 256]).
    rewrite read_feed. f_equal. f_equal.
    simpl length. rewrite length_app. simpl length. lia. }
  assert (Hloop : payload_loop (S fuel) len 0 (payBuff o)
                    (mkPort (map Rx data ++ tail) after)
                  = Some (len + 2, store (payBuff o) 0 data, mkPort tail after)).
  { rewrite (payload_loop_step fuel len 0 _ _ _ _ _ Hr).
    replace (len + 2 <=? 0 + (len + 2)) with true
      by (symmetry; apply Z.leb_le; lia).
    rewrite orb_true_r. reflexivity. }
  destruct (readOSPpayload_checked (S fuel) o
              (store (paylenBuff o) 0 [len / 256; len mod 256])
              _ _ q chk _ Hq Hchk Hloop) as [Hres Hcont].
  { intros k Hk. apply store_at_0. unfold data. rewrite length_app.
    simpl length. lia. }
  eexists. split; [exact Hres |].
  split; [reflexivity |]. split; [exact Hcont | reflexivity].
Qed.

(** X3.  [readOSPmsg] neither reads nor checks what follows the checksum of
    a frame, and skips what precedes its start sequence.  For a frame with a
    payload [q] of a valid length and a 16-bit checksum field [chk], after
    bytes [pre] that hold no start sequence and of which fewer than
    [patience] are not markers, and before any events [tail] (the end
    sequence or not): the status is 0 when [chk] is the checksum of [q] and
    1 otherwise, [q] is left in [payBuff], and the line is left just after
    the checksum. *)
Theorem osp_frame_is_read_whatever_surrounds_it :
  forall (fuel : nat) (patience : Z) (o : SerialTxRx) (pre q : list Z)
         (chk : Z) (tail : list event) (after : event),
    hSerial o
      = mkPort (map Rx (pre ++ START1 :: START2
                            :: Z.of_nat (length q) / 256
                            :: Z.of_nat (length q) mod 256
                            :: q ++ [chk / 256; chk mod 256]) ++ tail) after ->
    has_pair START1 START2 pre = false ->
    junk START1 START2 pre < patience ->
    (length pre + 2 <= fuel)%nat ->
    0 < Z.of_nat (length q) < MAXBUFFERSIZE - 3 ->
    0 <= chk < 65536 ->
    exists o',
      readOSPmsg fuel patience o
        = Some (if checksum15 q =? chk then 0 else 1, o')
      /\ payloadLen o' = Z.of_nat (length q)
      /\ contents (payBuff o') (Z.of_nat (length q)) = q
      /\ hSerial o' = mkPort tail after.
Proof.
  intros fuel patience o pre q chk tail after.
  apply (readOSPmsg_framed fuel patience o pre q chk tail after).
Qed.

Lemma osp_frame_is_read_whatever_surrounds_it_witness :
  exists o',
    readOSPmsg 4 2
      (fresh (mkPort (map Rx ([7; START2] ++ [START1; START2; 0; 2; 5; 6;
                                              0; 11]) ++ [Err; Rx 1]) Gap))
      = Some (0, o')
    /\ payloadLen o' = 2
    /\ contents (payBuff o') 2 = [5; 6]
    /\ hSerial o' = mkPort [Err; Rx 1] Gap.
Proof.
  apply (osp_frame_is_read_whatever_surrounds_it 4 2
           (fresh (mkPort (map Rx ([7; START2] ++ [START1; START2; 0; 2; 5; 6;
                                                   0; 11]) ++ [Err; Rx 1]) Gap))
           [7; START2] [5; 6] 11 [Err; Rx 1] Gap).
  - reflexivity.
  - reflexivity.
  - vm_compute. reflexivity.
  - simpl. lia.
  - unfold MAXBUFFERSIZE. simpl. lia.
  - lia.
Defined.

Lemma osp_wire_shape (p : list Z) (chk : Z) (rest : list Z) :
  osp_wire p chk ++ rest
    = [] ++ START1 :: START2 :: Z.of_nat (length p) / 256
        :: Z.of_nat (length p) mod 256
        :: (p ++ [chk / 256; chk mod 256]) ++ END1 :: END2 :: rest.
Proof.
  unfold osp_wire. simpl. rewrite <- !app_assoc. reflexivity.
Qed.

(** X4.  Two frames that arrive back to back are read by two calls.  The
    first call leaves the line before the end sequence of the first frame;
    END1 and END2 are then skipped by the synchronisation of the second
    call, for one unit of patience each: with a patience above 2 the second
    call returns the second payload, and with a patience from 0 to 2 it
    returns status 6 although a valid frame is waiting. *)
Theorem osp_two_frames_in_a_row :
  forall (fuel : nat) (patience1 patience2 : Z) (o : SerialTxRx)
         (p1 p2 : list Z) (after : event),
    hSerial o
      = feed (osp_wire p1 (checksum15 p1) ++ osp_wire p2 (checksum15 p2))
             after ->
    Forall is_byte p1 -> Forall is_byte p2 ->
    0 < Z.of_nat (length p1) < MAXBUFFERSIZE - 3 ->
    0 < Z.of_nat (length p2) < MAXBUFFERSIZE - 3 ->
    0 < patience1 -> (4 <= fuel)%nat ->
    exists o1,
      readOSPmsg fuel patience1 o = Some (0, o1)
      /\ contents (payBuff o1) (payloadLen o1) = p1
      /\ (2 < patience2 ->
          exists o2,
            readOSPmsg fuel patience2 o1 = Some (0, o2)
            /\ contents (payBuff o2) (payloadLen o2) = p2
            /\ hSerial o2 = feed [END1; END2] after)
      /\ (0 <= patience2 <= 2 ->
          exists o2, readOSPmsg fuel patience2 o1 = Some (6, o2)).
Proof.
  intros fuel patience1 patience2 o p1 p2 after Hline Hb1 Hb2 Hl1 Hl2 Hp Hf.
  pose proof (checksum15_range p1 Hb1) as R1.
  pose proof (checksum15_range p2 Hb2) as R2.
  change (2 ^ 15) with 32768 in R1, R2.
  set (next_frame := osp_wire p2 (checksum15 p2)) in *.
  destruct (readOSPmsg_framed fuel patience1 o [] p1 (checksum15 p1)
              (map Rx (END1 :: END2 :: next_frame)) after)
    as (o1 & Hr1 & Hlen1 & Hc1 & Hline1).
  { rewrite Hline. unfold feed. rewrite osp_wire_shape, <- map_app.
    reflexivity. }
  { reflexivity. }
  { change (junk START1 START2 []) with 0. exact Hp. }
  { simpl. lia. }
  { exact Hl1. }
  { lia. }
  rewrite Z.eqb_refl in Hr1.
  exists o1. split; [exact Hr1 |]. split; [rewrite Hlen1; exact Hc1 |].
  split.
  - intros Hp2.
    destruct (readOSPmsg_framed fuel patience2 o1 [END1; END2] p2
                (checksum15 p2) (map Rx [END1; END2]) after)
      as (o2 & Hr2 & Hlen2 & Hc2 & Hline2).
    { rewrite Hline1. unfold next_frame. rewrite <- map_app.
      f_equal; try reflexivity. f_equal; try reflexivity.
      unfold osp_wire. simpl. rewrite <- !app_assoc. reflexivity. }
    { reflexivity. }
    { change (junk START1 START2 [END1; END2]) with 2. exact Hp2. }
    { simpl. lia. }
    { exact Hl2. }
    { lia. }
    rewrite Z.eqb_refl in Hr2.
    exists o2. split; [exact Hr2 |]. split; [rewrite Hlen2; exact Hc2 |].
    exact Hline2.
  - intros Hp2. unfold readOSPmsg, synchOSPmsg. rewrite Hline1.
    destruct (synch_gives_up START1 START2 ltac:(discriminate)
                (map Rx next_frame) after [END1; END2] fuel 1 patience2
                (or_introl eq_refl) eq_refl)
      as (st & p' & H & Hst).
    { change (junk START1 START2 [END1; END2]) with 2. exact Hp2. }
    { simpl. lia. }
    change (map Rx (END1 :: END2 :: next_frame))
      with (map Rx [END1; END2] ++ map Rx next_frame).
    rewrite H. simpl. apply Z.eqb_neq in Hst. rewrite Hst.
    eexists. reflexivity.
Qed.

Lemma osp_two_frames_in_a_row_witness :
  exists o1,
    readOSPmsg 4 1
      (fresh (feed (osp_wire [5; 6] 11 ++ osp_wire [9] 9) Gap)) = Some (0, o1)
    /\ contents (payBuff o1) (payloadLen o1) = [5; 6]
    /\ (2 < 3 ->
        exists o2,
          readOSPmsg 4 3 o1 = Some (0, o2)
          /\ contents (payBuff o2) (payloadLen o2) = [9]
          /\ hSerial o2 = feed [END1; END2] Gap)
    /\ (0 <= 3 <= 2 -> exists o2, readOSPmsg 4 3 o1 = Some (6, o2)).
Proof.
  apply (osp_two_frames_in_a_row 4 1 3
           (fresh (feed (osp_wire [5; 6] 11 ++ osp_wire [9] 9) Gap))
           [5; 6] [9] Gap).
  - reflexivity.
  - repeat constructor; unfold is_byte; lia.
  - repeat constructor; unfold is_byte; lia.
  - unfold MAXBUFFERSIZE. simpl. lia.
  - unfold MAXBUFFERSIZE. simpl. lia.
  - lia.
  - lia.
Defined.

(** ** Frames that stop short, and frames that come in pieces *)

Lemma more_dry (n : nat) (bs : list Z) :
  (length bs <= n)%nat ->
  more n (mkPort (map Rx bs) Gap)
    = (firstn n bs, mkPort (map Rx (skipn n bs)) Gap).
Proof.
  revert bs. induction n as [| n IH]; intros bs H.
  - destruct bs; [reflexivity | simpl in H; lia].
  - destruct bs as [| b bs]; [reflexivity |].
    simpl in H. simpl more. unfold next. simpl queue.
    rewrite IH by lia. reflexivity.
Qed.

(** A read that asks for more bytes than the line will ever deliver returns
    those that came. *)
Lemma read_dry (b : Z) (bs : list Z) (count : Z) :
  Z.of_nat (length (b :: bs)) < count ->
  read (feed (b :: bs) Gap) count
    = (Z.of_nat (length (b :: bs)), b :: bs, feed [] Gap).
Proof.
  intros H. unfold read, feed.
  replace (count <=? 0) with false by (symmetry; apply Z.leb_gt; lia).
  simpl map. rewrite next_feed_cons.
  rewrite more_dry by (simpl length in H; lia).
  rewrite firstn_all2 by (simpl length in H; lia).
  rewrite skipn_all2 by (simpl length in H; lia).
  simpl length. f_equal. f_equal. lia.
Qed.

Lemma read_nothing (count : Z) :
  0 < count -> read (feed [] Gap) count = (0, [], feed [] Gap).
Proof.
  intros H. unfold read.
  replace (count <=? 0) with false by (symmetry; apply Z.leb_gt; lia).
  reflexivity.
Qed.

(** X5.  A frame that stops short is never accepted.  When the line goes
    quiet (every further read returns 0) inside the length field, the call
    returns status 4 and [payloadLen] keeps its value; when it goes quiet
    after a valid length but before the last checksum byte, the call returns
    status 2. *)
Theorem osp_truncated_frame :
  forall (fuel : nat) (patience : Z) (o : SerialTxRx),
    0 < patience -> (2 <= fuel)%nat ->
    (forall part : list Z,
       (length part < 2)%nat ->
       hSerial o = feed (START1 :: START2 :: part) Gap ->
       exists o',
         readOSPmsg fuel patience o = Some (4, o')
         /\ payloadLen o' = payloadLen o)
    /\ (forall (hi lo : Z) (part : list Z),
          is_byte hi -> is_byte lo ->
          0 < 256 * hi + lo < MAXBUFFERSIZE - 3 ->
          Z.of_nat (length part) < 256 * hi + lo + 2 ->
          hSerial o = feed (START1 :: START2 :: hi :: lo :: part) Gap ->
          exists o',
            readOSPmsg fuel patience o = Some (2, o')
            /\ hSerial o' = feed [] Gap).
Proof.
  intros fuel patience o Hp Hf. split.
  - intros part Hlen Hline.
    pose proof (synchOSPmsg_on_start fuel patience part Gap Hp Hf) as Hs.
    rewrite <- Hline in Hs. unfold readOSPmsg. rewrite Hs.
    destruct part as [| b [| c part]]; [| | simpl in Hlen; lia].
    + eexists. split; reflexivity.
    + eexists. split; reflexivity.
  - intros hi lo part Hhi Hlo Hlen Hshort Hline.
    pose proof (synchOSPmsg_on_start fuel patience (hi :: lo :: part) Gap Hp Hf)
      as Hs.
    rewrite <- Hline in Hs.
    rewrite (readOSPmsg_after_length fuel patience o _ (feed part Gap)
               hi lo Hs); [| reflexivity | exact Hlo].
    cbv zeta.
    replace ((0 <? 256 * hi + lo) && (256 * hi + lo <? MAXBUFFERSIZE - 3))
      with true
      by (symmetry; apply andb_true_iff; split; apply Z.ltb_lt; lia).
    set (len := 256 * hi + lo) in *.
    unfold readOSPpayload.
    destruct part as [| b bs].
    + destruct fuel as [| fuel]; [lia |].
      rewrite (payload_loop_step fuel len 0 _ _ _ _ _
                 (read_nothing (len + 2 - 0) ltac:(lia))).
      simpl orb. cbv iota.
      replace (0 + 0 <? len + 2) with true by (symmetry; apply Z.ltb_lt; lia).
      eexists. split; reflexivity.
    + destruct fuel as [| [| fuel]]; try lia.
      rewrite (payload_loop_step (S fuel) len 0 _ _ _ _ _
                 (read_dry b bs (len + 2 - 0) ltac:(lia))).
      replace (Z.of_nat (length (b :: bs)) =? 0) with false
        by (symmetry; apply Z.eqb_neq; simpl length; lia).
      replace (len + 2 <=? 0 + Z.of_nat (length (b :: bs))) with false
        by (symmetry; apply Z.leb_gt; lia).
      simpl orb. cbv iota.
      rewrite (payload_loop_step fuel len _ _ _ _ _ _
                 (read_nothing (len + 2 - (0 + Z.of_nat (length (b :: bs))))
                    ltac:(lia))).
      simpl orb. cbv iota.
      replace (0 + Z.of_nat (length (b :: bs)) + 0 <? len + 2) with true
        by (symmetry; apply Z.ltb_lt; lia).
      eexists. split; reflexivity.
Qed.

Lemma osp_truncated_frame_witness :
  (exists o',
     readOSPmsg 2 1 (fresh (feed [START1; START2; 0] Gap)) = Some (4, o')
     /\ payloadLen o' = 0)
  /\ (exists o',
        readOSPmsg 2 1 (fresh (feed [START1; START2; 0; 3; 1; 2; 3; 0] Gap))
          = Some (2, o')
        /\ hSerial o' = feed [] Gap).
Proof.
  destruct (osp_truncated_frame 2 1 (fresh (feed [START1; START2; 0] Gap)))
    as [H _]; [lia | lia |].
  destruct (osp_truncated_frame 2 1
              (fresh (feed [START1; START2; 0; 3; 1; 2; 3; 0] Gap)))
    as [_ H']; [lia | lia |].
  split.
  - apply (H [0]); [simpl; lia | reflexivity].
  - apply (H' 0 3 [1; 2; 3; 0]); try reflexivity;
      unfold is_byte, MAXBUFFERSIZE; simpl; lia.
Defined.

Lemma more_until_gap (q : list event) (i : event) :
  forall (bs : list Z) (n : nat),
    (length bs < n)%nat ->
    more n (mkPort (map Rx bs ++ Gap :: q) i) = (bs, mkPort q i).
Proof.
  induction bs as [| b bs IH]; intros n H.
  - destruct n as [| n]; [simpl in H; lia | reflexivity].
  - destruct n as [| n]; [simpl in H; lia |].
    simpl in H. simpl more. unfold next. simpl queue.
    rewrite IH by lia. reflexivity.
Qed.

(** A read that meets a pause before it has all it asked for returns the
    bytes that came before the pause. *)
Lemma read_piece (b : Z) (bs : list Z) (q : list event) (i : event)
    (count : Z) :
  Z.of_nat (length (b :: bs)) < count ->
  read (mkPort (map Rx (b :: bs) ++ Gap :: q) i) count
    = (Z.of_nat (length (b :: bs)), b :: bs, mkPort q i).
Proof.
  intros H. unfold read.
  replace (count <=? 0) with false by (symmetry; apply Z.leb_gt; lia).
  simpl map. simpl app. rewrite next_feed_cons.
  rewrite more_until_gap by (simpl length in H; lia).
  simpl length. f_equal. f_equal. lia.
Qed.

(** Runs stored one after the other make the same buffer as their
    concatenation stored at once. *)
Lemma store_app (buf : buffer) (k : Z) (l1 l2 : list Z) (i : Z) :
  store (store buf k l1) (k + Z.of_nat (length l1)) l2 i
    = store buf k (l1 ++ l2) i.
Proof.
  revert buf k. induction l1 as [| c l1 IH]; intros buf k.
  - simpl. rewrite Z.add_0_r. reflexivity.
  - change ((c :: l1) ++ l2) with (c :: l1 ++ l2).
    rewrite <- (store_one_more buf k c (l1 ++ l2) i).
    rewrite <- (IH (store buf k [c]) (k + 1)).
    replace (k + Z.of_nat (length (c :: l1)))
      with (k + 1 + Z.of_nat (length l1)) by (simpl length; lia).
    assert (E : forall j, store (store buf k (c :: l1)) (k + 1 + Z.of_nat (length l1)) l2 j
                        = store (store (store buf k [c]) (k + 1) l1)
                                (k + 1 + Z.of_nat (length l1)) l2 j).
    { intros j. destruct l2 as [| d l2]; [simpl; symmetry; apply store_one_more |].
      rewrite !(store_cons _ (k + 1 + Z.of_nat (length l1))) by discriminate.
      destruct ((k + 1 + Z.of_nat (length l1) <=? j)
                && (j <? k + 1 + Z.of_nat (length l1)
                           + Z.of_nat (length (d :: l2))));
        [reflexivity | symmetry; apply store_one_more]. }
    apply E.
Qed.

(** The payload loop over bytes that come in pieces: one read per piece. *)
Lemma payload_loop_pieces (len : Z) (tail : list event) (after : event) :
  forall (chunks : list (list Z)) (fuel : nat) (stored : Z) (buf : buffer),
    chunks <> [] -> Forall (fun c => c <> []) chunks ->
    stored + Z.of_nat (length (concat chunks)) = len + 2 ->
    (length chunks <= fuel)%nat ->
    exists buf',
      payload_loop fuel len stored buf (mkPort (pieces chunks ++ tail) after)
        = Some (len + 2, buf', mkPort tail after)
      /\ forall i, buf' i = store buf stored (concat chunks) i.
Proof.
  induction chunks as [| c rest IH]; intros fuel stored buf Hne Hall Hsum Hf;
    [congruence |].
  inversion Hall as [| ? ? Hc Hrest]; subst.
  destruct c as [| b bs]; [congruence |].
  destruct fuel as [| fuel]; [simpl in Hf; lia |].
  destruct rest as [| c2 rest].
  - simpl concat in *. rewrite app_nil_r in *.
    change (pieces [b :: bs]) with (map Rx (b :: bs)).
    assert (Hr : read (mkPort (map Rx (b :: bs) ++ tail) after)
                   (len + 2 - stored)
                 = (Z.of_nat (length (b :: bs)), b :: bs, mkPort tail after)).
    { replace (len + 2 - stored) with (Z.of_nat (length (b :: bs))) by lia.
      apply read_feed. }
    rewrite (payload_loop_step fuel len stored buf _ _ _ _ Hr).
    replace (len + 2 <=? stored + Z.of_nat (length (b :: bs))) with true
      by (symmetry; apply Z.leb_le; lia).
    rewrite orb_true_r.
    exists (store buf stored (b :: bs)). split; [| reflexivity].
    f_equal. f_equal. f_equal. lia.
  - assert (Hc2 : c2 <> []) by (inversion Hrest; assumption).
    assert (L2 : (0 < length (concat (c2 :: rest)))%nat).
    { destruct c2; [congruence |]. simpl. lia. }
    change (concat ((b :: bs) :: c2 :: rest))
      with ((b :: bs) ++ concat (c2 :: rest)) in *.
    rewrite length_app in Hsum.
    change (pieces ((b :: bs) :: c2 :: rest))
      with (map Rx (b :: bs) ++ Gap :: pieces (c2 :: rest)).
    rewrite <- app_assoc. change ((Gap :: pieces (c2 :: rest)) ++ tail)
      with (Gap :: pieces (c2 :: rest) ++ tail).
    rewrite (payload_loop_step fuel len stored buf _ _ _ _
               (read_piece b bs _ after (len + 2 - stored) ltac:(lia))).
    replace (Z.of_nat (length (b :: bs)) =? 0) with false
      by (symmetry; apply Z.eqb_neq; simpl length; lia).
    replace (len + 2 <=? stored + Z.of_nat (length (b :: bs))) with false
      by (symmetry; apply Z.leb_gt; lia).
    simpl orb. cbv iota.
    destruct (IH fuel (stored + Z.of_nat (length (b :: bs)))
                (store buf stored (b :: bs)) ltac:(discriminate) Hrest
                ltac:(lia) ltac:(simpl length in Hf; simpl length; lia))
      as (buf' & Hrun & Hbuf).
    exists buf'. split; [exact Hrun |].
    intros i. rewrite Hbuf. apply store_app.
Qed.

Lemma synchOSPmsg_at_start (fuel : nat) (patience : Z) (q : list event)
    (after : event) :
  0 < patience -> (2 <= fuel)%nat ->
  synchOSPmsg fuel patience (mkPort (Rx START1 :: Rx START2 :: q) after)
    = Some (true, mkPort q after).
Proof.
  intros Hp Hf. unfold synchOSPmsg.
  pose proof (synch_reaches_start START1 START2 ltac:(discriminate) q after
                [] fuel 1 patience (or_introl eq_refl) eq_refl Hp
                ltac:(simpl; lia)) as H.
  simpl map in H. simpl app in H. rewrite H. reflexivity.
Qed.

(** X6.  The payload and checksum of a frame may come in pieces: each read
    of the payload loop that returns fewer bytes than asked is followed by
    another for the rest, and the call ends as it does when all the bytes
    come at once.  The length field has no such loop: a pause between its
    two bytes ends the call with status 4. *)
Theorem osp_payload_in_pieces :
  forall (fuel : nat) (patience : Z) (o : SerialTxRx) (q : list Z) (chk : Z)
         (chunks : list (list Z)) (tail : list event) (after : event),
    0 < patience -> (2 <= fuel)%nat -> (length chunks <= fuel)%nat ->
    0 < Z.of_nat (length q) < MAXBUFFERSIZE - 3 ->
    0 <= chk < 65536 ->
    Forall (fun c => c <> []) chunks ->
    concat chunks = q ++ [chk / 256; chk mod 256] ->
    (hSerial o
       = mkPort (map Rx [START1; START2; Z.of_nat (length q) / 256;
                         Z.of_nat (length q) mod 256]
                   ++ pieces chunks ++ tail) after ->
     exists o',
       readOSPmsg fuel patience o
         = Some (if checksum15 q =? chk then 0 else 1, o')
       /\ payloadLen o' = Z.of_nat (length q)
       /\ contents (payBuff o') (Z.of_nat (length q)) = q
       /\ hSerial o' = mkPort tail after)
    /\ (hSerial o
          = mkPort (Rx START1 :: Rx START2 :: Rx (Z.of_nat (length q) / 256)
                      :: Gap :: Rx (Z.of_nat (length q) mod 256)
                      :: pieces chunks ++ tail) after ->
        exists o', readOSPmsg fuel patience o = Some (4, o')).
Proof.
  intros fuel patience o q chk chunks tail after Hp Hf Hfc Hlen Hchk Hall Hcat.
  set (len := Z.of_nat (length q)) in *.
  assert (Hq : q <> []) by (intros ->; unfold len in Hlen; simpl in Hlen; lia).
  split.
  - intros Hline.
    assert (Hs : synchOSPmsg fuel patience (hSerial o)
                 = Some (true,
                         mkPort (Rx (len / 256) :: Rx (len mod 256)
                                   :: pieces chunks ++ tail) after)).
    { rewrite Hline. apply synchOSPmsg_at_start; assumption. }
    rewrite (readOSPmsg_after_length fuel patience o _
               (mkPort (pieces chunks ++ tail) after)
               (len / 256) (len mod 256) Hs);
      [| reflexivity | apply Z.mod_pos_bound; lia].
    cbv zeta. rewrite <- Z.div_mod by lia.
    replace ((0 <? len) && (len <? MAXBUFFERSIZE - 3)) with true
      by (symmetry; apply andb_true_iff; split; apply Z.ltb_lt; lia).
    assert (Hcne : chunks <> []).
    { intros ->. simpl in Hcat. destruct q; discriminate. }
    destruct (payload_loop_pieces len tail after chunks fuel 0 (payBuff o)
                Hcne Hall) as (buf' & Hrun & Hbuf).
    { rewrite Hcat, length_app. simpl length. unfold len. lia. }
    { exact Hfc. }
    destruct (readOSPpayload_checked fuel o
                (store (paylenBuff o) 0 [len / 256; len mod 256])
                _ _ q chk buf' Hq Hchk Hrun) as [Hres Hcont].
    { intros k Hk. rewrite Hbuf, Hcat. apply store_at_0.
      rewrite length_app. simpl length. lia. }
    eexists. split; [exact Hres |].
    split; [reflexivity |]. split; [exact Hcont | reflexivity].
  - intros Hline.
    assert (Hs : synchOSPmsg fuel patience (hSerial o)
                 = Some (true,
                         mkPort (Rx (len / 256) :: Gap :: Rx (len mod 256)
                                   :: pieces chunks ++ tail) after)).
    { rewrite Hline. apply synchOSPmsg_at_start; assumption. }
    unfold readOSPmsg. rewrite Hs. eexists. reflexivity.
Qed.

Lemma osp_payload_in_pieces_witness :
  (exists o',
     readOSPmsg 3 1
       (fresh (mkPort [Rx START1; Rx START2; Rx 0; Rx 2;
                       Rx 5; Gap; Rx 6; Rx 0; Gap; Rx 11; Rx END1] Gap))
       = Some (0, o')
     /\ payloadLen o' = 2
     /\ contents (payBuff o') 2 = [5; 6]
     /\ hSerial o' = mkPort [Rx END1] Gap).
Proof.
  destruct (osp_payload_in_pieces 3 1
              (fresh (mkPort [Rx START1; Rx START2; Rx 0; Rx 2;
                              Rx 5; Gap; Rx 6; Rx 0; Gap; Rx 11; Rx END1] Gap))
              [5; 6] 11 [[5]; [6; 0]; [11]] [Rx END1] Gap) as [H _].
  - lia.
  - lia.
  - simpl. lia.
  - unfold MAXBUFFERSIZE. simpl. lia.
  - lia.
  - repeat constructor; discriminate.
  - reflexivity.
  - apply H. reflexivity.
Defined.

(** ** What the 15-bit checksum does not see *)

Lemma sumZ_permutation (l l' : list Z) : Permutation l l' -> sumZ l = sumZ l'.
Proof.
  induction 1 as [| x l l' _ IH | x y l | l l' l'' _ IH1 _ IH2]; simpl.
  - reflexivity.
  - rewrite IH. reflexivity.
  - lia.
  - congruence.
Qed.

(** X7.  The OSP checksum is a sum, so it does not depend on the order of the
    bytes: a frame that carries the bytes of a payload in another order,
    with the checksum of the original, is accepted with status 0 and the
    reordered payload is what the caller finds in [payBuff]. *)
Theorem osp_reordered_payload_is_accepted :
  forall (p p' : list Z) (o : SerialTxRx) (after : event) (fuel : nat)
         (patience : Z),
    Permutation p p' -> Forall is_byte p ->
    0 < Z.of_nat (length p) < MAXBUFFERSIZE - 3 ->
    0 < patience -> (2 <= fuel)%nat ->
    checksum15 p' = checksum15 p
    /\ exists o',
         readOSPmsg fuel patience
           (on_line o (feed (osp_wire p' (checksum15 p)) after))
           = Some (0, o')
         /\ contents (payBuff o') (payloadLen o') = p'.
Proof.
  intros p p' o after fuel patience Hperm Hb Hlen Hp Hf.
  assert (Hb' : Forall is_byte p') by (eapply Permutation_Forall; eassumption).
  assert (Hcs : checksum15 p' = checksum15 p).
  { rewrite !checksum15_sum by assumption.
    rewrite (sumZ_permutation p p' Hperm). reflexivity. }
  split; [exact Hcs |].
  pose proof (checksum15_range p Hb) as R. change (2 ^ 15) with 32768 in R.
  destruct (readOSPmsg_on_wire fuel patience o p' (checksum15 p) after Hp Hf)
    as (o' & Hr & _ & Hc & _).
  - rewrite <- (Permutation_length Hperm). exact Hlen.
  - lia.
  - exists o'. rewrite Hcs, Z.eqb_refl in Hr. split; assumption.
Qed.

Lemma osp_reordered_payload_is_accepted_witness :
  checksum15 [0x03; 0x81; 0x02] = checksum15 [0x81; 0x02; 0x03]
  /\ exists o',
       readOSPmsg 2 1
         (on_line (fresh (feed [] Gap))
                  (feed (osp_wire [0x03; 0x81; 0x02]
                                  (checksum15 [0x81; 0x02; 0x03])) Gap))
         = Some (0, o')
       /\ contents (payBuff o') (payloadLen o') = [0x03; 0x81; 0x02].
Proof.
  apply (osp_reordered_payload_is_accepted [0x81; 0x02; 0x03]
           [0x03; 0x81; 0x02] (fresh (feed [] Gap)) Gap 2 1).
  - apply Permutation_sym.
    apply (Permutation_cons_app [0x81; 0x02] [] 0x03). simpl.
    apply Permutation_refl.
  - repeat constructor; unfold is_byte; lia.
  - unfold MAXBUFFERSIZE. simpl. lia.
  - lia.
  - lia.
Defined.

(** ** What a status of [readOSPmsg] tells the caller *)

Lemma length_contents (buf : buffer) (n : Z) :
  length (contents buf n) = Z.to_nat n.
Proof. unfold contents. rewrite length_map, length_seq. reflexivity. Qed.

Lemma nth_contents (buf : buffer) (n : Z) (k : nat) :
  (k < Z.to_nat n)%nat -> nth k (contents buf n) 0 = buf (Z.of_nat k).
Proof.
  intros H. unfold contents.
  rewrite nth_indep with (d' := (fun i => buf (Z.of_nat i)) 0%nat)
    by (rewrite length_map, length_seq; exact H).
  rewrite (map_nth (fun i => buf (Z.of_nat i))).
  rewrite seq_nth by exact H. reflexivity.
Qed.

(** The loop of the source over the buffer is the checksum of the
    specification over the bytes the buffer holds. *)
Lemma ospChecksum_contents (buf : buffer) (len : Z) :
  0 < len -> ospChecksum buf 0 len = checksum15 (contents buf len).
Proof.
  intros H.
  replace len with (0 + Z.of_nat (length (contents buf len))) at 1
    by (rewrite length_contents; lia).
  apply ospChecksum_list.
  - intros E. apply (f_equal (@length Z)) in E.
    rewrite length_contents in E. simpl in E. lia.
  - intros k Hk. rewrite length_contents in Hk.
    rewrite nth_contents by exact Hk. reflexivity.
Qed.

(** X8.  Status 0 is sound.  Whatever the line delivers, when [readOSPmsg]
    returns 0 the object holds a payload length above 0 and below
    MAXBUFFERSIZE - 3 and a payload whose 15-bit checksum is the value of
    the two bytes stored after it; when it returns 1 the length is in the
    same range and the two values differ. *)
Theorem osp_status_0_is_sound :
  forall (fuel : nat) (patience : Z) (o o' : SerialTxRx) (s : Z),
    readOSPmsg fuel patience o = Some (s, o') ->
    s = 0 \/ s = 1 ->
    let len := payloadLen o' in
    let announced :=
      Z.lor (Z.shiftl (payBuff o' len) 8) (payBuff o' (len + 1)) in
    0 < len < MAXBUFFERSIZE - 3
    /\ (s = 0 <-> checksum15 (contents (payBuff o') len) = announced).
Proof.
  intros fuel patience o o' s H Hs. unfold readOSPmsg in H.
  destruct (synchOSPmsg fuel patience (hSerial o)) as [[[|] p1] |];
    [| injection H as <- _; lia | discriminate].
  destruct (read p1 2) as [[n data] p2].
  destruct (negb (n =? 2)); [injection H as <- _; lia |].
  set (lenBuff := store (paylenBuff o) 0 data) in *.
  set (l := Z.lor (Z.shiftl (lenBuff 0) 8) (lenBuff 1)) in *.
  destruct ((0 <? l) && (l <? MAXBUFFERSIZE - 1 - 2)) eqn:E;
    [| injection H as <- _; lia].
  apply andb_true_iff in E. destruct E as [E1 E2].
  apply Z.ltb_lt in E1. apply Z.ltb_lt in E2. unfold MAXBUFFERSIZE in E2.
  simpl negb in H. cbv iota in H. unfold readOSPpayload in H.
  destruct (payload_loop fuel l 0 (payBuff o) p2) as [[[st buf] p3] |];
    [| discriminate].
  destruct (st <? l + 2); [injection H as <- _; lia |].
  rewrite (ospChecksum_contents buf l E1) in H.
  destruct (checksum15 (contents buf l)
            =? Z.lor (Z.shiftl (buf l) 8) (buf (l + 1))) eqn:C;
    simpl negb in H; cbv iota in H; injection H as <- <-; simpl.
  - apply Z.eqb_eq in C. split; [unfold MAXBUFFERSIZE; lia |].
    split; [intros _; exact C | reflexivity].
  - apply Z.eqb_neq in C. split; [unfold MAXBUFFERSIZE; lia |].
    split; [discriminate | contradiction].
Qed.

Lemma osp_status_0_is_sound_witness :
  0 < 1 < MAXBUFFERSIZE - 3
  /\ (0 = 0 <-> checksum15 (contents (store blank 0 [9; 0; 9]) 1)
                = Z.lor (Z.shiftl 0 8) 9).
Proof.
  apply (osp_status_0_is_sound 2 1 (fresh (feed (osp_wire [9] 9) Gap))
           (mkSerial (feed [END1; END2] Gap) (store blank 0 [0; 1])
                     (store blank 0 [9; 0; 9]) 1) 0).
  - reflexivity.
  - left. reflexivity.
Defined.

(** ** [readOSPmsg] stays inside its buffers when no read fails *)

Lemma next_no_err (p : port) :
  no_err p = true ->
  not_err (fst (next p)) = true /\ no_err (snd (next p)) = true.
Proof.
  unfold no_err, next. destruct p as [[| e q] i]; simpl; intros H.
  - split; exact H.
  - apply andb_true_iff in H. destruct H as [H Hi].
    apply andb_true_iff in H. destruct H as [He Hq].
    split; [exact He |]. rewrite Hq, Hi. reflexivity.
Qed.

Lemma more_no_err (n : nat) :
  forall p, no_err p = true ->
            no_err (snd (more n p)) = true
            /\ (length (fst (more n p)) <= n)%nat.
Proof.
  induction n as [| n IH]; intros p H; [split; [exact H | simpl; lia] |].
  simpl. pose proof (next_no_err p H) as [He Hp].
  destruct (next p) as [[b | |] p']; simpl in He, Hp.
  - specialize (IH p' Hp). destruct (more n p') as [bs p''].
    cbn [fst snd length] in *. split; [apply IH | lia].
  - split; [exact Hp | simpl; lia].
  - discriminate.
Qed.

(** On a line without errors a read returns the number of bytes it stored,
    which is not negative and not above what was asked. *)
Lemma read_no_err (p : port) (count : Z) :
  no_err p = true -> 0 < count ->
  let '(n, data, p') := read p count in
  no_err p' = true /\ n = Z.of_nat (length data) /\ n <= count.
Proof.
  intros H Hc. unfold read.
  replace (count <=? 0) with false by (symmetry; apply Z.leb_gt; lia).
  pose proof (next_no_err p H) as [He Hp].
  destruct (next p) as [[b | |] p']; simpl in He, Hp.
  - pose proof (more_no_err (Z.to_nat count - 1) p' Hp) as [H1 H2].
    destruct (more (Z.to_nat count - 1) p') as [bs p'']. cbn [fst snd] in *.
    split; [exact H1 |]. split; [cbn [length] |]; lia.
  - split; [exact Hp |]. split; [reflexivity | lia].
  - discriminate.
Qed.

Lemma synch_loop_no_err (m1 m2 : Z) (fuel : nat) :
  forall state patience p st pat p',
    no_err p = true ->
    synch_loop m1 m2 fuel state patience p = Some (st, pat, p') ->
    no_err p' = true.
Proof.
  induction fuel as [| fuel IH]; intros state patience p st pat p' Hp H;
    simpl in H;
    destruct (negb (state =? 3) && (0 <? patience)); try discriminate;
    try (injection H as <- <- <-; exact Hp).
  pose proof (read_no_err p 1 Hp ltac:(lia)) as R.
  destruct (read p 1) as [[n data] q]. destruct R as [Hq _].
  destruct (synch_body m1 m2 n data state patience) as [s1 pat1].
  eapply IH; eassumption.
Qed.

(** The payload loop writes between the start of the buffer and the end of
    the bytes it has to gather. *)
Lemma payload_loop_inside (len : Z) (fuel : nat) :
  forall stored buf p n buf' p',
    no_err p = true -> 0 <= stored < len + 2 ->
    payload_loop fuel len stored buf p = Some (n, buf', p') ->
    forall i, i < 0 \/ len + 2 <= i -> buf' i = buf i.
Proof.
  induction fuel as [| fuel IH]; intros stored buf p n buf' p' Hp Hs H i Hi;
    [discriminate |].
  simpl in H.
  pose proof (read_no_err p (len + 2 - stored) Hp ltac:(lia)) as R.
  destruct (read p (len + 2 - stored)) as [[nr data] q].
  destruct R as (Hq & Hn & Hle).
  assert (Hst : store buf stored data i = buf i)
    by (apply store_outside; lia).
  destruct (negb (nr =? 0) && (stored + nr <? len + 2)) eqn:E.
  - apply andb_true_iff in E. destruct E as [_ E]. apply Z.ltb_lt in E.
    rewrite (IH (stored + nr) (store buf stored data) q n buf' p' Hq
               ltac:(lia) H i Hi).
    exact Hst.
  - injection H as <- <- <-. exact Hst.
Qed.

(** X9.  When no read of the line fails, [readOSPmsg] keeps inside its two
    arrays whatever the line delivers: it writes only [paylenBuff[0 .. 2)]
    and [payBuff[0 .. MAXBUFFERSIZE)], whatever status it returns. *)
Theorem osp_read_stays_inside_its_buffers :
  forall (fuel : nat) (patience : Z) (o o' : SerialTxRx) (s : Z),
    no_err (hSerial o) = true ->
    readOSPmsg fuel patience o = Some (s, o') ->
    (forall i, i < 0 \/ MAXBUFFERSIZE <= i -> payBuff o' i = payBuff o i)
    /\ (forall i, i < 0 \/ 2 <= i -> paylenBuff o' i = paylenBuff o i).
Proof.
  intros fuel patience o o' s Hne H. unfold readOSPmsg, synchOSPmsg in H.
  destruct (synch_loop START1 START2 fuel 1 patience (hSerial o))
    as [[[st pat] p1] |] eqn:Hs; [| discriminate].
  apply synch_loop_no_err in Hs; [| exact Hne].
  cbv beta iota delta [synch_result] in H.
  destruct (st =? 3); [| injection H as <- <-; split; reflexivity].
  pose proof (read_no_err p1 2 Hs ltac:(lia)) as R.
  destruct (read p1 2) as [[n data] p2]. destruct R as (Hp2 & Hn & Hle).
  assert (Hlb : forall i, i < 0 \/ 2 <= i ->
                          store (paylenBuff o) 0 data i = paylenBuff o i)
    by (intros i Hi; apply store_outside; lia).
  destruct (negb (n =? 2)); [injection H as <- <-; split; [reflexivity | exact Hlb] |].
  set (lenBuff := store (paylenBuff o) 0 data) in *.
  set (l := Z.lor (Z.shiftl (lenBuff 0) 8) (lenBuff 1)) in *.
  destruct ((0 <? l) && (l <? MAXBUFFERSIZE - 1 - 2)) eqn:E;
    [| injection H as <- <-; split; [reflexivity | exact Hlb]].
  apply andb_true_iff in E. destruct E as [E1 E2].
  apply Z.ltb_lt in E1. apply Z.ltb_lt in E2. unfold MAXBUFFERSIZE in E2.
  simpl negb in H. cbv iota in H. unfold readOSPpayload in H.
  destruct (payload_loop fuel l 0 (payBuff o) p2) as [[[n' buf] p3] |] eqn:L;
    [| discriminate].
  assert (Hin : forall i, i < 0 \/ MAXBUFFERSIZE <= i -> buf i = payBuff o i).
  { intros i Hi.
    apply (payload_loop_inside l fuel 0 (payBuff o) p2 n' buf p3 Hp2
             ltac:(lia) L).
    unfold MAXBUFFERSIZE in Hi. lia. }
  destruct (n' <? l + 2); [injection H as <- <-; split; assumption |].
  destruct (negb _); injection H as <- <-; split; assumption.
Qed.

Lemma osp_read_stays_inside_its_buffers_witness :
  (forall i, i < 0 \/ MAXBUFFERSIZE <= i ->
             store blank 0 [9; 0; 9] i = blank i)
  /\ (forall i, i < 0 \/ 2 <= i -> store blank 0 [0; 1] i = blank i).
Proof.
  apply (osp_read_stays_inside_its_buffers 2 1
           (fresh (feed (osp_wire [9] 9) Gap))
           (mkSerial (feed [END1; END2] Gap) (store blank 0 [0; 1])
                     (store blank 0 [9; 0; 9]) 1) 0).
  - reflexivity.
  - reflexivity.
Defined.

(** ** Every command that [writeOSPcmd] sends *)

Lemma fill_args_filled (base : Z) :
  forall (tokens : list (list Z)) (bufferIndex : Z) (args : list Z),
    fill_args tokens base bufferIndex = Filled args ->
    Forall is_byte args
    /\ length args = length tokens
    /\ forall t, In t tokens -> exists ul, stoul t base = Value ul.
Proof.
  induction tokens as [| t ts IH]; intros bufferIndex args H.
  - injection H as <-. split; [constructor |]. split; [reflexivity |].
    intros t [].
  - simpl in H. destruct (stoul t base) as [ul | | |] eqn:E; try discriminate.
    destruct (MAXBUFFERSIZE <=? bufferIndex); [discriminate |].
    destruct (fill_args ts base (bufferIndex + 1)) as [args' | |] eqn:F;
      try discriminate.
    injection H as <-. destruct (IH _ _ F) as (H1 & H2 & H3).
    split; [| split].
    + constructor; [| exact H1]. unfold is_byte. apply Z.mod_pos_bound. lia.
    + simpl. rewrite H2. reflexivity.
    + intros t' [<- | Hin]; [exists ul; exact E | apply H3; exact Hin].
Qed.

Lemma transmit_sent (tx : outlet) (frame wire : list Z) :
  transmit tx frame = Sent wire -> wire = frame.
Proof.
  unfold transmit. destruct (tcdrain_ret tx =? -1); [discriminate |].
  destruct (negb _); [discriminate |]. intros H. injection H as <-.
  reflexivity.
Qed.

Lemma osp_frame_length (buf0 : buffer) (mid : Z) (args : list Z) (len : Z) :
  length (osp_frame buf0 mid args len) = (length args + 9)%nat.
Proof.
  unfold osp_frame. rewrite !length_app. simpl length. lia.
Qed.

Lemma osp_frame_id (buf0 : buffer) (mid : Z) (args : list Z) (len : Z) :
  osp_frame buf0 mid args len = osp_frame buf0 (mid mod 256) args len.
Proof. unfold osp_frame. rewrite (Z.mod_mod mid 256) by lia. reflexivity. Qed.

(** X10.  Whatever the message id, the argument text and the base, a command
    that [writeOSPcmd] sends is the wire format of the payload made of the
    id modulo 256 and one byte per token, and [readOSPmsg] reads it back
    from the bytes sent with status 0 and that payload. *)
Theorem osp_every_command_sent_is_read_back :
  forall (tx : outlet) (ow o : SerialTxRx) (mid : Z) (cmdArgs : list Z)
         (base : Z) (wire : list Z) (after : event) (fuel : nat)
         (patience : Z),
    writeOSPcmd tx ow mid cmdArgs base = Sent wire ->
    0 < patience -> (2 <= fuel)%nat ->
    exists args o',
      fill_args (tokenize cmdArgs) base 5 = Filled args
      /\ length args = length (tokenize cmdArgs)
      /\ wire = osp_wire (mid mod 256 :: args)
                         (checksum15 (mid mod 256 :: args))
      /\ readOSPmsg fuel patience (on_line o (feed wire after))
           = Some (0, o')
      /\ contents (payBuff o') (payloadLen o') = mid mod 256 :: args.
Proof.
  intros tx ow o mid cmdArgs base wire after fuel patience H Hp Hf.
  unfold writeOSPcmd in H.
  destruct (MAXBUFFERSIZE <? _); [discriminate |].
  destruct (fill_args (tokenize cmdArgs) base 5) as [args | [] |] eqn:F;
    try discriminate.
  destruct (fill_args_filled base _ _ _ F) as (Hb & Hl & _).
  rewrite <- Hl in H.
  destruct (Z.of_nat (length (osp_frame _ _ _ _)) <=? MAXBUFFERSIZE) eqn:G;
    [| discriminate].
  simpl negb in H. cbv iota in H. apply transmit_sent in H.
  apply Z.leb_le in G. rewrite osp_frame_length in G.
  unfold MAXBUFFERSIZE in G.
  assert (Hu : u32 (1 + Z.of_nat (length args))
               = Z.of_nat (length (mid mod 256 :: args))).
  { unfold u32. rewrite Z.mod_small by lia. simpl length. lia. }
  rewrite Hu, osp_frame_id in H.
  assert (Hm : is_byte (mid mod 256))
    by (unfold is_byte; apply Z.mod_pos_bound; lia).
  rewrite osp_frame_wire in H
    by (try assumption; simpl length; lia).
  set (p := mid mod 256 :: args) in *.
  assert (Hbp : Forall is_byte p) by (constructor; assumption).
  pose proof (checksum15_range p Hbp) as R. change (2 ^ 15) with 32768 in R.
  destruct (readOSPmsg_on_wire fuel patience o p (checksum15 p) after Hp Hf)
    as (o' & Hr & Hlen & Hc & _).
  { unfold p, MAXBUFFERSIZE. simpl length. lia. }
  { lia. }
  rewrite Z.eqb_refl in Hr.
  exists args, o'. split; [reflexivity |]. split; [exact Hl |].
  split; [exact H |]. subst wire. split; [exact Hr | exact Hc].
Qed.

Lemma osp_every_command_sent_is_read_back_witness :
  exists args o',
    fill_args (tokenize (bytes_of " 7  -1 0x1F")) 0 5 = Filled args
    /\ length args = length (tokenize (bytes_of " 7  -1 0x1F"))
    /\ [START1; START2; 0; 4; 44; 7; 255; 31; 1; 81; END1; END2]
       = osp_wire (300 mod 256 :: args) (checksum15 (300 mod 256 :: args))
    /\ readOSPmsg 2 1
         (on_line (fresh (feed [] Gap))
            (feed [START1; START2; 0; 4; 44; 7; 255; 31; 1; 81; END1; END2]
                  Gap))
       = Some (0, o')
    /\ contents (payBuff o') (payloadLen o') = 300 mod 256 :: args.
Proof.
  apply (osp_every_command_sent_is_read_back sound_outlet
           (fresh (feed [] Gap)) (fresh (feed [] Gap)) 300
           (bytes_of " 7  -1 0x1F") 0).
  - vm_compute. reflexivity.
  - lia.
  - lia.
Defined.

(** X11.  A command in which some token is not a number for [stoul] is not
    sent: the call ends with one of the exceptions (too long, invalid
    argument, out of range) or, for a base that [strtoul] refuses, in a way
    the library does not define. *)
Theorem osp_command_with_a_bad_token_is_not_sent :
  forall (tx : outlet) (o : SerialTxRx) (mid : Z) (cmdArgs : list Z)
         (base : Z) (t : list Z),
    In t (tokenize cmdArgs) ->
    (forall ul, stoul t base <> Value ul) ->
    (exists len,
       writeOSPcmd tx o mid cmdArgs base = Thrown (CommandTooLong len))
    \/ writeOSPcmd tx o mid cmdArgs base = Thrown BadArgument
    \/ writeOSPcmd tx o mid cmdArgs base = Thrown ArgumentRange
    \/ writeOSPcmd tx o mid cmdArgs base = Unspecified.
Proof.
  intros tx o mid cmdArgs base t Hin Hbad. unfold writeOSPcmd.
  destruct (MAXBUFFERSIZE <? _); [left; eauto |]. right.
  destruct (fill_args (tokenize cmdArgs) base 5) as [args | [] |] eqn:F;
    auto.
  - destruct (fill_args_filled base _ _ _ F) as (_ & _ & H).
    destruct (H t Hin) as [ul Hul]. exfalso. exact (Hbad ul Hul).
Qed.

Lemma osp_command_with_a_bad_token_is_not_sent_witness :
  writeOSPcmd sound_outlet (fresh (feed [] Gap)) 0 (bytes_of "01 zz") 16
    = Thrown BadArgument.
Proof.
  destruct (osp_command_with_a_bad_token_is_not_sent sound_outlet
              (fresh (feed [] Gap)) 0 (bytes_of "01 zz") 16 (bytes_of "zz"))
    as [[len H] | [H | [H | H]]].
  - right. left. reflexivity.
  - intros ul. vm_compute. discriminate.
  - vm_compute in H. discriminate.
  - exact H.
  - vm_compute in H. discriminate.
  - vm_compute in H. discriminate.
Defined.

(** ** [readNMEAmsg] on a whole line *)

(** A line of at least five characters: the body, one character that is not
    looked at, and the two characters taken as the checksum. *)
Lemma readNMEAmsg_checked (fuel : nat) (patience : Z) (o : SerialTxRx)
    (body : list Z) (x h1 h2 : Z) (q : list event) (after : event) :
  synchNMEAmsg fuel patience (hSerial o)
    = Some (true,
            mkPort (map Rx ((body ++ [x; h1; h2]) ++ [CR]) ++ q) after) ->
  ~ In CR body -> x <> CR -> h1 <> CR -> h2 <> CR ->
  2 <= Z.of_nat (length body) ->
  Z.of_nat (length body) + 3 <= MAXBUFFERSIZE - 1 ->
  (length body + 4 <= fuel)%nat ->
  exists o',
    readNMEAmsg fuel patience o
      = Some (if xor_all body =? announced h1 h2 then 0 else 1, o')
    /\ payloadLen o' = Z.of_nat (length body)
    /\ contents (payBuff o') (Z.of_nat (length body)) = body
    /\ hSerial o' = mkPort q after.
Proof.
  intros Hs Hcr Hx Hh1 Hh2 Hlen Hfit Hf.
  set (chars := body ++ [x; h1; h2]) in *.
  assert (Lc : length chars = (length body + 3)%nat)
    by (unfold chars; rewrite length_app; simpl; lia).
  assert (Hcr' : ~ In CR chars).
  { unfold chars. intros Hin. apply in_app_or in Hin.
    destruct Hin as [Hin | [Hin | [Hin | [Hin | []]]]];
      [contradiction | congruence | congruence | congruence]. }
  destruct (nmea_loop_line fuel (payBuff o) chars q after Hcr')
    as (buf' & Hbuf & Hrun); [lia | lia |].
  cbv zeta in Hrun. rewrite Lc in Hrun.
  replace (Z.of_nat (length body + 3) <? 5) with false in Hrun
    by (symmetry; apply Z.ltb_ge; lia).
  replace (Z.of_nat (length body + 3) - 3) with (Z.of_nat (length body))
    in Hrun by lia.
  set (n := Z.of_nat (length body + 3)) in *.
  set (len := Z.of_nat (length body)) in *.
  set (bufR := store (store (store buf' n [CR]) n [0]) len [0]) in *.
  assert (Hlow : forall i, 0 <= i < n -> i <> len ->
                           bufR i = nth (Z.to_nat i) chars 0).
  { intros i Hi Hne. unfold bufR.
    rewrite !store_byte_other by lia. rewrite Hbuf.
    replace i with (Z.of_nat (Z.to_nat i)) at 1 by lia.
    apply store_at_0. lia. }
  assert (Hbody : forall k, (k < length body)%nat ->
                            bufR (Z.of_nat k) = nth k body 0).
  { intros k Hk. rewrite Hlow by lia. rewrite Nat2Z.id.
    unfold chars. apply app_nth1. exact Hk. }
  assert (H1 : bufR (len + 1) = h1).
  { rewrite Hlow by lia. unfold chars, len.
    rewrite app_nth2 by lia.
    replace (Z.to_nat (Z.of_nat (length body) + 1) - length body)%nat
      with 1%nat by lia.
    reflexivity. }
  assert (H2 : bufR (len + 2) = h2).
  { rewrite Hlow by lia. unfold chars, len.
    rewrite app_nth2 by lia.
    replace (Z.to_nat (Z.of_nat (length body) + 2) - length body)%nat
      with 2%nat by lia.
    reflexivity. }
  assert (Hck : nmeaChecksum bufR 0 len = xor_all body).
  { unfold len. rewrite <- (Z.add_0_l (Z.of_nat (length body))).
    apply nmeaChecksum_list.
    - intros E. unfold len in Hlen. rewrite E in Hlen. simpl in Hlen. lia.
    - intros k Hk. rewrite Z.add_0_l. apply Hbody. exact Hk. }
  exists (mkSerial (mkPort q after) (paylenBuff o) bufR len).
  split; [| split; [reflexivity | split; [| reflexivity]]].
  - unfold readNMEAmsg. rewrite Hs, Hrun.
    change (0 =? 0) with true. cbv iota.
    rewrite Hck, H1, H2. fold (announced h1 h2).
    destruct (xor_all body =? announced h1 h2); reflexivity.
  - simpl payBuff. unfold len. apply contents_pointwise. exact Hbody.
Qed.

Lemma announced_hex2 (v : Z) :
  is_byte v -> announced (hex_char (v / 16)) (hex_char (v mod 16)) = v.
Proof.
  intros Hv. unfold announced. fold (hex2 v).
  rewrite scan_hex_hex2 by exact Hv. reflexivity.
Qed.

Lemma field3_not_CR (mid : Z) : 0 <= mid <= 999 -> ~ In CR (field3 32 mid).
Proof.
  intros H Hin.
  pose proof (field3_byte 32 mid ltac:(unfold is_byte; lia) H) as Hb.
  unfold field3, CR in Hin.
  assert (0 <= mid mod 10 < 10) by (apply Z.mod_pos_bound; lia).
  assert (0 <= mid / 10 mod 10 < 10) by (apply Z.mod_pos_bound; lia).
  assert (0 <= mid / 10) by (apply Z.div_pos; lia).
  assert (0 <= mid / 100) by (apply Z.div_pos; lia).
  destruct (mid <? 10); [| destruct (mid <? 100)];
    destruct Hin as [E | [E | [E | []]]]; lia.
Qed.

(** X12.  A command line built by [writeNMEAcmd] is read back by
    [readNMEAmsg] when the Line Feed of a previous line stands before it:
    the status is 0 and the body the caller finds is everything between [$]
    and [*], that is [PSRF], the id field, a comma and the argument text.
    The call leaves the line before the Line Feed that ends the command,
    which can start the next line. *)
Theorem nmea_command_is_read_back :
  forall (ow o : SerialTxRx) (mid : Z) (args : list Z) (after : event)
         (fuel : nat) (patience : Z),
    0 <= mid <= 999 -> Forall is_byte args ->
    ~ In 0 args -> ~ In CR args ->
    Z.of_nat (length args) + 15 <= MAXBUFFERSIZE ->
    0 < patience -> (length args + 12 <= fuel)%nat ->
    exists wire o',
      writeNMEAcmd sound_outlet ow mid args = Sent wire
      /\ readNMEAmsg fuel patience (on_line o (feed (LF :: wire) after))
           = Some (0, o')
      /\ contents (payBuff o') (payloadLen o')
           = bytes_of "PSRF" ++ field3 32 mid ++ bytes_of "," ++ args
      /\ hSerial o' = feed [LF] after.
Proof.
  intros ow o mid args after fuel patience Hmid Hb Hnul Hcr Hlen Hp Hf.
  exists (nmea_command 32 mid args).
  set (body := bytes_of "PSRF" ++ field3 32 mid ++ bytes_of "," ++ args).
  assert (Lb : length body = (length args + 8)%nat).
  { unfold body. rewrite !length_app, field3_length.
    change (length (bytes_of "PSRF")) with 4%nat.
    change (length (bytes_of ",")) with 1%nat. lia. }
  assert (Hbb : Forall is_byte body).
  { unfold body. apply Forall_app. split.
    - repeat constructor; unfold is_byte; simpl; lia.
    - apply Forall_app. split; [apply field3_byte; unfold is_byte; lia |].
      apply Forall_app. split; [| exact Hb].
      repeat constructor; unfold is_byte; simpl; lia. }
  assert (Hbcr : ~ In CR body).
  { unfold body. intros Hin. apply in_app_or in Hin.
    destruct Hin as [Hin | Hin].
    { simpl in Hin. unfold CR in Hin. intuition discriminate. }
    apply in_app_or in Hin. destruct Hin as [Hin | Hin].
    { revert Hin. apply field3_not_CR. exact Hmid. }
    apply in_app_or in Hin. destruct Hin as [Hin | Hin]; [| contradiction].
    simpl in Hin. unfold CR in Hin. intuition discriminate. }
  pose proof (xor_all_byte body Hbb) as Hv.
  assert (Hv0 : 0 <= xor_all body) by (unfold is_byte in Hv; lia).
  unfold MAXBUFFERSIZE in Hlen.
  destruct (readNMEAmsg_checked fuel patience
              (on_line o (feed (LF :: nmea_command 32 mid args) after))
              body 42 (hex_char (xor_all body / 16))
              (hex_char (xor_all body mod 16)) [Rx LF] after)
    as (o' & Hr & Hl & Hc & Hline).
  - simpl hSerial. unfold nmea_command. fold body.
    change (bytes_of "$") with [DOLAR]. change (bytes_of "*") with [42].
    change (feed (LF :: [DOLAR] ++ body ++ [42] ++ hex2 (xor_all body)
                     ++ [CR; LF]) after)
      with (feed (LF :: DOLAR :: body ++ [42] ++ hex2 (xor_all body)
                     ++ [CR; LF]) after).
    rewrite synchNMEAmsg_on_start by (try exact Hp; lia).
    f_equal. f_equal. unfold feed. f_equal.
    change [Rx LF] with (map Rx [LF]).
    rewrite <- map_app. f_equal. unfold hex2.
    rewrite <- !app_assoc. reflexivity.
  - exact Hbcr.
  - discriminate.
  - apply hex_char_not_CR. apply Z.div_pos; lia.
  - apply hex_char_not_CR. apply Z.mod_pos_bound. lia.
  - lia.
  - unfold MAXBUFFERSIZE. lia.
  - lia.
  - rewrite announced_hex2, Z.eqb_refl in Hr by exact Hv.
    exists o'. split; [apply writeNMEAcmd_line; assumption || (unfold MAXBUFFERSIZE; lia) |].
    split; [exact Hr |]. split; [rewrite Hl; exact Hc | exact Hline].
Qed.

Lemma nmea_command_is_read_back_witness :
  exists wire o',
    writeNMEAcmd sound_outlet (fresh (feed [] Gap)) 100
      (bytes_of "0,9600,8,1,0") = Sent wire
    /\ readNMEAmsg 24 1
         (on_line (fresh (feed [] Gap)) (feed (LF :: wire) Gap))
       = Some (0, o')
    /\ contents (payBuff o') (payloadLen o')
       = bytes_of "PSRF" ++ field3 32 100 ++ bytes_of ","
           ++ bytes_of "0,9600,8,1,0"
    /\ hSerial o' = feed [LF] Gap.
Proof.
  apply (nmea_command_is_read_back (fresh (feed [] Gap)) (fresh (feed [] Gap))
           100 (bytes_of "0,9600,8,1,0") Gap 24 1).
  - lia.
  - repeat constructor; unfold is_byte; simpl; lia.
  - simpl. intuition discriminate.
  - simpl. unfold CR. intuition discriminate.
  - unfold MAXBUFFERSIZE. simpl. lia.
  - lia.
  - simpl. lia.
Defined.

(** ** The NMEA checksum test *)

Lemma fold_left_lxor (l : list Z) (acc : Z) :
  fold_left Z.lxor l acc = Z.lxor acc (xorZ l).
Proof.
  revert acc. induction l as [| c l IH]; intros acc; simpl.
  - rewrite Z.lxor_0_r. reflexivity.
  - rewrite IH. apply Z.lxor_assoc.
Qed.

Lemma xor_all_xorZ (l : list Z) : xor_all l = xorZ l.
Proof.
  destruct l as [| b l]; [reflexivity |].
  unfold xor_all. apply fold_left_lxor.
Qed.

Lemma xorZ_app (l r : list Z) : xorZ (l ++ r) = Z.lxor (xorZ l) (xorZ r).
Proof.
  induction l as [| c l IH]; simpl.
  - reflexivity.
  - rewrite IH. symmetry. apply Z.lxor_assoc.
Qed.

Lemma lxor_cancel_l (a x y : Z) : Z.lxor a x = Z.lxor a y -> x = y.
Proof.
  intros H.
  rewrite <- (Z.lxor_0_l x), <- (Z.lxor_0_l y), <- (Z.lxor_nilpotent a).
  rewrite !Z.lxor_assoc, H. reflexivity.
Qed.

Lemma xor_all_one_changed (l1 l2 : list Z) (b b' : Z) :
  b' <> b -> xor_all (l1 ++ b' :: l2) <> xor_all (l1 ++ b :: l2).
Proof.
  intros Hne H. rewrite !xor_all_xorZ, !xorZ_app in H.
  apply lxor_cancel_l in H. simpl in H.
  rewrite (Z.lxor_comm b'), (Z.lxor_comm b) in H.
  apply lxor_cancel_l in H. contradiction.
Qed.

Lemma readNMEAmsg_line (fuel : nat) (patience : Z) (o : SerialTxRx)
    (body : list Z) (x h1 h2 : Z) (rest : list Z) (after : event) :
  0 < patience ->
  ~ In CR body -> x <> CR -> h1 <> CR -> h2 <> CR ->
  2 <= Z.of_nat (length body) ->
  Z.of_nat (length body) + 3 <= MAXBUFFERSIZE - 1 ->
  (length body + 4 <= fuel)%nat ->
  exists o',
    readNMEAmsg fuel patience
      (on_line o (feed (LF :: DOLAR :: body ++ [x; h1; h2] ++ CR :: rest)
                    after))
      = Some (if xor_all body =? announced h1 h2 then 0 else 1, o')
    /\ payloadLen o' = Z.of_nat (length body)
    /\ contents (payBuff o') (Z.of_nat (length body)) = body
    /\ hSerial o' = feed rest after.
Proof.
  intros Hp Hcr Hx Hh1 Hh2 Hlen Hfit Hf.
  apply (readNMEAmsg_checked fuel patience _ body x h1 h2 (map Rx rest) after);
    try assumption.
  simpl hSerial. rewrite synchNMEAmsg_on_start by (try exact Hp; lia).
  f_equal. f_equal. unfold feed. f_equal.
  rewrite <- map_app. f_equal.
  rewrite <- !app_assoc. reflexivity.
Qed.

(** X13.  One changed character in the body of a line whose two checksum
    characters are right for the body as it was sent: [readNMEAmsg] returns
    1, whatever the character between body and checksum is. *)
Theorem nmea_single_byte_corruption_detected :
  forall (fuel : nat) (patience : Z) (o : SerialTxRx)
         (l1 l2 : list Z) (b b' x : Z) (rest : list Z) (after : event),
    Forall is_byte (l1 ++ b :: l2) ->
    b' <> b -> b' <> CR -> ~ In CR l1 -> ~ In CR l2 -> x <> CR ->
    2 <= Z.of_nat (length (l1 ++ b :: l2)) ->
    Z.of_nat (length (l1 ++ b :: l2)) + 3 <= MAXBUFFERSIZE - 1 ->
    0 < patience -> (length (l1 ++ b :: l2) + 4 <= fuel)%nat ->
    exists o',
      readNMEAmsg fuel patience
        (on_line o
           (feed (LF :: DOLAR :: (l1 ++ b' :: l2)
                    ++ (x :: hex2 (xor_all (l1 ++ b :: l2))) ++ CR :: rest)
              after))
        = Some (1, o')
      /\ contents (payBuff o') (payloadLen o') = l1 ++ b' :: l2.
Proof.
  intros fuel patience o l1 l2 b b' x rest after
         Hb Hne Hb' Hl1 Hl2 Hx Hlen Hfit Hp Hf.
  pose proof (xor_all_byte _ Hb) as Hv.
  assert (Hv0 : 0 <= xor_all (l1 ++ b :: l2)) by (unfold is_byte in Hv; lia).
  assert (L : length (l1 ++ b' :: l2) = length (l1 ++ b :: l2))
    by (rewrite !length_app; reflexivity).
  destruct (readNMEAmsg_line fuel patience o (l1 ++ b' :: l2) x
              (hex_char (xor_all (l1 ++ b :: l2) / 16))
              (hex_char (xor_all (l1 ++ b :: l2) mod 16)) rest after)
    as (o' & Hr & Hl & Hc & _).
  - exact Hp.
  - intros Hin. apply in_app_or in Hin.
    destruct Hin as [Hin | [Hin | Hin]];
      [contradiction | congruence | contradiction].
  - exact Hx.
  - apply hex_char_not_CR. apply Z.div_pos; lia.
  - apply hex_char_not_CR. apply Z.mod_pos_bound. lia.
  - rewrite L. exact Hlen.
  - rewrite L. exact Hfit.
  - rewrite L. exact Hf.
  - rewrite announced_hex2 in Hr by exact Hv.
    replace (xor_all (l1 ++ b' :: l2) =? xor_all (l1 ++ b :: l2)) with false
      in Hr
      by (symmetry; apply Z.eqb_neq; apply xor_all_one_changed; exact Hne).
    exists o'. split; [exact Hr | rewrite Hl; exact Hc].
Qed.

Lemma nmea_single_byte_corruption_detected_witness :
  exists o',
    readNMEAmsg 12 1
      (on_line (fresh (feed [] Gap))
         (feed (LF :: DOLAR :: (bytes_of "GP" ++ 88 :: bytes_of "LL")
                  ++ (42 :: hex2 (xor_all (bytes_of "GP" ++ 71 :: bytes_of "LL")))
                  ++ CR :: [LF])
            Gap))
      = Some (1, o')
    /\ contents (payBuff o') (payloadLen o')
       = bytes_of "GP" ++ 88 :: bytes_of "LL".
Proof.
  apply (nmea_single_byte_corruption_detected 12 1 (fresh (feed [] Gap))
           (bytes_of "GP") (bytes_of "LL") 71 88 42 [LF] Gap).
  - repeat constructor; unfold is_byte; simpl; lia.
  - discriminate.
  - discriminate.
  - simpl. unfold CR. intuition discriminate.
  - simpl. unfold CR. intuition discriminate.
  - discriminate.
  - simpl. lia.
  - unfold MAXBUFFERSIZE. simpl. lia.
  - lia.
  - simpl. lia.
Defined.

Lemma take_sign_other (h : Z) (s : list Z) :
  h <> 45 -> h <> 43 -> take_sign (h :: s) = (false, h :: s).
Proof.
  intros H45 H43. unfold take_sign.
  destruct h as [| p | p]; [reflexivity | | reflexivity].
  do 6 (destruct p as [p | p |]; try reflexivity); congruence.
Qed.

Lemma starts_0x_other (h : Z) (s : list Z) :
  h <> 48 -> starts_0x (h :: s) = false.
Proof.
  intros H48. unfold starts_0x.
  destruct h as [| p | p]; [reflexivity | | reflexivity].
  do 6 (destruct p as [p | p |]; try reflexivity);
    destruct s; try reflexivity; congruence.
Qed.

Lemma announced_unreadable (h1 h2 : Z) :
  is_hex_digit h1 = false -> isspace h1 = false -> h1 <> 43 -> h1 <> 45 ->
  announced h1 h2 = 0.
Proof.
  intros Hd Hs H43 H45. unfold announced.
  simpl c_str. destruct (h1 =? 0); [reflexivity |].
  assert (H48 : h1 <> 48) by (intros E; rewrite E in Hd; discriminate).
  unfold scan_hex. cbn [skip_space]. rewrite Hs.
  rewrite take_sign_other by assumption.
  rewrite starts_0x_other by assumption.
  cbn [digits]. unfold is_hex_digit in Hd.
  destruct (digit_in 16 h1); [discriminate | reflexivity].
Qed.

(** X14.  When the first of the two checksum characters is neither a
    hexadecimal digit nor a sign nor white space, nothing is converted and
    the checksum announced counts as 0: the line is accepted exactly when
    the exclusive or of its body is 0. *)
Theorem nmea_unreadable_checksum_counts_as_zero :
  forall (fuel : nat) (patience : Z) (o : SerialTxRx)
         (body : list Z) (x h1 h2 : Z) (rest : list Z) (after : event),
    is_hex_digit h1 = false -> isspace h1 = false ->
    h1 <> 43 -> h1 <> 45 ->
    ~ In CR body -> x <> CR -> h2 <> CR ->
    2 <= Z.of_nat (length body) ->
    Z.of_nat (length body) + 3 <= MAXBUFFERSIZE - 1 ->
    0 < patience -> (length body + 4 <= fuel)%nat ->
    exists o',
      readNMEAmsg fuel patience
        (on_line o (feed (LF :: DOLAR :: body ++ [x; h1; h2] ++ CR :: rest)
                      after))
        = Some (if xor_all body =? 0 then 0 else 1, o')
      /\ contents (payBuff o') (payloadLen o') = body.
Proof.
  intros fuel patience o body x h1 h2 rest after
         Hd Hs H43 H45 Hcr Hx Hh2 Hlen Hfit Hp Hf.
  assert (Hh1 : h1 <> CR)
    by (intros E; rewrite E in Hs; discriminate).
  destruct (readNMEAmsg_line fuel patience o body x h1 h2 rest after
              Hp Hcr Hx Hh1 Hh2 Hlen Hfit Hf) as (o' & Hr & Hl & Hc & _).
  rewrite announced_unreadable in Hr by assumption.
  exists o'. split; [exact Hr | rewrite Hl; exact Hc].
Qed.

Lemma nmea_unreadable_checksum_counts_as_zero_witness :
  exists o',
    readNMEAmsg 12 1
      (on_line (fresh (feed [] Gap))
         (feed (LF :: DOLAR :: bytes_of "GPGP" ++ [42; 90; 90] ++ CR :: [LF])
            Gap))
      = Some (if xor_all (bytes_of "GPGP") =? 0 then 0 else 1, o')
    /\ contents (payBuff o') (payloadLen o') = bytes_of "GPGP".
Proof.
  apply (nmea_unreadable_checksum_counts_as_zero 12 1 (fresh (feed [] Gap))
           (bytes_of "GPGP") 42 90 90 [LF] Gap).
  - reflexivity.
  - reflexivity.
  - discriminate.
  - discriminate.
  - simpl. unfold CR. intuition discriminate.
  - discriminate.
  - discriminate.
  - simpl. lia.
  - unfold MAXBUFFERSIZE. simpl. lia.
  - lia.
  - simpl. lia.
Defined.

(** ** [readNMEAmsg] on any line *)

Lemma store_byte_same (buf : buffer) (off c : Z) : store buf off [c] off = c.
Proof.
  rewrite <- (Z.add_0_r off) at 2.
  apply (store_inside buf off [c] 0). simpl. lia.
Qed.

(** The loop returns within [MAXBUFFERSIZE] reads whatever arrives, and
    writes only inside [payBuff]. *)
Lemma nmea_loop_total (n : nat) :
  forall (k : Z) (buf : buffer) (p : port),
    0 <= k <= MAXBUFFERSIZE - 1 -> MAXBUFFERSIZE <= k + Z.of_nat n ->
    exists rv len buf' p',
      nmea_loop n k buf p = Some (rv, len, buf', p')
      /\ (rv = 0 \/ rv = 2 \/ rv = 3)
      /\ 0 <= len <= MAXBUFFERSIZE - 1
      /\ (rv = 0 -> 2 <= len /\ buf' len = 0)
      /\ (forall i, i < 0 \/ MAXBUFFERSIZE <= i -> buf' i = buf i).
Proof.
  unfold MAXBUFFERSIZE.
  induction n as [| n IH]; intros k buf p Hk Hn; [lia |].
  cbn [nmea_loop]. rewrite read_one.
  destruct (next p) as [[b | |] p'].
  - change (1 =? 1) with true. cbv iota. rewrite store_byte_same.
    destruct (b =? CR).
    + destruct (k <? 5) eqn:E5.
      * exists 2, k, (store (store buf k [b]) k [0]), p'.
        split; [reflexivity |]. split; [auto |]. split; [lia |].
        split; [discriminate |].
        intros i Hi. rewrite !store_byte_other by lia. reflexivity.
      * apply Z.ltb_ge in E5.
        exists 0, (k - 3),
          (store (store (store buf k [b]) k [0]) (k - 3) [0]), p'.
        split; [reflexivity |]. split; [auto |]. split; [lia |].
        split; [intros _; split; [lia | apply store_byte_same] |].
        intros i Hi. rewrite !store_byte_other by lia. reflexivity.
    + unfold MAXBUFFERSIZE. destruct (k <? 2052 - 1) eqn:E.
      * apply Z.ltb_lt in E.
        destruct (IH (k + 1) (store buf k [b]) p' ltac:(lia) ltac:(lia))
          as (rv & len & buf' & p'' & Hrun & Hrv & Hlen & H0 & Hout).
        exists rv, len, buf', p''.
        split; [exact Hrun |]. split; [exact Hrv |]. split; [exact Hlen |].
        split; [exact H0 |].
        intros i Hi. rewrite Hout by exact Hi.
        apply store_byte_other. lia.
      * exists 3, k, (store buf k [b]), p'.
        split; [reflexivity |]. split; [auto |]. split; [lia |].
        split; [discriminate |].
        intros i Hi. apply store_byte_other. lia.
  - exists 3, k, buf, p'.
    split; [reflexivity |]. split; [auto |]. split; [lia |].
    split; [discriminate | reflexivity].
  - exists 3, k, buf, p'.
    split; [reflexivity |]. split; [auto |]. split; [lia |].
    split; [discriminate | reflexivity].
Qed.

(** X15.  Once the start of a line is found, [readNMEAmsg] returns within
    [MAXBUFFERSIZE] further reads whatever the line delivers.  Its status is
    one of 0 to 4, [payloadLen] is at most [MAXBUFFERSIZE - 1], nothing is
    written outside [payBuff], and with status 0 the body has at least two
    characters and is followed by a NUL. *)
Theorem nmea_read_ends_inside_its_buffer :
  forall (fuel : nat) (patience : Z) (o : SerialTxRx),
    (Z.to_nat MAXBUFFERSIZE <= fuel)%nat ->
    synchNMEAmsg fuel patience (hSerial o) <> None ->
    exists s o',
      readNMEAmsg fuel patience o = Some (s, o')
      /\ 0 <= s <= 4
      /\ 0 <= payloadLen o' <= MAXBUFFERSIZE - 1
      /\ (s = 0 -> 2 <= payloadLen o' /\ payBuff o' (payloadLen o') = 0)
      /\ (forall i, i < 0 \/ MAXBUFFERSIZE <= i -> payBuff o' i = payBuff o i)
      /\ paylenBuff o' = paylenBuff o.
Proof.
  intros fuel patience o Hf Hs. unfold readNMEAmsg.
  destruct (synchNMEAmsg fuel patience (hSerial o)) as [[[|] p1] |];
    [| | congruence].
  - destruct (nmea_loop_total fuel 0 (payBuff o) p1)
      as (rv & len & buf' & p' & Hrun & Hrv & Hlen & H0 & Hout).
    { unfold MAXBUFFERSIZE. lia. }
    { unfold MAXBUFFERSIZE in *. lia. }
    rewrite Hrun.
    destruct Hrv as [-> | [-> | ->]].
    + change (0 =? 0) with true. cbv iota zeta.
      destruct (negb _);
        eexists _, _; (split; [reflexivity |]); simpl;
        (split; [lia |]); (split; [exact Hlen |]);
        (split; [| split; [exact Hout | reflexivity]]).
      * discriminate.
      * exact H0.
    + eexists _, _. split; [reflexivity |]. simpl.
      split; [lia |]. split; [exact Hlen |].
      split; [discriminate |]. split; [exact Hout | reflexivity].
    + eexists _, _. split; [reflexivity |]. simpl.
      split; [lia |]. split; [exact Hlen |].
      split; [discriminate |]. split; [exact Hout | reflexivity].
  - eexists _, _. split; [reflexivity |]. simpl.
    unfold MAXBUFFERSIZE.
    split; [lia |]. split; [lia |].
    split; [discriminate |]. split; reflexivity.
Qed.

Lemma nmea_read_ends_inside_its_buffer_witness :
  exists s o',
    readNMEAmsg 2052 3
      (fresh (feed (bytes_of "GP" ++ [LF; DOLAR] ++ bytes_of "GPGGA,1") Gap))
      = Some (s, o')
    /\ 0 <= s <= 4
    /\ 0 <= payloadLen o' <= MAXBUFFERSIZE - 1
    /\ (s = 0 -> 2 <= payloadLen o' /\ payBuff o' (payloadLen o') = 0)
    /\ (forall i, i < 0 \/ MAXBUFFERSIZE <= i -> payBuff o' i = blank i)
    /\ paylenBuff o' = blank.
Proof.
  apply (nmea_read_ends_inside_its_buffer 2052 3
           (fresh (feed (bytes_of "GP" ++ [LF; DOLAR] ++ bytes_of "GPGGA,1")
                     Gap))).
  - vm_compute. lia.
  - vm_compute. discriminate.
Defined.

(** X16.  A line that breaks off before its Carriage Return, by a pause or
    by a failed read: [readNMEAmsg] returns 3, and what had arrived of the
    line is in [payBuff], counted by [payloadLen]. *)
Theorem nmea_line_broken_off :
  forall (fuel : nat) (patience : Z) (o : SerialTxRx)
         (chars : list Z) (e : event) (q : list event) (after : event),
    ~ In CR chars -> quiet e = true ->
    Z.of_nat (length chars) <= MAXBUFFERSIZE - 1 ->
    0 < patience -> (length chars + 2 <= fuel)%nat ->
    exists o',
      readNMEAmsg fuel patience
        (on_line o (mkPort (map Rx (LF :: DOLAR :: chars) ++ e :: q) after))
        = Some (3, o')
      /\ contents (payBuff o') (payloadLen o') = chars
      /\ hSerial o' = mkPort q after.
Proof.
  intros fuel patience o chars e q after Hcr He Hfit Hp Hf.
  assert (Hs : synchNMEAmsg fuel patience
                 (mkPort (map Rx (LF :: DOLAR :: chars) ++ e :: q) after)
               = Some (true, mkPort (map Rx chars ++ e :: q) after)).
  { pose proof (synch_reaches_start LF DOLAR ltac:(discriminate)
                  (map Rx chars ++ e :: q) after [] fuel 1 patience
                  (or_introl eq_refl) eq_refl) as H.
    unfold synchNMEAmsg. simpl map in *. simpl app in *.
    rewrite H by (try exact Hp; simpl; lia). reflexivity. }
  destruct (nmea_loop_chars (e :: q) after chars (fuel - length chars) 0
              (payBuff o) Hcr ltac:(lia) ltac:(lia))
    as (buf' & Hrun & Hbuf).
  replace (length chars + (fuel - length chars))%nat with fuel in Hrun by lia.
  rewrite Z.add_0_l in Hrun.
  exists (mkSerial (mkPort q after) (paylenBuff o) buf'
            (Z.of_nat (length chars))).
  split; [| split; [| reflexivity]].
  - unfold readNMEAmsg, on_line. cbn [hSerial payBuff paylenBuff].
    rewrite Hs, Hrun.
    destruct (fuel - length chars)%nat as [| f] eqn:E; [lia |].
    cbn [nmea_loop]. rewrite read_one. unfold next. simpl queue.
    destruct e as [b | |]; [discriminate | reflexivity | reflexivity].
  - simpl. apply contents_pointwise. intros k Hk.
    rewrite Hbuf. apply store_at_0. exact Hk.
Qed.

Lemma nmea_line_broken_off_witness :
  exists o',
    readNMEAmsg 9 1
      (on_line (fresh (feed [] Gap))
         (mkPort (map Rx (LF :: DOLAR :: bytes_of "GPGGA,1") ++ Err :: [])
            Gap))
      = Some (3, o')
    /\ contents (payBuff o') (payloadLen o') = bytes_of "GPGGA,1"
    /\ hSerial o' = mkPort [] Gap.
Proof.
  apply (nmea_line_broken_off 9 1 (fresh (feed [] Gap)) (bytes_of "GPGGA,1")
           Err [] Gap).
  - simpl. unfold CR. intuition discriminate.
  - reflexivity.
  - unfold MAXBUFFERSIZE. simpl. lia.
  - lia.
  - simpl. lia.
Defined.

(** ** Lines that are never found, and lines that are too long *)

Section NoStartSequence.

Variables m1 m2 : Z.
Hypothesis markers_differ : m1 <> m2.

(** Bytes without a start sequence, then a quiet line: the loop reads them
    all or runs out of patience before, and does not reach state 3. *)
Lemma synch_no_pair (i : event) :
  quiet i = true ->
  forall (bs : list Z) (fuel : nat) (state patience : Z),
    state = 1 \/ (state = 2 /\ hd m1 bs <> m2) ->
    has_pair m1 m2 bs = false ->
    0 <= patience -> (length bs + Z.to_nat patience <= fuel)%nat ->
    exists st p',
      synch_loop m1 m2 fuel state patience (feed bs i) = Some (st, 0, p')
      /\ st <> 3.
Proof.
  intros Hq.
  induction bs as [| b bs IH]; intros fuel state patience Hst Hnp H0 Hf.
  - exists state, (mkPort [] i). split.
    + apply synch_quiet;
        [exact Hq | destruct Hst as [-> | [-> _]]; discriminate | exact H0
        | simpl in Hf; lia].
    + destruct Hst as [-> | [-> _]]; discriminate.
  - destruct (Z.eq_dec patience 0) as [-> | Hne].
    { exists state, (feed (b :: bs) i). split.
      - apply synch_loop_exit. right. lia.
      - destruct Hst as [-> | [-> _]]; discriminate. }
    simpl length in Hf. destruct fuel as [| fuel]; [lia |].
    pose proof (has_pair_tail m1 m2 b bs Hnp) as Hnp'.
    unfold feed. simpl map.
    rewrite synch_loop_step;
      [| destruct Hst as [-> | [-> _]]; discriminate | lia].
    rewrite read_one, next_feed_cons. unfold synch_body. simpl hd.
    change (1 =? 1) with true. cbv iota.
    destruct (b =? m1) eqn:E1.
    + apply Z.eqb_eq in E1. subst b.
      assert (S2 : (if state =? 1 then (2, patience)
                    else if state =? 2 then (state, patience)
                         else (state, patience)) = (2, patience))
        by (destruct Hst as [-> | [-> _]]; reflexivity).
      rewrite S2.
      apply (IH fuel 2 patience
               (or_intror (conj eq_refl
                             (has_pair_head m1 m2 markers_differ bs Hnp)))
               Hnp' ltac:(lia) ltac:(lia)).
    + destruct (b =? m2) eqn:E2.
      * apply Z.eqb_eq in E2. subst b.
        destruct Hst as [-> | [-> Hhd]]; [| simpl in Hhd; congruence].
        change (1 =? 1) with true. cbv iota.
        apply (IH fuel 1 patience (or_introl eq_refl) Hnp'
                 ltac:(lia) ltac:(lia)).
      * assert (S1 : (if state =? 1 then (state, patience - 1)
                      else if state =? 2 then (1, patience - 1)
                           else (state, patience)) = (1, patience - 1))
          by (destruct Hst as [-> | [-> _]]; reflexivity).
        rewrite S1.
        apply (IH fuel 1 (patience - 1) (or_introl eq_refl) Hnp'
                 ltac:(lia) ltac:(lia)).
Qed.

End NoStartSequence.

(** X17.  When the line delivers finitely many bytes in which no Line Feed
    is immediately followed by [$], and is quiet from then on,
    [readNMEAmsg] returns 4 with [payloadLen] 0 and leaves [payBuff] as it
    was.  The Line Feed that starts a line is the one that ends the line
    before: the example is a command line of [writeNMEAcmd] on its own. *)
Theorem nmea_no_line_start_gives_4 :
  forall (bs : list Z) (after : event) (o : SerialTxRx)
         (fuel : nat) (patience : Z),
    has_pair LF DOLAR bs = false -> quiet after = true ->
    0 <= patience -> (length bs + Z.to_nat patience <= fuel)%nat ->
    exists o',
      readNMEAmsg fuel patience (on_line o (feed bs after)) = Some (4, o')
      /\ payloadLen o' = 0
      /\ payBuff o' = payBuff o.
Proof.
  intros bs after o fuel patience Hnp Hq H0 Hf.
  destruct (synch_no_pair LF DOLAR ltac:(discriminate) after Hq bs fuel 1
              patience (or_introl eq_refl) Hnp H0 Hf)
    as (st & p' & Hrun & Hst).
  exists (mkSerial p' (paylenBuff o) (payBuff o) 0).
  split; [| split; reflexivity].
  unfold readNMEAmsg, synchNMEAmsg, on_line. cbn [hSerial payBuff paylenBuff].
  rewrite Hrun. cbv beta iota delta [synch_result].
  apply Z.eqb_neq in Hst. rewrite Hst. reflexivity.
Qed.

Lemma nmea_no_line_start_gives_4_witness :
  exists o',
    readNMEAmsg 40 5
      (on_line (fresh (feed [] Gap))
         (feed (nmea_command 32 100 (bytes_of "0,9600,8,1,0")) Gap))
      = Some (4, o')
    /\ payloadLen o' = 0
    /\ payBuff o' = payBuff (fresh (feed [] Gap)).
Proof.
  apply (nmea_no_line_start_gives_4
           (nmea_command 32 100 (bytes_of "0,9600,8,1,0")) Gap
           (fresh (feed [] Gap)) 40 5).
  - vm_compute. reflexivity.
  - reflexivity.
  - lia.
  - vm_compute. lia.
Defined.

(** X18.  A line of [MAXBUFFERSIZE] characters without a Carriage Return:
    [readNMEAmsg] stops there with status 3 and [payloadLen] at
    [MAXBUFFERSIZE - 1].  All [MAXBUFFERSIZE] characters are in [payBuff],
    and what follows them stays on the line. *)
Theorem nmea_line_too_long :
  forall (fuel : nat) (patience : Z) (o : SerialTxRx)
         (chars : list Z) (c : Z) (q : list event) (after : event),
    Z.of_nat (length chars) = MAXBUFFERSIZE - 1 ->
    ~ In CR chars -> c <> CR ->
    0 < patience -> (length chars + 3 <= fuel)%nat ->
    exists o',
      readNMEAmsg fuel patience
        (on_line o
           (mkPort (map Rx (LF :: DOLAR :: chars ++ [c]) ++ q) after))
        = Some (3, o')
      /\ payloadLen o' = MAXBUFFERSIZE - 1
      /\ contents (payBuff o') MAXBUFFERSIZE = chars ++ [c]
      /\ hSerial o' = mkPort q after.
Proof.
  intros fuel patience o chars c q after Hlen Hcr Hc Hp Hf.
  assert (Hs : synchNMEAmsg fuel patience
                 (mkPort (map Rx (LF :: DOLAR :: chars ++ [c]) ++ q) after)
               = Some (true, mkPort (map Rx chars ++ Rx c :: q) after)).
  { pose proof (synch_reaches_start LF DOLAR ltac:(discriminate)
                  (map Rx chars ++ Rx c :: q) after [] fuel 1 patience
                  (or_introl eq_refl) eq_refl) as H.
    unfold synchNMEAmsg. simpl map in *. simpl app in *.
    rewrite map_app, <- app_assoc. simpl map. simpl app.
    rewrite H by (try exact Hp; simpl; lia). reflexivity. }
  destruct (nmea_loop_chars (Rx c :: q) after chars (fuel - length chars) 0
              (payBuff o) Hcr ltac:(lia) ltac:(lia))
    as (buf' & Hrun & Hbuf).
  replace (length chars + (fuel - length chars))%nat with fuel in Hrun by lia.
  rewrite Z.add_0_l, Hlen in Hrun.
  exists (mkSerial (mkPort q after) (paylenBuff o)
            (store buf' (MAXBUFFERSIZE - 1) [c]) (MAXBUFFERSIZE - 1)).
  split; [| split; [reflexivity | split; [| reflexivity]]].
  - unfold readNMEAmsg, on_line. cbn [hSerial payBuff paylenBuff].
    rewrite Hs, Hrun.
    destruct (fuel - length chars)%nat as [| f] eqn:E; [lia |].
    cbn [nmea_loop]. rewrite read_one, next_feed_cons.
    change (1 =? 1) with true. cbv iota. rewrite store_byte_same.
    apply Z.eqb_neq in Hc. rewrite Hc. rewrite Z.ltb_irrefl. reflexivity.
  - cbn [payBuff].
    assert (HB : forall k, (k < length (chars ++ [c]))%nat ->
                   store buf' (MAXBUFFERSIZE - 1) [c] (Z.of_nat k)
                     = nth k (chars ++ [c]) 0).
    { intros k Hk. rewrite length_app in Hk. simpl length in Hk.
      destruct (Nat.eq_dec k (length chars)) as [-> | Hne].
      - rewrite Hlen, store_byte_same.
        rewrite app_nth2 by lia. rewrite Nat.sub_diag. reflexivity.
      - rewrite store_byte_other by lia. rewrite Hbuf.
        rewrite store_at_0 by lia. rewrite app_nth1 by lia. reflexivity. }
    revert HB. generalize (store buf' (MAXBUFFERSIZE - 1) [c]). intros B HB.
    replace MAXBUFFERSIZE with (Z.of_nat (length (chars ++ [c])))
      by (rewrite length_app; simpl length; lia).
    apply contents_pointwise. exact HB.
Qed.

Lemma nmea_line_too_long_witness :
  exists o',
    readNMEAmsg 2054 1
      (on_line (fresh (feed [] Gap))
         (mkPort (map Rx (LF :: DOLAR :: repeat 65 2051 ++ [66])
                    ++ [Rx 67; Rx CR]) Gap))
      = Some (3, o')
    /\ payloadLen o' = MAXBUFFERSIZE - 1
    /\ contents (payBuff o') MAXBUFFERSIZE = repeat 65 2051 ++ [66]
    /\ hSerial o' = mkPort [Rx 67; Rx CR] Gap.
Proof.
  apply (nmea_line_too_long 2054 1 (fresh (feed [] Gap)) (repeat 65 2051) 66
           [Rx 67; Rx CR] Gap).
  - vm_compute. reflexivity.
  - intros H. apply repeat_spec in H. discriminate.
  - discriminate.
  - lia.
  - rewrite repeat_length. lia.
Defined.

Lemma on_line_self (o : SerialTxRx) : on_line o (hSerial o) = o.
Proof. destruct o. reflexivity. Qed.

(** X19.  Two lines one after the other, each with the checksum characters
    of its body, after one Line Feed: the first call of [readNMEAmsg]
    returns 0 with the first body, and the next call on the same object
    returns 0 with the second, started by the Line Feed that ends the
    first. *)
Theorem nmea_two_lines_in_a_row :
  forall (fuel : nat) (patience : Z) (o : SerialTxRx)
         (b1 b2 : list Z) (x1 x2 : Z) (rest : list Z) (after : event),
    Forall is_byte b1 -> Forall is_byte b2 ->
    ~ In CR b1 -> ~ In CR b2 -> x1 <> CR -> x2 <> CR ->
    2 <= Z.of_nat (length b1) -> 2 <= Z.of_nat (length b2) ->
    Z.of_nat (length b1) + 3 <= MAXBUFFERSIZE - 1 ->
    Z.of_nat (length b2) + 3 <= MAXBUFFERSIZE - 1 ->
    0 < patience ->
    (length b1 + 4 <= fuel)%nat -> (length b2 + 4 <= fuel)%nat ->
    exists o1 o2,
      readNMEAmsg fuel patience
        (on_line o
           (feed (LF :: (DOLAR :: b1 ++ (x1 :: hex2 (xor_all b1)) ++ [CR; LF])
                    ++ (DOLAR :: b2 ++ (x2 :: hex2 (xor_all b2)) ++ [CR; LF])
                    ++ rest)
              after))
        = Some (0, o1)
      /\ contents (payBuff o1) (payloadLen o1) = b1
      /\ readNMEAmsg fuel patience o1 = Some (0, o2)
      /\ contents (payBuff o2) (payloadLen o2) = b2
      /\ hSerial o2 = feed (LF :: rest) after.
Proof.
  intros fuel patience o b1 b2 x1 x2 rest after
         B1 B2 C1 C2 X1 X2 L1 L2 F1 F2 Hp Hf1 Hf2.
  pose proof (xor_all_byte b1 B1) as V1.
  pose proof (xor_all_byte b2 B2) as V2.
  assert (V1' : 0 <= xor_all b1) by (unfold is_byte in V1; lia).
  assert (V2' : 0 <= xor_all b2) by (unfold is_byte in V2; lia).
  destruct (readNMEAmsg_line fuel patience o b1 x1
              (hex_char (xor_all b1 / 16)) (hex_char (xor_all b1 mod 16))
              (LF :: (DOLAR :: b2 ++ (x2 :: hex2 (xor_all b2)) ++ [CR; LF])
                 ++ rest) after Hp C1 X1
              (hex_char_not_CR _ (Z.div_pos (xor_all b1) 16 V1' ltac:(lia)))
              (hex_char_not_CR _
                 (proj1 (Z.mod_pos_bound (xor_all b1) 16 ltac:(lia))))
              L1 F1 Hf1)
    as (o1 & R1 & P1 & K1 & H1).
  rewrite announced_hex2, Z.eqb_refl in R1 by exact V1.
  destruct (readNMEAmsg_line fuel patience o1 b2 x2
              (hex_char (xor_all b2 / 16)) (hex_char (xor_all b2 mod 16))
              (LF :: rest) after Hp C2 X2
              (hex_char_not_CR _ (Z.div_pos (xor_all b2) 16 V2' ltac:(lia)))
              (hex_char_not_CR _
                 (proj1 (Z.mod_pos_bound (xor_all b2) 16 ltac:(lia))))
              L2 F2 Hf2)
    as (o2 & R2 & P2 & K2 & H2).
  rewrite announced_hex2, Z.eqb_refl in R2 by exact V2.
  exists o1, o2.
  split.
  { rewrite <- R1. f_equal. f_equal. f_equal. f_equal. f_equal.
    unfold hex2. cbn [app]. rewrite <- !app_assoc. reflexivity. }
  split; [rewrite P1; exact K1 |].
  split.
  { rewrite <- R2. f_equal. rewrite <- (on_line_self o1) at 1.
    rewrite H1. f_equal. f_equal. f_equal. f_equal.
    unfold hex2. cbn [app]. rewrite <- !app_assoc. reflexivity. }
  split; [rewrite P2; exact K2 | exact H2].
Qed.

Lemma nmea_two_lines_in_a_row_witness :
  exists o1 o2,
    readNMEAmsg 12 1
      (on_line (fresh (feed [] Gap))
         (feed (LF :: (DOLAR :: bytes_of "GPGGA"
                         ++ (42 :: hex2 (xor_all (bytes_of "GPGGA")))
                         ++ [CR; LF])
                  ++ (DOLAR :: bytes_of "GPRMC,1"
                        ++ (42 :: hex2 (xor_all (bytes_of "GPRMC,1")))
                        ++ [CR; LF])
                  ++ [])
            Gap))
      = Some (0, o1)
    /\ contents (payBuff o1) (payloadLen o1) = bytes_of "GPGGA"
    /\ readNMEAmsg 12 1 o1 = Some (0, o2)
    /\ contents (payBuff o2) (payloadLen o2) = bytes_of "GPRMC,1"
    /\ hSerial o2 = feed (LF :: []) Gap.
Proof.
  apply (nmea_two_lines_in_a_row 12 1 (fresh (feed [] Gap))
           (bytes_of "GPGGA") (bytes_of "GPRMC,1") 42 42 [] Gap).
  - repeat constructor; unfold is_byte; simpl; lia.
  - repeat constructor; unfold is_byte; simpl; lia.
  - simpl. unfold CR. intuition discriminate.
  - simpl. unfold CR. intuition discriminate.
  - discriminate.
  - discriminate.
  - simpl. lia.
  - simpl. lia.
  - unfold MAXBUFFERSIZE. simpl. lia.
  - unfold MAXBUFFERSIZE. simpl. lia.
  - lia.
  - simpl. lia.
  - simpl. lia.
Defined.

(** ** [writeNMEAcmd] and the size of [payBuff] *)

(** X20.  [writeNMEAcmd] makes no test on the length of its arguments
    before it builds the line, and the bound it gives to [strncat] is the
    size of the whole buffer.  For an id from 0 to 999 and arguments of
    bytes without a NUL, when the line and its terminator take more than
    [MAXBUFFERSIZE] characters the string is written past the end of
    [payBuff]: from there on the language leaves the execution undefined,
    which is the outcome [Unspecified], for every port.  What [write] and
    [tcdrain] do after the overrun is not described. *)
Theorem nmea_command_too_long_overruns :
  forall (tx : outlet) (o : SerialTxRx) (mid : Z) (args : list Z),
    0 <= mid <= 999 -> Forall is_byte args -> ~ In 0 args ->
    MAXBUFFERSIZE < Z.of_nat (length args) + 15 ->
    writeNMEAcmd tx o mid args = Unspecified.
Proof.
  intros tx o mid args Hmid Hargs Hnul Hlen. unfold writeNMEAcmd.
  rewrite fmt_d_3 by exact Hmid.
  change (bytes_of "$PSRF") with (36 :: [80; 83; 82; 70]).
  change (bytes_of ",") with [44]. change (bytes_of "*") with [42].
  unfold MAXBUFFERSIZE in Hlen.
  set (header := (36 :: [80; 83; 82; 70]) ++ field3 32 mid ++ [44]).
  assert (Lh : length header = 9%nat).
  { unfold header. rewrite !length_app, field3_length. reflexivity. }
  destruct (Z_le_gt_dec 2043 (Z.of_nat (length args))) as [Hbig | Hsmall].
  - assert (Hfit : fits (strncat header args MAXBUFFERSIZE) = false).
    { unfold fits, strncat. apply Z.leb_gt.
      rewrite c_str_no_nul by exact Hnul.
      rewrite length_app, Lh, length_firstn. unfold MAXBUFFERSIZE. lia. }
    rewrite Hfit. reflexivity.
  - rewrite strncat_whole by (try exact Hnul; unfold MAXBUFFERSIZE; lia).
    unfold header.
    replace (((36 :: [80; 83; 82; 70]) ++ field3 32 mid ++ [44]) ++ args)
      with (36 :: [80; 83; 82; 70] ++ field3 32 mid ++ [44] ++ args)
      by (simpl; rewrite <- !app_assoc; reflexivity).
    assert (Lc : Z.of_nat (length ([80; 83; 82; 70] ++ field3 32 mid
                                     ++ [44] ++ args))
                 = Z.of_nat (length args) + 8).
    { rewrite !length_app, field3_length. simpl length. lia. }
    assert (Hbytes : Forall is_byte
                       ([80; 83; 82; 70] ++ field3 32 mid ++ [44] ++ args)).
    { apply Forall_app. split.
      - repeat constructor; unfold is_byte; lia.
      - apply Forall_app. split; [apply field3_byte; unfold is_byte; lia |].
        apply Forall_app. split; [| exact Hargs].
        repeat constructor; unfold is_byte; lia. }
    assert (Hne : [80; 83; 82; 70] ++ field3 32 mid ++ [44] ++ args <> [])
      by discriminate.
    set (covered := [80; 83; 82; 70] ++ field3 32 mid ++ [44] ++ args) in *.
    clearbody covered.
    assert (Lt : Z.of_nat (length (36 :: covered))
                 = Z.of_nat (length args) + 9).
    { change (length (36 :: covered)) with (S (length covered)). lia. }
    destruct (fits (36 :: covered)); [| reflexivity].
    cbv iota beta delta [negb].
    assert (Hx : nmeaChecksum (store (payBuff o) 0 (36 :: covered)) 1
                   (Z.of_nat (length (36 :: covered))) = xor_all covered).
    { replace (Z.of_nat (length (36 :: covered)))
        with (1 + Z.of_nat (length covered)) by lia.
      apply nmeaChecksum_list; [exact Hne |].
      intros k Hk. replace (1 + Z.of_nat k) with (Z.of_nat (S k)) by lia.
      rewrite store_at_0
        by (change (length (36 :: covered)) with (S (length covered)); lia).
      reflexivity. }
    rewrite Hx.
    pose proof (xor_all_byte covered Hbytes) as Hv.
    rewrite fmt_0X_byte by exact Hv.
    set (trailer := [42] ++ hex2 (xor_all covered) ++ [CR; LF]).
    assert (Hn : ~ In 0 trailer).
    { unfold trailer. intros Hin. apply in_app_or in Hin.
      destruct Hin as [Hin | Hin].
      - simpl in Hin. destruct Hin as [Hin | []]. discriminate.
      - apply in_app_or in Hin. destruct Hin as [Hin | Hin].
        + revert Hin. apply hex2_not_nul. unfold is_byte in Hv. lia.
        + simpl in Hin. destruct Hin as [Hin | [Hin | []]]; discriminate. }
    assert (Ltr : length trailer = 5%nat) by reflexivity.
    rewrite strncat_whole
      by (try exact Hn; rewrite Ltr; unfold MAXBUFFERSIZE; lia).
    assert (Hfit2 : fits ((36 :: covered) ++ trailer) = false).
    { unfold fits. apply Z.leb_gt.
      rewrite length_app, Ltr, Nat2Z.inj_add, Lt. unfold MAXBUFFERSIZE. lia. }
    rewrite Hfit2. reflexivity.
Qed.

Lemma nmea_command_too_long_overruns_witness :
  writeNMEAcmd sound_outlet (fresh (feed [] Gap)) 100 (repeat 49 2038)
    = Unspecified.
Proof.
  apply (nmea_command_too_long_overruns sound_outlet (fresh (feed [] Gap)) 100
           (repeat 49 2038)).
  - lia.
  - apply Forall_forall. intros x H. apply repeat_spec in H. subst x.
    unfold is_byte. lia.
  - intros H. apply repeat_spec in H. discriminate.
  - rewrite repeat_length. unfold MAXBUFFERSIZE. lia.
Defined.

(** ** The table of baud rates *)

Section BaudRates.

(** The identifier that [termios.h] gives to each rate. *)
Variable B : Z -> Z.

Lemma getCBRrate_added (rates : list Z) :
  forall (acc : list CBRrate) (rate : Z),
    getCBRrate
      (fold_left (fun lst r => addCBRrate lst r (B r)) rates acc) rate
    = if existsb (Z.eqb rate) rates then Returns (B rate)
      else getCBRrate acc rate.
Proof.
  induction rates as [| a rates IH]; intros acc rate; [reflexivity |].
  cbn [fold_left existsb]. rewrite IH.
  destruct (existsb (Z.eqb rate) rates); [rewrite orb_true_r; reflexivity |].
  rewrite orb_false_r. unfold addCBRrate. cbn [getCBRrate baudR DCBbaud].
  rewrite (Z.eqb_sym a rate).
  destruct (rate =? a) eqn:E; [| reflexivity].
  apply Z.eqb_eq in E. subst a. reflexivity.
Qed.

Lemma getBaudRate_added (rate : Z) (rates : list Z) :
  forall (acc : list CBRrate),
    (forall r, In r rates -> B r = B rate -> r = rate) ->
    getBaudRate
      (fold_left (fun lst r => addCBRrate lst r (B r)) rates acc) (B rate)
    = if existsb (Z.eqb rate) rates then Returns rate
      else getBaudRate acc (B rate).
Proof.
  induction rates as [| a rates IH]; intros acc Hinj; [reflexivity |].
  cbn [fold_left existsb].
  rewrite IH by (intros r Hr; apply Hinj; right; exact Hr).
  destruct (existsb (Z.eqb rate) rates); [rewrite orb_true_r; reflexivity |].
  rewrite orb_false_r. unfold addCBRrate. cbn [getBaudRate baudR DCBbaud].
  destruct (B a =? B rate) eqn:E.
  - apply Z.eqb_eq in E.
    rewrite (Hinj a (or_introl eq_refl) E), Z.eqb_refl. reflexivity.
  - destruct (rate =? a) eqn:E'; [| reflexivity].
    apply Z.eqb_eq in E'. subst a. rewrite Z.eqb_refl in E. discriminate.
Qed.

Lemma getBaudRate_found (rates : list Z) :
  forall (acc : list CBRrate) (id rate : Z),
    getBaudRate
      (fold_left (fun lst r => addCBRrate lst r (B r)) rates acc) id
      = Returns rate ->
    (In rate rates /\ B rate = id) \/ getBaudRate acc id = Returns rate.
Proof.
  induction rates as [| a rates IH]; intros acc id rate H; [right; exact H |].
  cbn [fold_left] in H. apply IH in H.
  destruct H as [[Hin E] | H]; [left; split; [right; exact Hin | exact E] |].
  unfold addCBRrate in H. cbn [getBaudRate baudR DCBbaud] in H.
  destruct (B a =? id) eqn:E; [| right; exact H].
  apply Z.eqb_eq in E. injection H as <-.
  left. split; [left; reflexivity | exact E].
Qed.

Lemma existsb_eqb_In (rate : Z) (rates : list Z) :
  existsb (Z.eqb rate) rates = true <-> In rate rates.
Proof.
  rewrite existsb_exists. split.
  - intros (x & Hx & E). apply Z.eqb_eq in E. subst x. exact Hx.
  - intros H. exists rate. split; [exact H | apply Z.eqb_refl].
Qed.

(** X21.  After the constructor, [getCBRrate] gives the identifier of each
    of the eighteen rates that the constructor adds, and throws
    [Unknown baud rate] for every other rate. *)
Theorem getCBRrate_knows_the_constructor_rates :
  forall rate : Z,
    (In rate constructor_rates ->
     getCBRrate (constructed B) rate = Returns (B rate))
    /\ (~ In rate constructor_rates ->
        getCBRrate (constructed B) rate = Throws "Unknown baud rate").
Proof.
  intros rate. unfold constructed. rewrite getCBRrate_added.
  split; intros H.
  - apply existsb_eqb_In in H. rewrite H. reflexivity.
  - destruct (existsb (Z.eqb rate) constructor_rates) eqn:E; [| reflexivity].
    apply existsb_eqb_In in E. contradiction.
Qed.

(** X22.  When no other rate of the constructor has the identifier of
    [rate], the identifier that [getCBRrate] gives for [rate] is turned back
    into [rate] by [getBaudRate]. *)
Theorem baud_rate_round_trip :
  forall rate : Z,
    In rate constructor_rates ->
    (forall r, In r constructor_rates -> B r = B rate -> r = rate) ->
    exists id,
      getCBRrate (constructed B) rate = Returns id
      /\ getBaudRate (constructed B) id = Returns rate.
Proof.
  intros rate Hin Hinj. exists (B rate). unfold constructed.
  rewrite getCBRrate_added, getBaudRate_added by exact Hinj.
  apply existsb_eqb_In in Hin. rewrite Hin. split; reflexivity.
Qed.

(** X23.  Whenever [getBaudRate] returns a rate for an identifier,
    [getCBRrate] returns that identifier for the rate, and the rate is one
    of the constructor's. *)
Theorem baud_identifier_round_trip :
  forall id rate : Z,
    getBaudRate (constructed B) id = Returns rate ->
    In rate constructor_rates
    /\ getCBRrate (constructed B) rate = Returns id.
Proof.
  intros id rate H. unfold constructed in *.
  apply getBaudRate_found in H.
  destruct H as [[Hin E] | H]; [| discriminate].
  split; [exact Hin |].
  rewrite getCBRrate_added.
  apply existsb_eqb_In in Hin. rewrite Hin, E. reflexivity.
Qed.

End BaudRates.

Lemma getCBRrate_knows_the_constructor_rates_witness :
  getCBRrate (constructed linux_B) 9600 = Returns 13
  /\ getCBRrate (constructed linux_B) 14400 = Throws "Unknown baud rate".
Proof.
  destruct (getCBRrate_knows_the_constructor_rates linux_B 9600) as [H _].
  destruct (getCBRrate_knows_the_constructor_rates linux_B 14400) as [_ H'].
  split.
  - apply H. simpl. tauto.
  - apply H'. simpl. intuition discriminate.
Defined.

Lemma baud_rate_round_trip_witness :
  exists id,
    getCBRrate (constructed linux_B) 115200 = Returns id
    /\ getBaudRate (constructed linux_B) id = Returns 115200.
Proof.
  apply (baud_rate_round_trip linux_B 115200).
  - simpl. tauto.
  - intros r Hin E. simpl in Hin.
    repeat (destruct Hin as [<- | Hin];
            [first [reflexivity | vm_compute in E; discriminate E] |]).
    destruct Hin.
Defined.

Lemma baud_identifier_round_trip_witness :
  In 4800 constructor_rates
  /\ getCBRrate (constructed linux_B) 4800 = Returns 12.
Proof.
  apply (baud_identifier_round_trip linux_B 12 4800).
  vm_compute. reflexivity.
Defined.

(** ** [readOSPmsg] on a line without read errors *)

(** Without a failed read every pass of the payload loop either gets
    nothing, which ends it, or adds at least one byte. *)
Lemma payload_loop_ends (len : Z) (fuel : nat) :
  forall (stored : Z) (buf : buffer) (p : port),
    no_err p = true -> 0 <= stored < len + 2 ->
    (Z.to_nat (len + 2 - stored) <= fuel)%nat ->
    exists n buf' p',
      payload_loop fuel len stored buf p = Some (n, buf', p')
      /\ 0 <= n <= len + 2.
Proof.
  induction fuel as [| fuel IH]; intros stored buf p Hp Hs Hf; [lia |].
  cbn [payload_loop].
  pose proof (read_no_err p (len + 2 - stored) Hp ltac:(lia)) as R.
  destruct (read p (len + 2 - stored)) as [[nr data] q].
  destruct R as (Hq & Hn & Hle).
  destruct (negb (nr =? 0) && (stored + nr <? len + 2)) eqn:E.
  - apply andb_true_iff in E. destruct E as [E0 E].
    apply Z.ltb_lt in E. apply negb_true_iff, Z.eqb_neq in E0.
    apply (IH (stored + nr) (store buf stored data) q Hq); lia.
  - exists (stored + nr), (store buf stored data), q.
    split; [reflexivity | lia].
Qed.

(** X24.  On a line where no read fails, once the synchronisation has
    returned [readOSPmsg] returns too, within [MAXBUFFERSIZE] further reads,
    and its status is one of 0, 1, 2, 3, 4 and 6. *)
Theorem osp_read_ends_when_no_read_fails :
  forall (fuel : nat) (patience : Z) (o : SerialTxRx),
    (Z.to_nat MAXBUFFERSIZE <= fuel)%nat ->
    no_err (hSerial o) = true ->
    synchOSPmsg fuel patience (hSerial o) <> None ->
    exists s o',
      readOSPmsg fuel patience o = Some (s, o')
      /\ 0 <= s <= 6 /\ s <> 5.
Proof.
  intros fuel patience o Hf Hne Hs. unfold readOSPmsg.
  unfold synchOSPmsg in *.
  destruct (synch_loop START1 START2 fuel 1 patience (hSerial o))
    as [[[st pat] p1] |] eqn:L; [| exfalso; apply Hs; reflexivity].
  apply synch_loop_no_err in L; [| exact Hne].
  cbv beta iota delta [synch_result].
  destruct (st =? 3); [| eexists _, _; split; [reflexivity | lia]].
  pose proof (read_no_err p1 2 L ltac:(lia)) as R.
  destruct (read p1 2) as [[n data] p2]. destruct R as (Hp2 & _ & _).
  destruct (negb (n =? 2)); [eexists _, _; split; [reflexivity | lia] |].
  set (lenBuff := store (paylenBuff o) 0 data).
  set (l := Z.lor (Z.shiftl (lenBuff 0) 8) (lenBuff 1)).
  destruct ((0 <? l) && (l <? MAXBUFFERSIZE - 1 - 2)) eqn:E;
    [| eexists _, _; split; [reflexivity | lia]].
  apply andb_true_iff in E. destruct E as [E1 E2].
  apply Z.ltb_lt in E1. apply Z.ltb_lt in E2. unfold MAXBUFFERSIZE in *.
  simpl negb. cbv iota. unfold readOSPpayload.
  destruct (payload_loop_ends l fuel 0 (payBuff o) p2 Hp2 ltac:(lia)
              ltac:(lia)) as (n' & buf & p3 & Hrun & _).
  rewrite Hrun.
  destruct (n' <? l + 2); [eexists _, _; split; [reflexivity | lia] |].
  destruct (negb _); eexists _, _; (split; [reflexivity | lia]).
Qed.

Lemma osp_read_ends_when_no_read_fails_witness :
  exists s o',
    readOSPmsg 2052 3
      (fresh (feed [7; START1; START2; 0; 2; 7; 8; 0; 15; END1] Gap))
      = Some (s, o')
    /\ 0 <= s <= 6 /\ s <> 5.
Proof.
  apply (osp_read_ends_when_no_read_fails 2052 3
           (fresh (feed [7; START1; START2; 0; 2; 7; 8; 0; 15; END1] Gap))).
  - vm_compute. lia.
  - reflexivity.
  - vm_compute. discriminate.
Defined.

(** ** When the synchronisation of [readOSPmsg] gives up *)

Lemma has_start_tail (a : Z) (l : list Z) :
  has_start (a :: l) = false -> has_start l = false.
Proof.
  simpl. destruct l as [| b l]; [reflexivity |].
  intros H. apply orb_false_iff in H. apply H.
Qed.

Lemma has_start_pair (l : list Z) : has_start (START1 :: START2 :: l) = true.
Proof. reflexivity. Qed.

Lemma costly_cons (e : event) (q : list event) :
  costly (e :: q) = (if marker e then 0 else 1) + costly q.
Proof.
  unfold costly. simpl filter.
  destruct (marker e); simpl negb; cbv iota; simpl length; lia.
Qed.

Lemma costly_nonneg (q : list event) : 0 <= costly q.
Proof. unfold costly. lia. Qed.

(** One pass of the loop on the event at the head of the line. *)
Lemma synch_loop_event (fuel : nat) (state patience : Z) (e : event)
    (q : list event) (i : event) :
  state = 1 \/ state = 2 -> 0 < patience ->
  synch_loop START1 START2 (S fuel) state patience (mkPort (e :: q) i) =
    match e with
    | Rx b =>
        if b =? START1 then
          synch_loop START1 START2 fuel 2 patience (mkPort q i)
        else if b =? START2 then
          synch_loop START1 START2 fuel (if state =? 1 then 1 else 3)
            patience (mkPort q i)
        else synch_loop START1 START2 fuel 1 (patience - 1) (mkPort q i)
    | _ => synch_loop START1 START2 fuel state (patience - 1) (mkPort q i)
    end.
Proof.
  intros Hst Hp.
  rewrite synch_loop_step;
    [| destruct Hst as [-> | ->]; discriminate | exact Hp].
  rewrite read_one. unfold next. cbn [queue idle].
  destruct e as [b | |]; unfold synch_body; cbn [hd].
  - change (1 =? 1) with true. cbv iota.
    destruct Hst as [-> | ->];
      destruct (b =? START1); destruct (b =? START2); reflexivity.
  - reflexivity.
  - reflexivity.
Qed.

(** When the line repeats an event that is not a marker, each read costs
    one unit. *)
Lemma synch_idle_costly (i : event) :
  marker i = false ->
  forall (fuel : nat) (state patience : Z),
    state = 1 \/ state = 2 -> 0 <= patience ->
    (Z.to_nat patience <= fuel)%nat ->
    exists st,
      synch_loop START1 START2 fuel state patience (mkPort [] i)
        = Some (st, 0, mkPort [] i)
      /\ st <> 3.
Proof.
  intros Hm. induction fuel as [| fuel IH]; intros state patience Hst H0 Hf.
  - assert (patience = 0) by lia. subst. exists state. split.
    + apply synch_loop_exit. right. lia.
    + destruct Hst as [-> | ->]; discriminate.
  - destruct (Z.eq_dec patience 0) as [-> | Hne].
    { exists state. split.
      - apply synch_loop_exit. right. lia.
      - destruct Hst as [-> | ->]; discriminate. }
    rewrite synch_loop_step;
      [| destruct Hst as [-> | ->]; discriminate | lia].
    rewrite read_one, next_idle.
    destruct i as [b | |]; unfold synch_body; cbn [hd].
    + change (1 =? 1) with true. cbv iota.
      simpl in Hm. apply orb_false_iff in Hm. destruct Hm as [E1 E2].
      rewrite E1, E2.
      destruct Hst as [-> | ->]; simpl; apply IH; auto; lia.
    + simpl. apply IH; auto; lia.
    + simpl. apply IH; auto; lia.
Qed.

(** Events whose bytes hold no start sequence: the loop gives up, in the
    queue when it holds enough events that cost patience, and otherwise on
    the event that the line repeats, when that is not a marker. *)
Lemma synch_events (i : event) :
  forall (q : list event) (fuel : nat) (state patience : Z),
    state = 1 \/ state = 2 ->
    has_start (pending state ++ bytes_on (q ++ [i])) = false ->
    0 <= patience ->
    marker i = false \/ patience <= costly q ->
    (length q + Z.to_nat patience <= fuel)%nat ->
    exists st p',
      synch_loop START1 START2 fuel state patience (mkPort q i)
        = Some (st, 0, p')
      /\ st <> 3.
Proof.
  induction q as [| e q IH]; intros fuel state patience Hst Hns H0 Hc Hf.
  - destruct Hc as [Hm | Hc].
    + destruct (synch_idle_costly i Hm fuel state patience Hst H0)
        as (st & H & Hne); [simpl in Hf; lia |].
      exists st, (mkPort [] i). split; assumption.
    + change (costly []) with 0 in Hc. assert (patience = 0) by lia. subst.
      exists state, (mkPort [] i). split.
      * apply synch_loop_exit. right. lia.
      * destruct Hst as [-> | ->]; discriminate.
  - destruct (Z.eq_dec patience 0) as [-> | Hne].
    { exists state, (mkPort (e :: q) i). split.
      - apply synch_loop_exit. right. lia.
      - destruct Hst as [-> | ->]; discriminate. }
    simpl length in Hf. destruct fuel as [| fuel]; [lia |].
    rewrite synch_loop_event by (try exact Hst; lia).
    rewrite costly_cons in Hc.
    destruct e as [b | |].
    + change (bytes_on ((Rx b :: q) ++ [i])) with (b :: bytes_on (q ++ [i]))
        in Hns.
      destruct (b =? START1) eqn:E1.
      * apply Z.eqb_eq in E1. subst b.
        apply (IH fuel 2 patience (or_intror eq_refl)); try lia.
        -- destruct Hst as [-> | ->]; [exact Hns |].
           apply (has_start_tail START1). exact Hns.
        -- destruct Hc as [Hm | Hc]; [left; exact Hm | right].
           change (marker (Rx START1)) with true in Hc. cbv iota in Hc. lia.
      * destruct (b =? START2) eqn:E2.
        -- apply Z.eqb_eq in E2. subst b.
           destruct Hst as [-> | ->]; [| discriminate Hns].
           change (1 =? 1) with true. cbv iota.
           apply (IH fuel 1 patience (or_introl eq_refl)); try lia.
           ++ apply (has_start_tail START2). exact Hns.
           ++ destruct Hc as [Hm | Hc]; [left; exact Hm | right].
              change (marker (Rx START2)) with true in Hc. cbv iota in Hc.
              lia.
        -- apply (IH fuel 1 (patience - 1) (or_introl eq_refl)); try lia.
           ++ destruct Hst as [-> | ->].
              ** apply (has_start_tail b). exact Hns.
              ** apply (has_start_tail b), (has_start_tail START1).
                 exact Hns.
           ++ destruct Hc as [Hm | Hc]; [left; exact Hm | right].
              simpl marker in Hc. rewrite E1, E2 in Hc.
              change (false || false) with false in Hc. cbv iota in Hc. lia.
    + apply (IH fuel state (patience - 1) Hst); try lia.
      * exact Hns.
      * destruct Hc as [Hm | Hc]; [left; exact Hm | right].
        simpl marker in Hc. cbv iota in Hc. lia.
    + apply (IH fuel state (patience - 1) Hst); try lia.
      * exact Hns.
      * destruct Hc as [Hm | Hc]; [left; exact Hm | right].
        simpl marker in Hc. cbv iota in Hc. lia.
Qed.

(** Events whose bytes hold no start sequence, fewer of them costly than
    there is patience, then a marker byte without end: the loop is still
    running after any number of reads. *)
Lemma synch_events_stuck (b : Z) :
  b = START1 \/ b = START2 ->
  forall (q : list event) (fuel : nat) (state patience : Z),
    state = 1 \/ state = 2 ->
    has_start (pending state ++ bytes_on (q ++ [Rx b])) = false ->
    costly q < patience ->
    synch_loop START1 START2 fuel state patience (mkPort q (Rx b)) = None.
Proof.
  intros Hb. induction q as [| e q IH]; intros fuel state patience Hst Hns Hc.
  - change (costly []) with 0 in Hc.
    apply (synch_stuck_on_marker b Hb fuel state patience); [| exact Hc].
    destruct Hst as [-> | ->]; [left; reflexivity | right].
    split; [reflexivity |].
    destruct Hb as [-> | ->]; [reflexivity | discriminate Hns].
  - pose proof (costly_nonneg (e :: q)) as Hpos.
    destruct fuel as [| fuel].
    { simpl. replace (0 <? patience) with true
        by (symmetry; apply Z.ltb_lt; lia).
      destruct Hst as [-> | ->]; reflexivity. }
    rewrite synch_loop_event by (try exact Hst; lia).
    rewrite costly_cons in Hc.
    destruct e as [c | |].
    + change (bytes_on ((Rx c :: q) ++ [Rx b]))
        with (c :: bytes_on (q ++ [Rx b])) in Hns.
      destruct (c =? START1) eqn:E1.
      * apply Z.eqb_eq in E1. subst c.
        change (marker (Rx START1)) with true in Hc. cbv iota in Hc.
        apply (IH fuel 2 patience (or_intror eq_refl)); [| lia].
        destruct Hst as [-> | ->]; [exact Hns |].
        apply (has_start_tail START1). exact Hns.
      * destruct (c =? START2) eqn:E2.
        -- apply Z.eqb_eq in E2. subst c.
           change (marker (Rx START2)) with true in Hc. cbv iota in Hc.
           destruct Hst as [-> | ->]; [| discriminate Hns].
           change (1 =? 1) with true. cbv iota.
           apply (IH fuel 1 patience (or_introl eq_refl)); [| lia].
           apply (has_start_tail START2). exact Hns.
        -- simpl marker in Hc. rewrite E1, E2 in Hc.
           change (false || false) with false in Hc. cbv iota in Hc.
           apply (IH fuel 1 (patience - 1) (or_introl eq_refl)); [| lia].
           destruct Hst as [-> | ->].
           ++ apply (has_start_tail c). exact Hns.
           ++ apply (has_start_tail c), (has_start_tail START1). exact Hns.
    + simpl marker in Hc. cbv iota in Hc.
      apply (IH fuel state (patience - 1) Hst); [exact Hns | lia].
    + simpl marker in Hc. cbv iota in Hc.
      apply (IH fuel state (patience - 1) Hst); [exact Hns | lia].
Qed.

(** X25.  A line of any events (bytes, pauses, failed reads, and the event
    it repeats without end once they are used up) whose bytes hold no
    START1 immediately followed by START2.  When the event repeated is not
    a marker byte, or the events before it that are not marker bytes are at
    least as many as the patience, [readOSPmsg] returns 6 within one read
    per event and one more per unit of patience, and the patience is spent
    to exactly 0.  Otherwise, the line ending in a marker byte without end
    before the patience is used up, [readOSPmsg] never returns. *)
Theorem osp_sync_gives_up_unless_markers_never_end :
  forall (p : port) (o : SerialTxRx) (patience : Z),
    has_start (bytes_on (queue p ++ [idle p])) = false ->
    0 <= patience ->
    (marker (idle p) = false \/ patience <= costly (queue p) ->
     forall fuel : nat,
       (length (queue p) + Z.to_nat patience <= fuel)%nat ->
       exists st p',
         synch_loop START1 START2 fuel 1 patience p = Some (st, 0, p')
         /\ st <> 3
         /\ readOSPmsg fuel patience (on_line o p) = Some (6, on_line o p'))
    /\ (marker (idle p) = true -> costly (queue p) < patience ->
        forall fuel : nat, readOSPmsg fuel patience (on_line o p) = None).
Proof.
  intros [q i] o patience Hns H0. cbn [queue idle] in *. split.
  - intros Hc fuel Hf.
    destruct (synch_events i q fuel 1 patience (or_introl eq_refl) Hns H0
                Hc Hf) as (st & p' & H & Hst).
    exists st, p'. split; [exact H |]. split; [exact Hst |].
    unfold readOSPmsg, synchOSPmsg, on_line. cbn [hSerial]. rewrite H.
    cbv beta iota delta [synch_result].
    apply Z.eqb_neq in Hst. rewrite Hst. reflexivity.
  - intros Hm Hc fuel.
    destruct i as [b | |]; try discriminate.
    simpl in Hm. apply orb_true_iff in Hm.
    assert (Hb : b = START1 \/ b = START2)
      by (destruct Hm as [E | E]; apply Z.eqb_eq in E; auto).
    unfold readOSPmsg, synchOSPmsg, on_line. cbn [hSerial].
    rewrite (synch_events_stuck b Hb q fuel 1 patience (or_introl eq_refl)
               Hns Hc).
    reflexivity.
Qed.

Lemma osp_sync_gives_up_unless_markers_never_end_witness :
  (exists st p',
     synch_loop START1 START2 15 1 10
       (mkPort [Rx START2; Gap; Rx 7; Err; Rx START1] (Rx 7))
       = Some (st, 0, p')
     /\ st <> 3
     /\ readOSPmsg 15 10
          (on_line (fresh (feed [] Gap))
             (mkPort [Rx START2; Gap; Rx 7; Err; Rx START1] (Rx 7)))
        = Some (6, on_line (fresh (feed [] Gap)) p'))
  /\ (forall fuel : nat,
        readOSPmsg fuel 10
          (on_line (fresh (feed [] Gap))
             (mkPort [Rx 7; Gap; Rx START1] (Rx START1)))
        = None).
Proof.
  split.
  - destruct (osp_sync_gives_up_unless_markers_never_end
                (mkPort [Rx START2; Gap; Rx 7; Err; Rx START1] (Rx 7))
                (fresh (feed [] Gap)) 10) as [H _].
    + reflexivity.
    + lia.
    + apply H; [left; reflexivity | simpl; lia].
  - destruct (osp_sync_gives_up_unless_markers_never_end
                (mkPort [Rx 7; Gap; Rx START1] (Rx START1))
                (fresh (feed [] Gap)) 10) as [_ H].
    + reflexivity.
    + lia.
    + apply H; [reflexivity | vm_compute; reflexivity].
Defined.
